(** * autorriculum: the PDF text extractor and the profile merge

    A shallow embedding of [PDFDataExtractor] (parseExtractedText,
    mergeProfileData, saveProfile) and of the JavaScript string, array and
    regular-expression operations it is written with.

    Strings.  A JavaScript string is a sequence of UTF-16 code units.  The
    embedding uses [string], one [ascii] per code unit, so it covers the
    texts whose code units lie in U+0000..U+00FF (Latin-1: the English and
    Portuguese resumes the extractor's keyword lists are written for).  On
    that range [toLowerCase], [trim], the classes [\s \w \d .] and the
    case folding of the [i] flag are the ones of ECMAScript.

    Objects used as maps ([Record<string, any>]) are [gmap string json]:
    equality of records is equality of their properties, whatever the order
    in which they were inserted. *)

From stdpp Require Import gmap strings list fin_maps.
From Stdlib Require Import Ascii String DecimalString Sorted.

Open Scope string_scope.

(** ** Code units *)

Definition code (c : ascii) : nat := nat_of_ascii c.

Definition in_range (lo hi : ascii) (c : ascii) : bool :=
  Nat.leb (code lo) (code c) && Nat.leb (code c) (code hi).

Definition is_digit (c : ascii) : bool := in_range "0" "9" c.
Definition is_lower_az (c : ascii) : bool := in_range "a" "z" c.
Definition is_upper_AZ (c : ascii) : bool := in_range "A" "Z" c.

(** [\w] *)
Definition is_word (c : ascii) : bool :=
  is_upper_AZ c || is_lower_az c || is_digit c || Ascii.eqb c "_".

(** White space and line terminators below U+0100: TAB, LF, VT, FF, CR,
    SPACE and NBSP.  This is [\s], and what [trim] strips. *)
Definition is_space (c : ascii) : bool :=
  (Nat.leb 9 (code c) && Nat.leb (code c) 13) ||
  Nat.eqb (code c) 32 || Nat.eqb (code c) 160.

(** Line terminators below U+0100 (what [.] refuses). *)
Definition is_line_terminator (c : ascii) : bool :=
  Nat.eqb (code c) 10 || Nat.eqb (code c) 13.

(** Upper-case letters of Latin-1: A-Z and U+00C0..U+00DE without the
    multiplication sign U+00D7.  Their lower-case forms are 32 further. *)
Definition has_lower (c : ascii) : bool :=
  is_upper_AZ c ||
  (Nat.leb 192 (code c) && Nat.leb (code c) 222 && negb (Nat.eqb (code c) 215)).

Definition has_upper (c : ascii) : bool :=
  is_lower_az c ||
  (Nat.leb 224 (code c) && Nat.leb (code c) 254 && negb (Nat.eqb (code c) 247)).

Definition lower_unit (c : ascii) : ascii :=
  if has_lower c then ascii_of_nat (code c + 32) else c.

(** The partner of a lower-case letter inside Latin-1 (sharp s, micro sign
    and y with diaeresis have none there and stay). *)
Definition upper_unit (c : ascii) : ascii :=
  if has_upper c then ascii_of_nat (code c - 32) else c.

Definition LF : ascii := "010".
Definition c_cedilla : ascii := "231".
Definition a_tilde : ascii := "227".
Definition o_tilde : ascii := "245".
Definition e_circumflex : ascii := "234".

(** ** String.prototype *)

Fixpoint string_map (f : ascii -> ascii) (s : string) : string :=
  match s with
  | EmptyString => EmptyString
  | String c s' => String (f c) (string_map f s')
  end.

(** [toLowerCase] on code units below U+0100: each unit has a lower-case
    form of one unit in that range.  (Outside it the method can change the
    number of units: U+0130 becomes two; such texts are not covered.) *)
Definition toLowerCase (s : string) : string := string_map lower_unit s.

Fixpoint trimStart (s : string) : string :=
  match s with
  | EmptyString => EmptyString
  | String c s' => if is_space c then trimStart s' else s
  end.

Fixpoint trimEnd (s : string) : string :=
  match s with
  | EmptyString => EmptyString
  | String c s' =>
      match trimEnd s' with
      | EmptyString => if is_space c then EmptyString else String c EmptyString
      | t => String c t
      end
  end.

Definition trim (s : string) : string := trimEnd (trimStart s).

Fixpoint startsWith (p s : string) : bool :=
  match p, s with
  | EmptyString, _ => true
  | String a p', String b s' => Ascii.eqb a b && startsWith p' s'
  | String _ _, EmptyString => false
  end.

(** [s.includes(sub)] *)
Fixpoint includes (sub s : string) : bool :=
  startsWith sub s ||
  match s with
  | EmptyString => false
  | String _ s' => includes sub s'
  end.

(** [s.split(sep)] for a separator of one code unit. *)
Fixpoint split (sep : ascii) (s : string) : list string :=
  match s with
  | EmptyString => [EmptyString]
  | String c s' =>
      if Ascii.eqb c sep then EmptyString :: split sep s'
      else match split sep s' with
           | h :: t => String c h :: t
           | [] => [String c EmptyString]
           end
  end.

Fixpoint string_drop (n : nat) (s : string) : string :=
  match n, s with
  | 0, _ => s
  | S n', String _ s' => string_drop n' s'
  | S _, EmptyString => EmptyString
  end.

Fixpoint string_take (n : nat) (s : string) : string :=
  match n, s with
  | 0, _ => EmptyString
  | S n', String c s' => String c (string_take n' s')
  | S _, EmptyString => EmptyString
  end.

(** [lang.charAt(0).toUpperCase() + lang.slice(1)].  The source applies it
    to the entries of its two keyword lists only, whose first code units
    are the ASCII letters a-z. *)
Definition capitalize (s : string) : string :=
  match s with
  | EmptyString => EmptyString
  | String c s' => String (upper_unit c) s'
  end.

(** ** Array.prototype *)

(** [arr.includes(x)] on an array of strings. *)
Definition arr_includes (x : string) (arr : list string) : bool :=
  existsb (String.eqb x) arr.

(** [arr.indexOf(x)]; [None] stands for -1. *)
Fixpoint indexOf (x : string) (arr : list string) : option nat :=
  match arr with
  | [] => None
  | y :: arr' => if String.eqb x y then Some 0 else S <$> indexOf x arr'
  end.

(** [arr.filter((item, index, arr) => f(item, index))] *)
Fixpoint filter_index {A} (f : A -> nat -> bool) (index : nat) (arr : list A) : list A :=
  match arr with
  | [] => []
  | item :: arr' =>
      if f item index then item :: filter_index f (S index) arr'
      else filter_index f (S index) arr'
  end.

(** ** Regular expressions

    The patterns of the source as syntax trees, and the backtracking
    matcher of ECMAScript over them: alternatives are tried left to right,
    a greedy quantifier tries one more iteration before it lets the rest of
    the pattern continue, a lazy one the other way round, and an iteration
    of a quantifier whose minimum is reached fails when it consumes
    nothing. *)

Inductive regex : Type :=
| Eps
| Cls (negated : bool) (p : ascii -> bool)
| Seq (r1 r2 : regex)
| Alt (r1 r2 : regex)
| Rep (greedy : bool) (min : nat) (max : option nat) (r : regex)
| Bol
| Eol
| Ahead (r : regex).

Record RegExp := { source : regex; ignoreCase : bool }.

(** Membership of a code unit in a class.  With the [i] flag two code
    units are the same when their canonical (upper-case) forms are, so [c]
    is in the class when [c] or its other case is. *)
Definition class_mem (ic : bool) (p : ascii -> bool) (c : ascii) : bool :=
  if ic then p c || p (lower_unit c) || p (upper_unit c) else p c.

(** A continuation receives the index reached and what is left of the
    input there; a match returns the index where the whole pattern ends. *)
Definition Cont : Type := nat -> string -> option nat.

(** The loop of a quantifier (RepeatMatcher): [step] matches the
    quantified pattern once.  Every iteration either lowers [min] or
    consumes input, so [min + length s + 1] turns of [fuel] suffice. *)
Fixpoint rep_loop (step : nat -> string -> Cont -> option nat) (greedy : bool)
  (k : Cont) (fuel min : nat) (max : option nat) (i : nat) (s : string)
  {struct fuel} : option nat :=
  match fuel with
  | 0 => None
  | S fuel' =>
      match max with
      | Some 0 => k i s
      | _ =>
          let again :=
            step i s (fun i' s' =>
              if Nat.eqb min 0 && Nat.eqb (String.length s') (String.length s)
              then None
              else rep_loop step greedy k fuel' (Nat.pred min) (Nat.pred <$> max)
                     i' s') in
          if negb (Nat.eqb min 0) then again
          else if greedy then
            match again with Some e => Some e | None => k i s end
          else
            match k i s with Some e => Some e | None => again end
      end
  end.

Fixpoint mtch (ic : bool) (r : regex) (i : nat) (s : string) (k : Cont)
  {struct r} : option nat :=
  match r with
  | Eps => k i s
  | Cls negated p =>
      match s with
      | EmptyString => None
      | String c s' =>
          if xorb negated (class_mem ic p c) then k (S i) s' else None
      end
  | Seq r1 r2 => mtch ic r1 i s (fun i' s' => mtch ic r2 i' s' k)
  | Alt r1 r2 =>
      match mtch ic r1 i s k with
      | Some e => Some e
      | None => mtch ic r2 i s k
      end
  | Rep greedy min max r1 =>
      rep_loop (mtch ic r1) greedy k (min + String.length s + 1) min max i s
  | Bol => if Nat.eqb i 0 then k i s else None
  | Eol => match s with EmptyString => k i s | String _ _ => None end
  | Ahead r1 =>
      match mtch ic r1 i s (fun i' _ => Some i') with
      | Some _ => k i s
      | None => None
      end
  end.

(** One attempt at index [i], where [s] is the input from [i] on. *)
Definition exec_at (re : RegExp) (i : nat) (s : string) : option nat :=
  mtch (ignoreCase re) (source re) i s (fun e _ => Some e).

(** The first match at or after [i]: its start and its end. *)
Fixpoint search (re : RegExp) (i : nat) (s : string) : option (nat * nat) :=
  match exec_at re i s with
  | Some e => Some (i, e)
  | None =>
      match s with
      | EmptyString => None
      | String _ s' => search re (S i) s'
      end
  end.

(** [re.test(s)], and the truth value of [s.match(re)], without [g]. *)
Definition test (re : RegExp) (s : string) : bool :=
  match search re 0 s with Some _ => true | None => false end.

(** [s.match(re) || []] for a pattern with the [g] flag: the matched
    substrings from left to right.  [skip] counts the code units of the
    last match that are still to be passed; after an empty match the
    search resumes one code unit further. *)
Fixpoint match_all_from (re : RegExp) (i : nat) (s : string) (skip : nat)
  : list string :=
  match skip, s with
  | S n, String _ s' => match_all_from re (S i) s' n
  | S _, EmptyString => []
  | 0, _ =>
      match exec_at re i s with
      | Some e =>
          string_take (e - i) s ::
          match s with
          | EmptyString => []
          | String _ s' => match_all_from re (S i) s' (Nat.pred (e - i))
          end
      | None =>
          match s with
          | EmptyString => []
          | String _ s' => match_all_from re (S i) s' 0
          end
      end
  end.

Definition match_all (re : RegExp) (s : string) : list string :=
  match_all_from re 0 s 0.

(** [s.replace(re, rep)] for a pattern with the [g] flag and a replacement
    text without [$]. *)
Fixpoint replace_all_from (re : RegExp) (rep : string) (i : nat) (s : string)
  (skip : nat) : string :=
  match skip, s with
  | S n, String _ s' => replace_all_from re rep (S i) s' n
  | S _, EmptyString => EmptyString
  | 0, _ =>
      match exec_at re i s with
      | Some e =>
          rep ++
          match s with
          | EmptyString => EmptyString
          | String c s' =>
              let rest := replace_all_from re rep (S i) s' (Nat.pred (e - i)) in
              if Nat.eqb (e - i) 0 then String c rest else rest
          end
      | None =>
          match s with
          | EmptyString => EmptyString
          | String c s' => String c (replace_all_from re rep (S i) s' 0)
          end
      end
  end.

Definition replace_all (re : RegExp) (rep : string) (s : string) : string :=
  replace_all_from re rep 0 s 0.

(** [s.replace(re, rep)] without [g]: the first match only. *)
Fixpoint replace_first_from (re : RegExp) (rep : string) (i : nat) (s : string)
  : string :=
  match exec_at re i s with
  | Some e => rep ++ string_drop (e - i) s
  | None =>
      match s with
      | EmptyString => EmptyString
      | String c s' => String c (replace_first_from re rep (S i) s')
      end
  end.

Definition replace_first (re : RegExp) (rep : string) (s : string) : string :=
  replace_first_from re rep 0 s.

(** Pattern syntax. *)
Definition chr (c : ascii) : regex := Cls false (Ascii.eqb c).

Fixpoint lit (s : string) : regex :=
  match s with
  | EmptyString => Eps
  | String c EmptyString => chr c
  | String c s' => Seq (chr c) (lit s')
  end.

Definition Star (r : regex) : regex := Rep true 0 None r.
Definition Plus (r : regex) : regex := Rep true 1 None r.
Definition Opt (r : regex) : regex := Rep true 0 (Some 1) r.
Definition Times (n : nat) (r : regex) : regex := Rep true n (Some n) r.
Definition Between (m n : nat) (r : regex) : regex := Rep true m (Some n) r.
Definition LazyStar (r : regex) : regex := Rep false 0 None r.

Declare Scope regex_scope.
Delimit Scope regex_scope with re.
Bind Scope regex_scope with regex.
Infix "⋅" := Seq (at level 40, left associativity) : regex_scope.
Infix "∣" := Alt (at level 50, left associativity) : regex_scope.

Definition digit : regex := Cls false is_digit.       (* \d *)
Definition word : regex := Cls false is_word.         (* \w *)
Definition space : regex := Cls false is_space.       (* \s *)
Definition any : regex := Cls true is_line_terminator. (* . *)
Definition lower_az : regex := Cls false is_lower_az. (* [a-z] *)
Definition upper_AZ : regex := Cls false is_upper_AZ. (* [A-Z] *)

Definition re (r : regex) : RegExp := {| source := r; ignoreCase := false |}.
Definition re_i (r : regex) : RegExp := {| source := r; ignoreCase := true |}.

(** What a pattern can match, leaving aside where: the assertions [^],
    [$] and [(?=...)] match the empty string, and a quantifier matches a
    sequence of matches of its pattern whose length respects its bounds
    (for bounds [min <= max], as every pattern that parses has them). *)
Definition joined (ms : list string) : string :=
  fold_right String.append EmptyString ms.

Definition within (min : nat) (max : option nat) (n : nat) : Prop :=
  match max with
  | Some x => Nat.min min x <= n <= x
  | None => min <= n
  end.

Fixpoint lang (ic : bool) (r : regex) (m : string) : Prop :=
  match r with
  | Eps | Bol | Eol | Ahead _ => m = EmptyString
  | Cls negated p =>
      exists c, m = String c EmptyString /\ xorb negated (class_mem ic p c) = true
  | Seq r1 r2 => exists m1 m2, m = m1 ++ m2 /\ lang ic r1 m1 /\ lang ic r2 m2
  | Alt r1 r2 => lang ic r1 m \/ lang ic r2 m
  | Rep _ min max r1 =>
      exists ms : list string,
        m = joined ms /\ Forall (lang ic r1) ms /\ within min max (List.length ms)
  end.

Fixpoint string_forallb (p : ascii -> bool) (s : string) : bool :=
  match s with
  | EmptyString => true
  | String c s' => p c && string_forallb p s'
  end.

(** What [mtch] promises of a pattern whose matches are in [L]: a match
    consumed a member of [L] and went on from there. *)
Definition consumes (L : string -> Prop)
    (step : nat -> string -> Cont -> option nat) : Prop :=
  forall i s k e, step i s k = Some e ->
    exists m s', s = m ++ s' /\ L m /\ k (i + String.length m) s' = Some e.

(** The result of [step] on [s] depends on its continuation only through
    what the continuation does on inputs that are not longer than [s]. *)
Definition calls_on_suffixes (step : nat -> string -> Cont -> option nat) : Prop :=
  forall i s (k1 k2 : Cont),
    (forall i' s', String.length s' <= String.length s -> k1 i' s' = k2 i' s') ->
    step i s k1 = step i s k2.

Fixpoint string_flat_map (f : ascii -> string) (s : string) : string :=
  match s with
  | EmptyString => EmptyString
  | String c s' => f c ++ string_flat_map f s'
  end.

(** ** The profile record *)

(** The values of the [Record<string, any>] maps. *)
#[local] Unset Elimination Schemes.
Inductive json : Type :=
| JNull
| JBool (b : bool)
| JNum (n : Z)
| JStr (s : string)
| JArr (items : list json)
| JObj (props : list (string * json)).
#[local] Set Elimination Schemes.

Module Language.
Record t := mk { name : string; proficiency : string; context : option string }.
End Language.

Record TechnicalSkills := {
  operating_systems : option (list string);
  programming_languages : option (list string);
  areas_of_expertise : option (list string);
  tools_and_technologies : option (list string)
}.

(** [interface ProfileData] of the extractor: every property is optional,
    so the same record type serves for [Partial<ProfileData>]. *)
Record ProfileData := {
  name : option string;
  contact : option (list string);
  facts : option (list string);
  projects : option (gmap string json);
  languages : option (list Language.t);
  certifications : option (gmap string json);
  superior_education : option (gmap string json);
  professional_experience : option (gmap string json);
  academical_research : option (gmap string json);
  memberships : option (gmap string json);
  technical_skills : option TechnicalSkills;
  github_stats : option (gmap string json)
}.

(** ** parseExtractedText: contact information *)

Local Open Scope regex_scope.

Definition word_dot_dash (c : ascii) : bool :=
  is_word c || Ascii.eqb c "." || Ascii.eqb c "-".
Definition word_dash (c : ascii) : bool := is_word c || Ascii.eqb c "-".
Definition dash_dot (c : ascii) : bool := Ascii.eqb c "-" || Ascii.eqb c ".".

(** [/[\w\.-]+@[\w\.-]+\.\w+/g] *)
Definition emailRegex : RegExp :=
  re (Plus (Cls false word_dot_dash) ⋅ chr "@" ⋅ Plus (Cls false word_dot_dash)
      ⋅ chr "." ⋅ Plus word).

(** [/(?:\+?[1-9]\d{1,14}|\(\d{3}\)\s?\d{3}-?\d{4}|\d{3}[-.]?\d{3}[-.]?\d{4})/g] *)
Definition phoneRegex : RegExp :=
  re (Opt (chr "+") ⋅ Cls false (in_range "1" "9") ⋅ Between 1 14 digit
      ∣ chr "(" ⋅ Times 3 digit ⋅ chr ")" ⋅ Opt space ⋅ Times 3 digit
        ⋅ Opt (chr "-") ⋅ Times 4 digit
      ∣ Times 3 digit ⋅ Opt (Cls false dash_dot) ⋅ Times 3 digit
        ⋅ Opt (Cls false dash_dot) ⋅ Times 4 digit).

(** [/\D/g] *)
Definition nonDigit : RegExp := re (Cls true is_digit).

(** [/^(19|20)\d{2}$/] *)
Definition yearRegex : RegExp :=
  re (Bol ⋅ (lit "19" ∣ lit "20") ⋅ Times 2 digit ⋅ Eol).

(** [/https?:\/\/[^\s]+/g] *)
Definition urlRegex : RegExp :=
  re (lit "http" ⋅ Opt (chr "s") ⋅ lit "://" ⋅ Plus (Cls true is_space)).

(** [/linkedin\.com\/in\/[\w-]+/g] *)
Definition linkedinRegex : RegExp :=
  re (lit "linkedin" ⋅ chr "." ⋅ lit "com/in/" ⋅ Plus (Cls false word_dash)).

(** [/github\.com\/[\w-]+/g] *)
Definition githubRegex : RegExp :=
  re (lit "github" ⋅ chr "." ⋅ lit "com/" ⋅ Plus (Cls false word_dash)).

Definition emails (text : string) : list string := match_all emailRegex text.

Definition potentialPhones (text : string) : list string :=
  match_all phoneRegex text.

Definition digits_of (num : string) : string := replace_all nonDigit "" num.

(** The callback of [potentialPhones.filter]. *)
Definition phone_ok (num : string) : bool :=
  let digits := digits_of num in
  Nat.leb 10 (String.length digits) && Nat.leb (String.length digits) 15 &&
  negb (test yearRegex digits) &&
  negb (Nat.eqb (String.length digits) 2 || Nat.eqb (String.length digits) 4).

Definition phones (text : string) : list string :=
  List.filter phone_ok (potentialPhones text).

Definition urls (text : string) : list string := match_all urlRegex text.
Definition linkedinProfiles (text : string) : list string :=
  match_all linkedinRegex text.
Definition githubProfiles (text : string) : list string :=
  match_all githubRegex text.

(** The array literal before [.filter]. *)
Definition contactMatches (text : string) : list string :=
  emails text ++ phones text ++ urls text
  ++ map (fun profile => "https://" ++ profile) (linkedinProfiles text)
  ++ map (fun profile => "https://" ++ profile) (githubProfiles text).

(** [arr.filter((item, index, arr) => arr.indexOf(item) === index)] *)
Definition dedup (arr : list string) : list string :=
  filter_index (fun item index => bool_decide (indexOf item arr = Some index)) 0 arr.

Definition contactInfo (text : string) : list string :=
  dedup (contactMatches text).

(** ** parseExtractedText: education *)

Definition engenharia_da_computacao : string :=
  "engenharia da computa" ++ String c_cedilla (String a_tilde "o").

Definition computer_engineering_upe : json :=
  JObj [ ("degree", JStr "Bachelor of Engineering");
         ("field", JStr "Computer Engineering");
         ("institution", JStr "Universidade de Pernambuco (UPE)");
         ("location", JStr "Recife, Pernambuco, Brasil");
         ("start_date", JStr "April 2024");
         ("end_date", JStr "December 2028");
         ("status", JStr "in_progress");
         ("extracted_from_pdf", JBool true) ].

Definition educationData (textLower : string) : gmap string json :=
  if includes engenharia_da_computacao textLower
     && includes "universidade de pernambuco" textLower
  then {[ "computer_engineering_upe" := computer_engineering_upe ]}
  else ∅.

(** ** parseExtractedText: certifications, the line scan *)

Definition certificacao : string :=
  "certifica" ++ String c_cedilla (String a_tilde "o").
Definition certificacoe : string :=
  "certifica" ++ String c_cedilla (String o_tilde "e").
Definition certificacoes : string :=
  "certifica" ++ String c_cedilla (String o_tilde "es").
Definition experiencia : string := "experi" ++ String e_circumflex "ncia".
Definition formacao : string :=
  "forma" ++ String c_cedilla (String a_tilde "o").
Definition competencias : string := "compet" ++ String e_circumflex "ncias".

Definition certificationKeywords : list string :=
  [ "certification"; "certificate"; "certified"; "course"; "training";
    certificacao; "certificado"; "curso"; "treinamento" ].

Definition certificationProviders : list string :=
  [ "aws"; "microsoft"; "google"; "oracle"; "cisco"; "comptia";
    "coursera"; "udemy"; "edx"; "linkedin learning"; "pluralsight";
    "figma"; "adobe"; "salesforce"; "vmware"; "red hat" ].

Definition unwantedPatterns : list RegExp :=
  [ (* /^page\s+\d+\s+of\s+\d+$/i *)
    re_i (Bol ⋅ lit "page" ⋅ Plus space ⋅ Plus digit ⋅ Plus space ⋅ lit "of"
          ⋅ Plus space ⋅ Plus digit ⋅ Eol);
    (* /^certifications?$/i *)
    re_i (Bol ⋅ lit "certification" ⋅ Opt (chr "s") ⋅ Eol);
    (* /^certificações?$/i *)
    re_i (Bol ⋅ lit certificacoe ⋅ Opt (chr "s") ⋅ Eol);
    (* /^\d+\s*(months?|meses?)$/i *)
    re_i (Bol ⋅ Plus digit ⋅ Star space
          ⋅ (lit "month" ⋅ Opt (chr "s") ∣ lit "mese" ⋅ Opt (chr "s")) ⋅ Eol);
    (* /^languages?$/i *)
    re_i (Bol ⋅ lit "language" ⋅ Opt (chr "s") ⋅ Eol);
    (* /^idiomas?$/i *)
    re_i (Bol ⋅ lit "idioma" ⋅ Opt (chr "s") ⋅ Eol);
    (* /^contato$/i *)
    re_i (Bol ⋅ lit "contato" ⋅ Eol);
    (* /^principais\s+competências$/i *)
    re_i (Bol ⋅ lit "principais" ⋅ Plus space ⋅ lit competencias ⋅ Eol) ].

(** [/^[A-Z][a-z]+\s+[A-Z][a-z]+$/], the "name pattern". *)
Definition namePattern : RegExp :=
  re (Bol ⋅ upper_AZ ⋅ Plus lower_az ⋅ Plus space ⋅ upper_AZ ⋅ Plus lower_az ⋅ Eol).

(** [/[a-z]+\s*\d+/i] *)
Definition coursePattern : RegExp :=
  re_i (Plus lower_az ⋅ Star space ⋅ Plus digit).

(** [titleCasePattern]: from the start an upper-case letter and one or
    more lower-case ones, then any number of groups [\s+[A-Z][a-z]*], then
    [.*] to the end. *)
Definition titleCasePattern : RegExp :=
  re (Bol ⋅ upper_AZ ⋅ Plus lower_az
      ⋅ Star (Plus space ⋅ upper_AZ ⋅ Star lower_az) ⋅ Star any ⋅ Eol).

(** [/^\d+$/] *)
Definition onlyDigits : RegExp := re (Bol ⋅ Plus digit ⋅ Eol).

(** [/^[a-z\s]+$/] *)
Definition onlyLowerCase : RegExp :=
  re (Bol ⋅ Plus (Cls false (fun c => is_lower_az c || is_space c)) ⋅ Eol).

(** [/^[a-z]/] *)
Definition startsLowerCase : RegExp := re (Bol ⋅ lower_az).

(** [/^(certificat(e|ion|ed)|course|training):\s*/i] *)
Definition labelPrefix : RegExp :=
  re_i (Bol
        ⋅ (lit "certificat" ⋅ (lit "e" ∣ lit "ion" ∣ lit "ed")
           ∣ lit "course" ∣ lit "training")
        ⋅ chr ":" ⋅ Star space).

(** [/[^a-z0-9]/g] *)
Definition nonKeyUnit : RegExp :=
  re (Cls true (fun c => is_lower_az c || is_digit c)).

(** [certName.toLowerCase().replace(/[^a-z0-9]/g, '_')] *)
Definition certKey (certName : string) : string :=
  replace_all nonKeyUnit "_" (toLowerCase certName).

Definition certEntry (certName : string) : json :=
  JObj [ ("name", JStr certName);
         ("type", JStr "course_completion");
         ("extracted_from_pdf", JBool true) ].

(** The truth value of [certifications[certKey]].  The object is an object
    literal, so besides its own properties (all of them objects here) a
    read finds the properties of [Object.prototype]; the two of them that
    a key, made of [a-z0-9_], can name are [constructor] and [__proto__]. *)
Definition inherited (key : string) : bool :=
  String.eqb key "constructor" || String.eqb key "__proto__".

Definition has_entry (certifications : gmap string json) (key : string) : bool :=
  bool_decide (is_Some (certifications !! key)) || inherited key.

(** [if (!certifications[certKey]) certifications[certKey] = {...}] *)
Definition add_certificate (certName : string) (certifications : gmap string json)
  : gmap string json :=
  let key := certKey certName in
  if has_entry certifications key then certifications
  else <[key := certEntry certName]> certifications.

(** What the callback of [lines.forEach] reads and writes: the flag, the
    array (the callback blanks the element after the current one) and the
    object that collects the certificates. *)
Record scan_state := {
  inCertSection : bool;
  lines : list string;
  found : gmap string json
}.

(** The exit test of the section. *)
Definition leaves_section (lowerLine originalLine : string) : bool :=
  includes "experience" lowerLine || includes experiencia lowerLine ||
  includes "education" lowerLine || includes formacao lowerLine ||
  includes "gabriel borges" lowerLine ||
  test namePattern originalLine.

Definition hasCertKeyword (lowerLine : string) : bool :=
  existsb (fun keyword => includes keyword lowerLine) certificationKeywords.

Definition hasProvider (lowerLine : string) : bool :=
  existsb (fun provider => includes provider lowerLine) certificationProviders.

Definition contextualMatch (inCertSection : bool) (originalLine : string) : bool :=
  inCertSection && Nat.ltb 3 (String.length originalLine) &&
  negb (test onlyDigits originalLine) &&
  negb (test onlyLowerCase originalLine).

(** The condition of the [if] that opens the candidate branch. *)
Definition is_candidate (inCertSection : bool) (lowerLine originalLine : string)
  : bool :=
  hasCertKeyword lowerLine || hasProvider lowerLine ||
  (test coursePattern lowerLine && test titleCasePattern originalLine) ||
  contextualMatch inCertSection originalLine.

(** The condition under which the next line continues the name. *)
Definition continues (nextLine : string) : bool :=
  Nat.ltb 0 (String.length nextLine) && Nat.ltb (String.length nextLine) 15 &&
  (test startsLowerCase nextLine || String.eqb nextLine "Science").

(** The look-ahead: the name, and the array after the step. *)
Definition lookahead (lines : list string) (index : nat) (originalLine : string)
  : string * list string :=
  match lines !! (index + 1) with
  | Some next =>
      let nextLine := trim next in
      if continues nextLine
      then (originalLine ++ " " ++ nextLine, <[index + 1 := ""]> lines)
      else (originalLine, lines)
  | None => (originalLine, lines)
  end.

Definition isGeneric (certName : string) : bool :=
  arr_includes (toLowerCase certName) certificationKeywords ||
  String.eqb (toLowerCase certName) "certifications" ||
  String.eqb (toLowerCase certName) certificacoes ||
  String.eqb (toLowerCase certName) "science".

(** One call of the callback of [lines.forEach], at [index]. *)
Definition scan_line (st : scan_state) (index : nat) : scan_state :=
  let line := default "" (lines st !! index) in
  let lowerLine := trim (toLowerCase line) in
  let originalLine := trim line in
  if Nat.ltb (String.length lowerLine) 3 then st
  else if includes "certification" lowerLine || includes certificacao lowerLine
  then {| inCertSection := true; lines := lines st; found := found st |}
  else
    let inSection :=
      if inCertSection st && leaves_section lowerLine originalLine
      then false else inCertSection st in
    if existsb (fun pattern => test pattern originalLine) unwantedPatterns
    then {| inCertSection := inSection; lines := lines st; found := found st |}
    else if is_candidate inSection lowerLine originalLine then
      let '(merged, lines') := lookahead (lines st) index originalLine in
      let certName := replace_first labelPrefix "" merged in
      {| inCertSection := inSection;
         lines := lines';
         found := if Nat.ltb 3 (String.length certName) && negb (isGeneric certName)
                  then add_certificate certName (found st)
                  else found st |}
    else {| inCertSection := inSection; lines := lines st; found := found st |}.

(** [lines.forEach(...)]: the indices of the array as it was when the
    loop started, in order; each call sees the array as the calls before
    it left it. *)
Definition scan_lines (lines0 : list string) : scan_state :=
  fold_left scan_line (seq 0 (List.length lines0))
    {| inCertSection := false; lines := lines0; found := ∅ |}.

(** ** parseExtractedText: certifications, the block pattern *)

Definition t_or_cedilla (c : ascii) : bool :=
  Ascii.eqb c "t" || Ascii.eqb c c_cedilla.
Definition o_or_tilde (c : ascii) : bool :=
  Ascii.eqb c o_tilde || Ascii.eqb c "o".
Definition space_or_colon (c : ascii) : bool := is_space c || Ascii.eqb c ":".
Definition notLF : regex := Cls true (Ascii.eqb LF).

(** The pattern [certSectionRegex], flags [gi]:
    [certifica[tç][õo]es?], then [[\s:]*], then the group
    [[^\n]+] followed lazily by any number of [\n[^\n]+], then the
    look-ahead for [\n\s*\n], for [\n[A-Z]] or for the end. *)
Definition certSectionRegex : RegExp :=
  re_i (lit "certifica" ⋅ Cls false t_or_cedilla ⋅ Cls false o_or_tilde
        ⋅ chr "e" ⋅ Opt (chr "s") ⋅ Star (Cls false space_or_colon)
        ⋅ (Plus notLF ⋅ LazyStar (chr LF ⋅ Plus notLF))
        ⋅ Ahead (chr LF ⋅ Star space ⋅ chr LF ∣ chr LF ⋅ upper_AZ ∣ Eol)).

(** The callback of [sectionLines.forEach]. *)
Definition add_section_line (certifications : gmap string json) (line : string)
  : gmap string json :=
  let cleanLine := trim line in
  if Nat.ltb 3 (String.length cleanLine)
  then add_certificate cleanLine certifications
  else certifications.

(** The callback of [certSections.forEach]; [tail] is [.slice(1)]. *)
Definition add_section (certifications : gmap string json) (section : string)
  : gmap string json :=
  fold_left add_section_line (tail (split LF section)) certifications.

Definition extract_certifications (text : string) : gmap string json :=
  let scanned := found (scan_lines (split LF text)) in
  fold_left add_section (match_all certSectionRegex text) scanned.

(** ** parseExtractedText: languages and skills *)

Definition programmingLanguages : list string :=
  [ "javascript"; "python"; "java"; "c++"; "c#"; "ruby"; "go"; "rust";
    "typescript"; "php"; "swift"; "kotlin"; "scala"; "r"; "matlab";
    "html"; "css"; "sql"; "bash"; "shell" ].

Definition skillsKeywords : list string :=
  [ "docker"; "kubernetes"; "aws"; "azure"; "gcp"; "linux"; "windows";
    "git"; "jenkins"; "terraform"; "ansible"; "mongodb"; "postgresql";
    "mysql"; "redis"; "elasticsearch"; "nginx"; "apache" ].

(** [keywords.forEach(k => { if (textLower.includes(k)) acc.push(cap(k)) })] *)
Definition push_found (textLower : string) (acc : list string) (keyword : string)
  : list string :=
  if includes keyword textLower then acc ++ [capitalize keyword] else acc.

Definition foundLanguages (textLower : string) : list string :=
  fold_left (push_found textLower) programmingLanguages [].

Definition foundSkills (textLower : string) : list string :=
  fold_left (push_found textLower) skillsKeywords [].

Definition language_entry (lang : string) : Language.t :=
  Language.mk lang "intermediate" (Some "Extracted from PDF").

(** [if (x.length > 0) extractedData.f = x] *)
Definition nonempty_list {A} (l : list A) : option (list A) :=
  match l with [] => None | _ => Some l end.

Definition nonempty_map (m : gmap string json) : option (gmap string json) :=
  if bool_decide (m = ∅) then None else Some m.

Definition parseExtractedText (text : string) : ProfileData :=
  let textLower := toLowerCase text in
  {| name := None;
     contact := nonempty_list (contactInfo text);
     facts := None;
     projects := None;
     languages := nonempty_list (map language_entry (foundLanguages textLower));
     certifications := nonempty_map (extract_certifications text);
     superior_education := nonempty_map (educationData textLower);
     professional_experience := None;
     academical_research := None;
     memberships := None;
     technical_skills :=
       match foundSkills textLower with
       | [] => None
       | skills =>
           Some {| operating_systems := None;
                   programming_languages := None;
                   areas_of_expertise := None;
                   tools_and_technologies := Some skills |}
       end;
     github_stats := None |}.

(** ** mergeProfileData *)

Definition set_contact (v : list string) (p : ProfileData) : ProfileData :=
  {| name := name p; contact := Some v; facts := facts p;
     projects := projects p; languages := languages p;
     certifications := certifications p;
     superior_education := superior_education p;
     professional_experience := professional_experience p;
     academical_research := academical_research p;
     memberships := memberships p; technical_skills := technical_skills p;
     github_stats := github_stats p |}.

Definition set_languages (v : list Language.t) (p : ProfileData) : ProfileData :=
  {| name := name p; contact := contact p; facts := facts p;
     projects := projects p; languages := Some v;
     certifications := certifications p;
     superior_education := superior_education p;
     professional_experience := professional_experience p;
     academical_research := academical_research p;
     memberships := memberships p; technical_skills := technical_skills p;
     github_stats := github_stats p |}.

Definition set_superior_education (v : gmap string json) (p : ProfileData)
  : ProfileData :=
  {| name := name p; contact := contact p; facts := facts p;
     projects := projects p; languages := languages p;
     certifications := certifications p;
     superior_education := Some v;
     professional_experience := professional_experience p;
     academical_research := academical_research p;
     memberships := memberships p; technical_skills := technical_skills p;
     github_stats := github_stats p |}.

Definition set_certifications (v : gmap string json) (p : ProfileData)
  : ProfileData :=
  {| name := name p; contact := contact p; facts := facts p;
     projects := projects p; languages := languages p;
     certifications := Some v;
     superior_education := superior_education p;
     professional_experience := professional_experience p;
     academical_research := academical_research p;
     memberships := memberships p; technical_skills := technical_skills p;
     github_stats := github_stats p |}.

Definition set_technical_skills (v : TechnicalSkills) (p : ProfileData)
  : ProfileData :=
  {| name := name p; contact := contact p; facts := facts p;
     projects := projects p; languages := languages p;
     certifications := certifications p;
     superior_education := superior_education p;
     professional_experience := professional_experience p;
     academical_research := academical_research p;
     memberships := memberships p; technical_skills := Some v;
     github_stats := github_stats p |}.

(** [{ ...a, ...b }] on two maps, [a] possibly undefined: the properties
    of [a], then those of [b] written over them. *)
Definition spread (a : option (gmap string json)) (b : gmap string json)
  : gmap string json :=
  b ∪ default ∅ a.

(** [{ ...existingSkills, ...extractedData.technical_skills }] *)
Definition spread_skills (a b : TechnicalSkills) : TechnicalSkills :=
  let over {A} (x y : option A) := match y with Some _ => y | None => x end in
  {| operating_systems := over (operating_systems a) (operating_systems b);
     programming_languages :=
       over (programming_languages a) (programming_languages b);
     areas_of_expertise := over (areas_of_expertise a) (areas_of_expertise b);
     tools_and_technologies :=
       over (tools_and_technologies a) (tools_and_technologies b) |}.

Definition no_skills : TechnicalSkills :=
  {| operating_systems := None; programming_languages := None;
     areas_of_expertise := None; tools_and_technologies := None |}.

Definition merge_contact (extractedData mergedProfile : ProfileData) : ProfileData :=
  match contact extractedData with
  | Some incoming =>
      let existingContacts := default [] (contact mergedProfile) in
      let newContacts :=
        List.filter (fun contact => negb (arr_includes contact existingContacts))
          incoming in
      set_contact (existingContacts ++ newContacts) mergedProfile
  | None => mergedProfile
  end.

Definition merge_languages (extractedData mergedProfile : ProfileData)
  : ProfileData :=
  match languages extractedData with
  | Some incoming =>
      let existingLanguages := default [] (languages mergedProfile) in
      let existingLanguageNames :=
        map (fun lang => toLowerCase (Language.name lang)) existingLanguages in
      let newLanguages :=
        List.filter
          (fun lang =>
             negb (arr_includes (toLowerCase (Language.name lang))
                     existingLanguageNames))
          incoming in
      set_languages (existingLanguages ++ newLanguages) mergedProfile
  | None => mergedProfile
  end.

Definition merge_superior_education (extractedData mergedProfile : ProfileData)
  : ProfileData :=
  match superior_education extractedData with
  | Some incoming =>
      set_superior_education
        (spread (superior_education mergedProfile) incoming) mergedProfile
  | None => mergedProfile
  end.

Definition merge_certifications (extractedData mergedProfile : ProfileData)
  : ProfileData :=
  match certifications extractedData with
  | Some incoming =>
      set_certifications (spread (certifications mergedProfile) incoming)
        mergedProfile
  | None => mergedProfile
  end.

Definition merge_technical_skills (extractedData mergedProfile : ProfileData)
  : ProfileData :=
  match technical_skills extractedData with
  | Some incoming =>
      let existingSkills := default no_skills (technical_skills mergedProfile) in
      set_technical_skills (spread_skills existingSkills incoming) mergedProfile
  | None => mergedProfile
  end.

(** The five [if] blocks, in the order of the source, on the copy
    [{ ...currentProfile }]. *)
Definition mergeProfileData (currentProfile extractedData : ProfileData)
  : ProfileData :=
  merge_technical_skills extractedData
    (merge_certifications extractedData
       (merge_superior_education extractedData
          (merge_languages extractedData
             (merge_contact extractedData currentProfile)))).

(** ** saveProfile

    The file system and the console are the world the method acts on.  A
    call of [fs.copyFileSync] or [fs.writeFileSync] is recorded when it is
    made, whether it succeeds or throws.  [fs.writeFileSync] writes in
    place: it opens the file, which empties it, and then writes the data,
    so a write that throws after the file was opened has lost the previous
    content. *)

Inductive fs_error : Type :=
| ENOENT (path : string)
| EACCES (path : string)
| ENOSPC (path : string).

Inductive call : Type :=
| copyFileSync_call (src dest : string)
| writeFileSync_call (path data : string)
| console_log (message : string)
| console_error (message : string) (error : fs_error).

Record world := {
  files : gmap string string;   (* path to content *)
  denied : gset string;         (* paths that cannot be written *)
  torn : gmap string string;    (* for a path that cannot be written: what a
                                   write leaves in the file when it fails
                                   after opening it; none when the file
                                   cannot be opened for writing *)
  now : N;                      (* what Date.now() returns *)
  calls : list call             (* the calls made so far, oldest first *)
}.

Inductive outcome (A : Type) : Type :=
| Returns (a : A) (w : world)
| Throws (e : fs_error) (w : world).
Arguments Returns {A} a w.
Arguments Throws {A} e w.

Definition record_call (c : call) (w : world) : world :=
  {| files := files w; denied := denied w; torn := torn w; now := now w;
     calls := calls w ++ [c] |}.

Definition store (path data : string) (w : world) : world :=
  {| files := <[path := data]> (files w); denied := denied w; torn := torn w;
     now := now w; calls := calls w |}.

(** A method is a function of the world it starts in. *)
Definition M (A : Type) : Type := world -> outcome A.

#[global] Instance M_ret : MRet M := fun A a w => Returns a w.

(** Sequencing of statements: a throw skips what follows. *)
#[global] Instance M_bind : MBind M := fun A B f m w =>
  match m w with
  | Returns a w' => f a w'
  | Throws e w' => Throws e w'
  end.

Definition throw {A} (e : fs_error) : M A := fun w => Throws e w.

(** [try { body } catch (error) { handler(error) }] *)
Definition try_catch {A} (body : M A) (handler : fs_error -> M A) : M A :=
  fun w =>
    match body w with
    | Returns a w' => Returns a w'
    | Throws e w' => handler e w'
    end.

Definition record (c : call) : M unit := fun w => Returns tt (record_call c w).

Definition Date_now : M N := fun w => Returns (now w) w.

(** [fs.copyFileSync]: throws when the source does not exist or the
    destination cannot be opened for writing. *)
Definition copyFileSync (src dest : string) : M unit := fun w =>
  let w := record_call (copyFileSync_call src dest) w in
  match files w !! src with
  | None => Throws (ENOENT src) w
  | Some data =>
      if bool_decide (dest ∈ denied w) then Throws (EACCES dest) w
      else Returns tt (store dest data w)
  end.

(** [fs.writeFileSync]: throws when the path cannot be written, either
    at opening the file, which is then as it was, or after opening it
    (the disk is full), when the file holds what the failed write left:
    nothing, or a part of the data. *)
Definition writeFileSync (path data : string) : M unit := fun w =>
  let w := record_call (writeFileSync_call path data) w in
  if bool_decide (path ∈ denied w) then
    match torn w !! path with
    | None => Throws (EACCES path) w
    | Some remains => Throws (ENOSPC path) (store path remains w)
    end
  else Returns tt (store path data w).

(** The decimal digits of a number, as a template literal prints it. *)
Definition decimal (n : N) : string :=
  NilEmpty.string_of_uint (N.to_uint n).

Section SaveProfile.

(** [this.profilePath], and [JSON.stringify(profile, null, 2)]. *)
Variable profilePath : string.
Variable stringify : ProfileData -> string.

Definition backupPathAt (timestamp : N) : string :=
  profilePath ++ ".backup." ++ decimal timestamp.

Definition saveProfile (profile : ProfileData) : M unit :=
  try_catch
    (timestamp ← Date_now;
     let backupPath := backupPathAt timestamp in
     copyFileSync profilePath backupPath ;;
     record (console_log ("Backup created: " ++ backupPath)) ;;
     writeFileSync profilePath (stringify profile) ;;
     record (console_log "Profile updated successfully"))
    (fun error =>
       record (console_error "Error saving profile:" error) ;;
       throw error).

End SaveProfile.

Definition world_of {A} (o : outcome A) : world :=
  match o with Returns _ w => w | Throws _ w => w end.

Definition is_write (c : call) : bool :=
  match c with writeFileSync_call _ _ => true | _ => false end.

Definition is_copy (c : call) : bool :=
  match c with copyFileSync_call _ _ => true | _ => false end.

(** ** The merged record, property by property

    What [mergeProfileData] leaves in each of the five properties it
    writes, as a function of the two arguments. *)

Definition merged_contact (current extracted : ProfileData) : option (list string) :=
  match contact extracted with
  | Some incoming =>
      let existing := default [] (contact current) in
      Some (existing ++
            List.filter (fun c => negb (arr_includes c existing)) incoming)%list
  | None => contact current
  end.

Definition lower_names (ls : list Language.t) : list string :=
  map (fun lang => toLowerCase (Language.name lang)) ls.

Definition merged_languages (current extracted : ProfileData)
  : option (list Language.t) :=
  match languages extracted with
  | Some incoming =>
      let existing := default [] (languages current) in
      Some (existing ++
            List.filter
              (fun lang => negb (arr_includes (toLowerCase (Language.name lang))
                                   (lower_names existing)))
              incoming)%list
  | None => languages current
  end.

Definition merged_map (existing incoming : option (gmap string json))
  : option (gmap string json) :=
  match incoming with
  | Some m => Some (spread existing m)
  | None => existing
  end.

Definition merged_skills (current extracted : ProfileData) : option TechnicalSkills :=
  match technical_skills extracted with
  | Some incoming =>
      Some (spread_skills (default no_skills (technical_skills current)) incoming)
  | None => technical_skills current
  end.


(** ** Sample records and texts *)

Definition empty_profile : ProfileData :=
  {| name := None; contact := None; facts := None; projects := None;
     languages := None; certifications := None; superior_education := None;
     professional_experience := None; academical_research := None;
     memberships := None; technical_skills := None; github_stats := None |}.

(** A stored record with a hand-written certificate. *)
Definition curated_entry : json :=
  JObj [ ("name", JStr "AWS Certified Solutions Architect");
         ("issuer", JStr "Amazon Web Services");
         ("year", JNum 2023) ].

Definition curated_profile : ProfileData :=
  set_certifications {[ "aws_certified" := curated_entry ]} empty_profile.

(** A fragment with another entry under the same key. *)
Definition conflicting_fragment : ProfileData :=
  set_certifications {[ "aws_certified" := certEntry "AWS Certified" ]}
    empty_profile.

(** A stored record and a fragment that both have the education entry the
    extractor produces, with different content. *)
Definition curated_education : json :=
  JObj [ ("degree", JStr "Bachelor of Engineering");
         ("gpa", JStr "9.1") ].

Definition curated_education_profile : ProfileData :=
  set_superior_education {[ "computer_engineering_upe" := curated_education ]}
    empty_profile.

Definition education_fragment : ProfileData :=
  set_superior_education
    {[ "computer_engineering_upe" := computer_engineering_upe ]} empty_profile.

(** A world in which the stored record does not exist yet, and one in
    which it does. *)
Definition fresh_world : world :=
  {| files := ∅; denied := ∅; torn := ∅; now := 1700000000000%N;
     calls := [] |}.

Definition stored_world : world :=
  {| files := {[ "data/profile.json" := "{}" ]}; denied := ∅; torn := ∅;
     now := 1700000000000%N; calls := [] |}.

(** A serializer that suffices to run [saveProfile] on samples. *)
Definition sample_stringify (profile : ProfileData) : string :=
  match name profile with Some n => n | None => "{}" end.

(** ** The key of a certificate, code unit by code unit *)

(** What [/[^a-z0-9]/g -> '_'] does to one code unit. *)
Definition key_unit (c : ascii) : ascii :=
  if is_lower_az c || is_digit c then c else "_"%char.

Fixpoint string_filter (p : ascii -> bool) (s : string) : string :=
  match s with
  | EmptyString => EmptyString
  | String c s' => if p c then String c (string_filter p s') else string_filter p s'
  end.

(** ** Contact list: the reading of the specification *)

(** "Deduplicated by exact string equality keeping first occurrence":
    walk the list and keep an element when it has not been met before. *)
Fixpoint keep_first_occurrences (before arr : list string) : list string :=
  match arr with
  | [] => []
  | x :: arr' =>
      if arr_includes x before
      then keep_first_occurrences (before ++ [x]) arr'
      else x :: keep_first_occurrences (before ++ [x]) arr'
  end.

(** A four-digit string that reads as a year from 1900 to 2099. *)
Definition year_token (c : string) : Prop :=
  exists d3 d4 : ascii,
    is_digit d3 = true /\ is_digit d4 = true /\
    (c = String "1" (String "9" (String d3 (String d4 EmptyString))) \/
     c = String "2" (String "0" (String d3 (String d4 EmptyString)))).

Definition twice_text : string := "a@b.co a@b.co https://x.org https://x.org".

Definition year_text : string := "Born 1999, hired 2024. Call +5581999998888".

(** ** The line scan: which lines reach the look-ahead *)

(** The flag after the exit test of the section. *)
Definition section_after (st : scan_state) (lowerLine originalLine : string) : bool :=
  if inCertSection st && leaves_section lowerLine originalLine
  then false else inCertSection st.

(** The callback reaches the body of its last [if] on [line]: the line
    has three code units or more, is not a section header, matches no
    unwanted pattern and is classified as a candidate. *)
Definition takes_candidate_branch (st : scan_state) (line : string) : bool :=
  let lowerLine := trim (toLowerCase line) in
  let originalLine := trim line in
  negb (Nat.ltb (String.length lowerLine) 3) &&
  negb (includes "certification" lowerLine || includes certificacao lowerLine) &&
  negb (existsb (fun pattern => test pattern originalLine) unwantedPatterns) &&
  is_candidate (section_after st lowerLine originalLine) lowerLine originalLine.

Definition starts_lower (s : string) : Prop :=
  exists c rest, s = String c rest /\ is_lower_az c = true.

Definition nl : string := String LF EmptyString.

(** The line sequences of the specification's examples, as texts. *)
Definition boundary_lines : list string :=
  [ "Certifications"; "AWS Certified Cloud Practitioner"; "Experience";
    "Random Company" ].

Definition boundary_text : string :=
  "Certifications" ++ nl ++ "AWS Certified Cloud Practitioner" ++ nl
  ++ "Experience" ++ nl ++ "Random Company".

Definition continuation_lines : list string :=
  [ "Certifications"; "Microsoft Azure"; "fundamentals" ].

Definition continuation_text : string :=
  "Certifications" ++ nl ++ "Microsoft Azure" ++ nl ++ "fundamentals".

(** A candidate followed by a long line that starts in lower case. *)
Definition long_continuation_lines : list string :=
  [ "Certifications"; "AWS Certified Cloud Practitioner";
    "issued by amazon web services" ].

(** The state of the scan after the header line of these sequences. *)
Definition in_section (lines0 : list string) : scan_state :=
  {| inCertSection := true; lines := lines0; found := ∅ |}.

(** ** Patterns anchored at the start *)

(** The pattern begins with [^]. *)
Fixpoint anchored (r : regex) : bool :=
  match r with
  | Bol => true
  | Seq r1 _ => anchored r1
  | _ => false
  end.

(** The code units a certificate key is made of. *)
Definition is_key_unit (c : ascii) : bool :=
  is_lower_az c || is_digit c || Ascii.eqb c "_".

(** What the extraction keeps true of the certificates it has collected:
    every entry was built from a name of more than three code units, is
    stored under the key of that name, and no key names a property of
    [Object.prototype]. *)
Definition well_keyed (certs : gmap string json) : Prop :=
  forall key entry, certs !! key = Some entry ->
    exists certName,
      entry = certEntry certName /\ key = certKey certName /\
      3 < String.length certName /\ inherited key = false.

(** No line names the certification section. *)
Definition no_header (lines0 : list string) : Prop :=
  forall line, In line lines0 ->
    includes "certification" (trim (toLowerCase line))
    || includes certificacao (trim (toLowerCase line)) = false.

Definition scan_start (lines0 : list string) : scan_state :=
  {| inCertSection := false; lines := lines0; found := ∅ |}.

(** The lines of a state are those of [lines0], some of them blanked. *)
Definition only_blanked (lines0 : list string) (st : scan_state) : Prop :=
  List.length (lines st) = List.length lines0 /\
  lines st !! 0 = lines0 !! 0 /\
  forall j line, lines st !! j = Some line -> line = "" \/ lines0 !! j = Some line.

(** The keywords that occur in a text, in the order of the list. *)
Definition occurring (keywords : list string) (textLower : string) : list string :=
  List.filter (fun keyword => includes keyword textLower) keywords.

Definition javascript_text : string := "Senior JavaScript developer".

(** A stored record with a contact, two languages and a list of tools. *)
Definition alice_profile : ProfileData :=
  set_technical_skills
    {| operating_systems := Some ["Linux"];
       programming_languages := Some ["Python"];
       areas_of_expertise := None;
       tools_and_technologies := Some ["Vim"] |}
    (set_languages
       [ Language.mk "java" "advanced" None;
         Language.mk "Portuguese" "native" None ]
       (set_contact ["https://github.com/alice"] empty_profile)).

Definition alice_text : string :=
  "Alice, alice@example.com, https://github.com/alice. JavaScript and Docker.".

(** A world in which the stored record exists and cannot be opened for
    writing. *)
Definition readonly_world : world :=
  {| files := {[ "data/profile.json" := "{}" ]};
     denied := {[ "data/profile.json" ]}; torn := ∅;
     now := 1700000000000%N; calls := [] |}.

(** A world in which the disk fills up while the stored record is being
    written: the failed write leaves the first unit of the data. *)
Definition full_disk_world : world :=
  {| files := {[ "data/profile.json" := "{ }" ]};
     denied := {[ "data/profile.json" ]};
     torn := {[ "data/profile.json" := "{" ]};
     now := 1700000000000%N; calls := [] |}.

Definition provider_lines : list string :=
  [ "Skills"; "AWS Cloud Practitioner"; "basics" ].

(** ** extractTextFromPDF, loadCurrentProfile, extractAndMerge

    The methods around [parseExtractedText] and [mergeProfileData].  They
    throw more than the errors of [fs]; what they print with
    [console.error] is kept beside the world of the file operations. *)

Inductive error : Type :=
| FsError (e : fs_error)            (* thrown by a function of fs *)
| Error (message : string)          (* new Error(message) *)
| PdfError (reason : string)        (* what pdf(dataBuffer) rejects with *)
| SyntaxError (reason : string).    (* what JSON.parse throws *)

Record session := {
  disk : world;
  error_lines : list (string * error)   (* console.error(label, error) *)
}.

Inductive result (A : Type) : Type :=
| Done (a : A) (s : session)
| Failed (e : error) (s : session).
Arguments Done {A} a s.
Arguments Failed {A} e s.

Definition P (A : Type) : Type := session -> result A.

#[global] Instance P_ret : MRet P := fun A a s => Done a s.

#[global] Instance P_bind : MBind P := fun A B f m s =>
  match m s with
  | Done a s' => f a s'
  | Failed e s' => Failed e s'
  end.

Definition raise {A} (e : error) : P A := fun s => Failed e s.

(** [try { body } catch (error) { handler(error) }] *)
Definition attempt {A} (body : P A) (handler : error -> P A) : P A :=
  fun s =>
    match body s with
    | Done a s' => Done a s'
    | Failed e s' => handler e s'
    end.

(** A method of the file-system world, run inside a session. *)
Definition lift {A} (m : M A) : P A := fun s =>
  match m (disk s) with
  | Returns a w => Done a {| disk := w; error_lines := error_lines s |}
  | Throws e w => Failed (FsError e) {| disk := w; error_lines := error_lines s |}
  end.

Definition console_log_line (message : string) : P unit :=
  lift (record (console_log message)).

Definition console_error_line (label : string) (e : error) : P unit := fun s =>
  Done tt {| disk := disk s; error_lines := error_lines s ++ [(label, e)] |}.

(** [fs.readFileSync(path)]: the content, or ENOENT. *)
Definition readFileSync (path : string) : P string := fun s =>
  match files (disk s) !! path with
  | Some data => Done data s
  | None => Failed (FsError (ENOENT path)) s
  end.

(** [fs.existsSync(path)] *)
Definition existsSync (path : string) : P bool := fun s =>
  Done (bool_decide (is_Some (files (disk s) !! path))) s.

Definition result_session {A} (r : result A) : session :=
  match r with Done _ s => s | Failed _ s => s end.

Section Extractor.

(** The two paths of the constructor; [pdf] of pdf-parse, which gives the
    text or rejects; [JSON.parse], which gives the record or throws;
    [JSON.stringify(profile, null, 2)]; and the way [console.log] prints
    an object. *)
Variable profilePath pdfPath : string.
Variable pdf : string -> string + string.
Variable JSON_parse : string -> ProfileData + string.
Variable stringify : ProfileData -> string.
Variable inspect : ProfileData -> string.

Definition extractTextFromPDF : P string :=
  attempt
    (dataBuffer ← readFileSync pdfPath;
     match pdf dataBuffer with
     | inl text => mret text
     | inr reason => raise (PdfError reason)
     end)
    (fun error =>
       console_error_line "Error reading PDF:" error ;;
       raise error).

Definition loadCurrentProfile : P ProfileData :=
  attempt
    (profileContent ← readFileSync profilePath;
     match JSON_parse profileContent with
     | inl profile => mret profile
     | inr reason => raise (SyntaxError reason)
     end)
    (fun error =>
       console_error_line "Error loading current profile:" error ;;
       mret empty_profile).

Definition require_pdf : P unit :=
  pdfExists ← existsSync pdfPath;
  if negb pdfExists then raise (Error ("PDF file not found: " ++ pdfPath))
  else mret tt.

Definition extractAndMerge : P unit :=
  attempt
    (console_log_line "Starting PDF data extraction..." ;;
     require_pdf ;;
     console_log_line "Extracting text from PDF..." ;;
     extractedText ← extractTextFromPDF;
     console_log_line "PDF text extracted successfully" ;;
     console_log_line "Parsing extracted data..." ;;
     let extractedData := parseExtractedText extractedText in
     console_log_line ("Extracted data: " ++ inspect extractedData) ;;
     console_log_line "Loading current profile..." ;;
     currentProfile ← loadCurrentProfile;
     console_log_line "Merging profile data..." ;;
     let mergedProfile := mergeProfileData currentProfile extractedData in
     console_log_line "Saving updated profile..." ;;
     lift (saveProfile profilePath stringify mergedProfile) ;;
     console_log_line "PDF data extraction and merge completed successfully!")
    (fun error =>
       console_error_line "Error during extraction and merge:" error ;;
       raise error).

Definition previewExtraction : P unit :=
  attempt
    (console_log_line "Previewing PDF data extraction..." ;;
     require_pdf ;;
     extractedText ← extractTextFromPDF;
     console_log_line "=== EXTRACTED TEXT ===" ;;
     console_log_line extractedText ;;
     console_log_line (String LF "=== PARSED DATA ===") ;;
     let extractedData := parseExtractedText extractedText in
     console_log_line (stringify extractedData))
    (fun error =>
       console_error_line "Error during preview:" error ;;
       raise error).

(** The record the pipeline merges into: what the stored file parses to,
    or the empty record when it cannot be read or parsed. *)
Definition loaded (stored : option string) : ProfileData :=
  match stored with
  | Some content =>
      match JSON_parse content with
      | inl profile => profile
      | inr _ => empty_profile
      end
  | None => empty_profile
  end.

End Extractor.

(** The session after a line of [console.log]. *)
Definition logged (message : string) (s : session) : session :=
  {| disk := record_call (console_log message) (disk s);
     error_lines := error_lines s |}.

(** A session of a first run: the PDF is there, the stored record is not. *)
Definition first_run : session :=
  {| disk := {| files := {[ "data/profile.pdf" := "%PDF" ]}; denied := ∅;
                torn := ∅; now := 1700000000000%N; calls := [] |};
     error_lines := [] |}.

(** A session with a stored record and a PDF. *)
Definition later_run : session :=
  {| disk := {| files := {[ "data/profile.pdf" := "%PDF";
                            "data/profile.json" := "{}" ]};
                denied := ∅; torn := ∅; now := 1700000000000%N;
                calls := [] |};
     error_lines := [] |}.

(** A session without the PDF. *)
Definition no_pdf_run : session :=
  {| disk := stored_world; error_lines := [] |}.

Definition sample_pdf (dataBuffer : string) : string + string :=
  inl "Maria, maria@example.com, Python".

(** A parser that accepts nothing but the empty object. *)
Definition sample_parse (content : string) : ProfileData + string :=
  if String.eqb content "{}" then inl empty_profile
  else inr "Unexpected token".

(** ** GitHubDataCollector: getMostUsedLanguages

    [languageStats] is an object from language names to byte counts; its
    entries, in the order [Object.entries] lists them, are a list of
    pairs.  [Array.prototype.sort] is stable: entries that compare equal
    keep their order. *)

Definition LanguageStats : Type := list (string * N).

(** Where [x] goes in a list sorted by decreasing count: before the first
    entry that does not have more bytes. *)
Fixpoint insert_by_bytes (x : string * N) (sorted : list (string * N))
  : list (string * N) :=
  match sorted with
  | [] => [x]
  | y :: rest =>
      if N.leb (snd y) (snd x) then x :: sorted
      else y :: insert_by_bytes x rest
  end.

(** [entries.sort(([, a], [, b]) => b - a)] *)
Definition sort_by_bytes (entries : list (string * N)) : list (string * N) :=
  fold_right insert_by_bytes [] entries.

Definition getMostUsedLanguages (languageStats : LanguageStats) (limit : nat)
  : list string :=
  map fst (firstn limit (sort_by_bytes languageStats)).

(** ** GitHubDataCollector: enhanceProfileWithGitHubData *)

(** The properties of [GitHubUser] that the method reads. *)
Record GitHubUser := {
  user_name : option string;     (* name: string | null *)
  blog : option string;          (* blog: string | null *)
  public_repos : N;
  followers : N;
  following : N;
  created_at : string
}.

(** An element of [notableRepos]. *)
Record NotableRepo := {
  repo_name : string;
  description : string;
  language : string;
  stars : N;
  forks : N;
  url : string;
  topics : list string
}.

Record RepoAnalysis := {
  languageStats : LanguageStats;
  notableRepos : list NotableRepo;
  total_stars : N;               (* totalStats.stars *)
  total_forks : N                (* totalStats.forks *)
}.

(** The TypeError of reading a property of [undefined]; [expression] is
    what was undefined. *)
Inductive type_error : Type :=
| ReadOfUndefined (expression : string).

(** The truth value of a JSON value. *)
Definition truthy (v : json) : bool :=
  match v with
  | JNull => false
  | JBool b => b
  | JNum n => negb (Z.eqb n 0)
  | JStr s => negb (String.eqb s "")
  | JArr _ | JObj _ => true
  end.

(** The truth value of a string or null. *)
Definition nonempty_string (s : option string) : bool :=
  match s with
  | Some s => negb (String.eqb s "")
  | None => false
  end.

(** [if (!arr.includes(x)) arr.push(x)] *)
Definition push_new (arr : list string) (x : string) : list string :=
  if arr_includes x arr then arr else arr ++ [x].

Definition number (n : N) : json := JNum (Z.of_N n).

Definition strings (l : list string) : json := JArr (map JStr l).

Definition notable_json (repo : NotableRepo) : json :=
  JObj [ ("name", JStr (repo_name repo));
         ("description", JStr (description repo));
         ("language", JStr (language repo));
         ("stars", number (stars repo));
         ("forks", number (forks repo));
         ("url", JStr (url repo));
         ("topics", strings (topics repo)) ].

Definition project_entry (repo : NotableRepo) : json :=
  JObj [ ("type", JStr "open_source_project");
         ("platform", JStr "GitHub");
         ("language", JStr (language repo));
         ("url", JStr (url repo));
         ("description", JStr (description repo));
         ("stars", number (stars repo));
         ("forks", number (forks repo));
         ("topics", strings (topics repo));
         ("status", JStr "published") ].

(** The truth value of [projects[key]]: of the own property when there
    is one, of the inherited one otherwise. *)
Definition has_project (projects : gmap string json) (key : string) : bool :=
  match projects !! key with
  | Some v => truthy v
  | None => inherited key
  end.

(** [repo.stars > 0 || repo.forks > 0 || repo.topics.length > 0] *)
Definition worth_a_project (repo : NotableRepo) : bool :=
  N.ltb 0 (stars repo) || N.ltb 0 (forks repo)
  || Nat.ltb 0 (List.length (topics repo)).

(** The body of the loop over [notableRepos.slice(0, 5)], for a repository
    that passes the test. *)
Definition add_project (projects : gmap string json) (repo : NotableRepo)
  : gmap string json :=
  let projectKey := certKey (repo_name repo) in
  if has_project projects projectKey then projects
  else <[projectKey := project_entry repo]> projects.

Definition o_acute : ascii := "243".
Definition u_acute : ascii := "250".

Definition newFacts (userData : GitHubUser) (repoAnalysis : RepoAnalysis)
  : list string :=
  (if N.ltb 0 (total_stars repoAnalysis)
   then [decimal (total_stars repoAnalysis)
         ++ " stars em reposit" ++ String o_acute "rios GitHub"]
   else []) ++
  (if N.ltb 10 (followers userData)
   then [decimal (followers userData) ++ " seguidores no GitHub"]
   else []) ++
  (if N.ltb 5 (public_repos userData)
   then [decimal (public_repos userData)
         ++ " reposit" ++ String o_acute "rios p" ++ String u_acute "blicos no GitHub"]
   else []).

Definition github_stats_of (userData : GitHubUser) (repoAnalysis : RepoAnalysis)
  : gmap string json :=
  {[ "total_repos" := number (public_repos userData);
     "total_stars" := number (total_stars repoAnalysis);
     "total_forks" := number (total_forks repoAnalysis);
     "followers" := number (followers userData);
     "following" := number (following userData);
     "account_created" := JStr (created_at userData);
     "most_used_languages" :=
       strings (getMostUsedLanguages (languageStats repoAnalysis) 10);
     "notable_repos" :=
       JArr (map notable_json (firstn 10 (notableRepos repoAnalysis))) ]}.

(** What [technical_skills] is set to when the record has none. *)
Definition fresh_skills : TechnicalSkills :=
  {| operating_systems := Some []; programming_languages := Some [];
     areas_of_expertise := Some []; tools_and_technologies := None |}.

(** A loop whose body reads a property of [target]: with nothing to loop
    over [target] is not touched; otherwise it must be defined, and the
    body updates it once for each item. *)
Definition each_into {A B} (expression : string) (target : option A)
    (items : list B) (body : A -> B -> A) : type_error + option A :=
  match items, target with
  | [], _ => inr target
  | _ :: _, None => inl (ReadOfUndefined expression)
  | _ :: _, Some a => inr (Some (fold_left body items a))
  end.

Section Collector.

(** [this.username] *)
Variable username : string.

Definition githubUrl : string := "https://github.com/" ++ username.

Definition enhanceProfileWithGitHubData (profile : ProfileData)
    (userData : GitHubUser) (repoAnalysis : RepoAnalysis)
  : type_error + ProfileData :=
  let name' :=
    if negb (nonempty_string (name profile)) && nonempty_string (user_name userData)
    then user_name userData else name profile in
  match contact profile with
  | None => inl (ReadOfUndefined "profile.contact")
  | Some contact0 =>
      let contact1 := push_new contact0 githubUrl in
      let contact2 :=
        match blog userData with
        | Some b => if nonempty_string (Some b) then push_new contact1 b else contact1
        | None => contact1
        end in
      let skills0 := default fresh_skills (technical_skills profile) in
      let topLanguages := getMostUsedLanguages (languageStats repoAnalysis) 5 in
      match each_into "profile.technical_skills.programming_languages"
              (programming_languages skills0) topLanguages push_new with
      | inl e => inl e
      | inr languages' =>
          let skills' :=
            {| operating_systems := operating_systems skills0;
               programming_languages := languages';
               areas_of_expertise := areas_of_expertise skills0;
               tools_and_technologies := tools_and_technologies skills0 |} in
          match each_into "profile.projects" (projects profile)
                  (List.filter worth_a_project (firstn 5 (notableRepos repoAnalysis)))
                  add_project with
          | inl e => inl e
          | inr projects' =>
              match each_into "profile.facts" (facts profile)
                      (newFacts userData repoAnalysis) push_new with
              | inl e => inl e
              | inr facts' =>
                  inr {| name := name';
                         contact := Some contact2;
                         facts := facts';
                         projects := projects';
                         languages := languages profile;
                         certifications := certifications profile;
                         superior_education := superior_education profile;
                         professional_experience := professional_experience profile;
                         academical_research := academical_research profile;
                         memberships := memberships profile;
                         technical_skills := Some skills';
                         github_stats := Some (github_stats_of userData repoAnalysis) |}
              end
          end
      end
  end.

End Collector.

(** Samples for the collector. *)
Definition sample_stats : LanguageStats :=
  [ ("Shell", 120%N); ("TypeScript", 5400%N); ("Python", 5400%N);
    ("Rust", 900%N) ].

Definition sample_user : GitHubUser :=
  {| user_name := Some "Alice"; blog := Some "https://alice.dev";
     public_repos := 12; followers := 40; following := 3;
     created_at := "2019-05-01T00:00:00Z" |}.

Definition sample_repo : NotableRepo :=
  {| repo_name := "dot-files"; description := "My dotfiles";
     language := "Shell"; stars := 3; forks := 0;
     url := "https://github.com/alice/dot-files"; topics := [] |}.

Definition sample_analysis : RepoAnalysis :=
  {| languageStats := sample_stats; notableRepos := [sample_repo];
     total_stars := 3; total_forks := 0 |}.

(** What [loadExistingProfile] returns when there is no stored record. *)
Definition default_profile : ProfileData :=
  {| name := None; contact := Some []; facts := Some [];
     projects := Some ∅; languages := Some []; certifications := Some ∅;
     superior_education := Some ∅; professional_experience := Some ∅;
     academical_research := Some ∅; memberships := None;
     technical_skills := None; github_stats := None |}.

(** A stored record that already has a project under the key of
    [sample_repo]. *)
Definition stored_profile : ProfileData :=
  {| name := Some "Alice A."; contact := Some ["alice@example.com"];
     facts := Some ["Speaks at meetups"];
     projects := Some {[ "dot_files" := JStr "my dotfiles" ]};
     languages := Some [ Language.mk "Portuguese" "native" None ];
     certifications := Some ∅; superior_education := None;
     professional_experience := None; academical_research := None;
     memberships := None;
     technical_skills :=
       Some {| operating_systems := Some ["Linux"];
               programming_languages := Some ["Python"];
               areas_of_expertise := None;
               tools_and_technologies := Some ["Vim"] |};
     github_stats := None |}.

(** The order of decreasing byte counts. *)
Definition more_bytes (a b : string * N) : Prop := (snd b <= snd a)%N.

(** * Properties *)

(** ** Arrays *)

Lemma arr_includes_In (x : string) (arr : list string) :
  arr_includes x arr = true <-> In x arr.
Proof.
  unfold arr_includes. rewrite existsb_exists. split.
  - intros (y & Hy & Heq). apply String.eqb_eq in Heq. by subst.
  - intros Hin. exists x. split; [done | apply String.eqb_refl].
Qed.

Lemma arr_includes_app (x : string) (l1 l2 : list string) :
  arr_includes x (l1 ++ l2) = arr_includes x l1 || arr_includes x l2.
Proof. unfold arr_includes. apply existsb_app. Qed.

Lemma filter_none {A} (f : A -> bool) (l : list A) :
  (forall x, In x l -> f x = false) -> List.filter f l = [].
Proof.
  induction l as [| x l IH]; intros Hall; [done |].
  simpl. rewrite (Hall x) by (by left).
  apply IH. intros y Hy. apply Hall. by right.
Qed.

(** Elements whose key the existing list already has, or that a first
    merge appended, are not appended again. *)
Lemma filter_new_absorbed {A} (key : A -> string) (existing : list string)
    (incoming : list A) :
  let fresh := List.filter (fun x => negb (arr_includes (key x) existing)) incoming in
  List.filter (fun x => negb (arr_includes (key x) (existing ++ map key fresh)))
    incoming = [].
Proof.
  intros fresh. apply filter_none. intros x Hx.
  rewrite arr_includes_app.
  destruct (arr_includes (key x) existing) eqn:Hex; [done |].
  simpl. apply negb_false_iff, arr_includes_In, in_map, filter_In.
  by rewrite Hex.
Qed.

(** ** Strings *)

Lemma append_empty (s : string) : "" ++ s = s.
Proof. reflexivity. Qed.

Lemma append_cons (c : ascii) (s1 s2 : string) :
  String c s1 ++ s2 = String c (s1 ++ s2).
Proof. reflexivity. Qed.

(** [String.append] is not unfolded by [simpl]; its two equations are. *)
Ltac simpl_append := rewrite ?append_cons, ?append_empty in *.

Lemma append_nil_r (s : string) : s ++ "" = s.
Proof. induction s as [| c s IH]; simpl_append; congruence. Qed.

Lemma append_assoc (s1 s2 s3 : string) : (s1 ++ s2) ++ s3 = s1 ++ (s2 ++ s3).
Proof. induction s1 as [| c s1 IH]; simpl_append; congruence. Qed.

Lemma length_append (s1 s2 : string) :
  String.length (s1 ++ s2) = String.length s1 + String.length s2.
Proof. induction s1 as [| c s1 IH]; simpl_append; simpl; congruence. Qed.

Lemma string_take_append (m s : string) :
  string_take (String.length m) (m ++ s) = m.
Proof.
  induction m as [| c m IH]; simpl_append; simpl; [done | by rewrite IH].
Qed.

Lemma string_map_length (f : ascii -> ascii) (s : string) :
  String.length (string_map f s) = String.length s.
Proof. induction s as [| c s IH]; simpl; congruence. Qed.

Lemma string_forallb_append (p : ascii -> bool) (s1 s2 : string) :
  string_forallb p (s1 ++ s2) = string_forallb p s1 && string_forallb p s2.
Proof.
  induction s1 as [| c s1 IH]; simpl_append; simpl; [done |].
  rewrite IH. by rewrite andb_assoc.
Qed.

(** ** The fuel of a quantifier is enough

    The loop of a quantifier never fails for want of fuel: with more than
    [min + length s] turns its result does not depend on how many. *)

Section Fuel.

Variable step : nat -> string -> Cont -> option nat.
Variable greedy : bool.
Hypothesis step_suffixes : calls_on_suffixes step.

Lemma rep_loop_ext (k1 k2 : Cont) :
  forall fuel min max i s,
    (forall i' s', String.length s' <= String.length s -> k1 i' s' = k2 i' s') ->
    rep_loop step greedy k1 fuel min max i s =
    rep_loop step greedy k2 fuel min max i s.
Proof.
  induction fuel as [| fuel IH]; intros min max i s Hk; [done |].
  simpl. rewrite (Hk i s) by lia.
  rewrite (step_suffixes i s _
             (fun i' s' =>
                if Nat.eqb min 0 && Nat.eqb (String.length s') (String.length s)
                then None
                else rep_loop step greedy k2 fuel (Nat.pred min)
                       (Nat.pred <$> max) i' s')); [done |].
  intros i' s' Hlen. destruct (Nat.eqb min 0 && _); [done |].
  apply IH. intros i'' s'' Hlen'. apply Hk. lia.
Qed.

Lemma rep_loop_fuel (k : Cont) :
  forall fuel1 fuel2 min max i s,
    min + String.length s < fuel1 -> min + String.length s < fuel2 ->
    rep_loop step greedy k fuel1 min max i s =
    rep_loop step greedy k fuel2 min max i s.
Proof.
  induction fuel1 as [| fuel1 IH]; intros fuel2 min max i s H1 H2; [lia |].
  destruct fuel2 as [| fuel2]; [lia |]. simpl.
  rewrite (step_suffixes i s _
             (fun i' s' =>
                if Nat.eqb min 0 && Nat.eqb (String.length s') (String.length s)
                then None
                else rep_loop step greedy k fuel2 (Nat.pred min)
                       (Nat.pred <$> max) i' s')); [done |].
  intros i' s' Hlen.
  destruct (Nat.eqb_spec min 0) as [-> | Hmin]; simpl.
  - destruct (Nat.eqb_spec (String.length s') (String.length s)); [done |].
    apply IH; simpl; lia.
  - apply IH; lia.
Qed.

End Fuel.

Lemma mtch_calls_on_suffixes (ic : bool) (r : regex) :
  calls_on_suffixes (mtch ic r).
Proof.
  induction r as [| negated p | r1 IH1 r2 IH2 | r1 IH1 r2 IH2
                  | greedy min max r1 IH1 | | | r1 IH1];
    intros i s k1 k2 Hk; simpl.
  - by apply Hk.
  - destruct s as [| c s']; [done |].
    destruct (xorb _ _); [| done]. apply Hk. simpl. lia.
  - apply IH1. intros i' s' Hlen. apply IH2.
    intros i'' s'' Hlen'. apply Hk. lia.
  - rewrite (IH1 i s k1 k2 Hk). by rewrite (IH2 i s k1 k2 Hk).
  - by apply rep_loop_ext.
  - destruct (Nat.eqb i 0); [by apply Hk | done].
  - destruct s; [by apply Hk | done].
  - rewrite (Hk i s) by lia. done.
Qed.

(** A quantifier with any larger fuel matches as [mtch] does. *)
Lemma mtch_Rep_fuel (ic greedy : bool) (min : nat) (max : option nat)
    (r : regex) (i : nat) (s : string) (k : Cont) (fuel : nat) :
  min + String.length s < fuel ->
  rep_loop (mtch ic r) greedy k fuel min max i s =
  mtch ic (Rep greedy min max r) i s k.
Proof.
  intros Hfuel. simpl.
  apply rep_loop_fuel; [apply mtch_calls_on_suffixes | lia | lia].
Qed.

(** ** The matcher is sound for [lang] *)

Section MatcherSound.

Variable ic : bool.

Lemma rep_loop_sound (L : string -> Prop) step greedy k :
  consumes L step ->
  forall fuel min max i s e,
    rep_loop step greedy k fuel min max i s = Some e ->
    exists ms s',
      s = joined ms ++ s' /\ Forall L ms /\ within min max (List.length ms) /\
      k (i + String.length (joined ms)) s' = Some e.
Proof.
  intros Hstep. induction fuel as [| fuel IH]; intros min max i s e Hrun;
    [discriminate |].
  assert (Hstop : k i s = Some e -> min = 0 \/ max = Some 0 ->
            exists ms s',
              s = joined ms ++ s' /\ Forall L ms /\
              within min max (List.length ms) /\
              k (i + String.length (joined ms)) s' = Some e).
  { intros Hk Hbound. exists [], s. simpl. simpl_append. rewrite Nat.add_0_r.
    repeat split; [constructor | | done].
    unfold within. destruct Hbound as [-> | ->]; [destruct max |]; simpl; lia. }
  assert (Hagain :
            step i s (fun i' s' =>
              if Nat.eqb min 0 && Nat.eqb (String.length s') (String.length s)
              then None
              else rep_loop step greedy k fuel (Nat.pred min) (Nat.pred <$> max)
                     i' s') = Some e ->
            max <> Some 0 ->
            exists ms s',
              s = joined ms ++ s' /\ Forall L ms /\
              within min max (List.length ms) /\
              k (i + String.length (joined ms)) s' = Some e).
  { intros Hs Hmax. apply Hstep in Hs as (m1 & s1 & -> & Hm1 & Hcont).
    destruct (Nat.eqb min 0 && _); [discriminate |].
    apply IH in Hcont as (ms & s' & -> & Hms & Hwithin & Hk).
    exists (m1 :: ms), s'. simpl. rewrite append_assoc, length_append.
    rewrite Nat.add_assoc. repeat split; [by constructor | | done].
    unfold within in *. destruct max as [[| x] |]; simpl in *; [done | lia | lia]. }
  simpl in Hrun. destruct max as [[| x] |].
  - apply Hstop; auto.
  - destruct (Nat.eqb_spec min 0) as [-> | Hmin]; simpl in Hrun.
    + destruct greedy.
      * destruct (step _ _ _) eqn:Hs in Hrun.
        -- inversion Hrun; subst. by apply Hagain.
        -- apply Hstop; auto.
      * destruct (k i s) eqn:Hk.
        -- inversion Hrun; subst. apply Hstop; auto.
        -- by apply Hagain.
    + by apply Hagain.
  - destruct (Nat.eqb_spec min 0) as [-> | Hmin]; simpl in Hrun.
    + destruct greedy.
      * destruct (step _ _ _) eqn:Hs in Hrun.
        -- inversion Hrun; subst. by apply Hagain.
        -- apply Hstop; auto.
      * destruct (k i s) eqn:Hk.
        -- inversion Hrun; subst. apply Hstop; auto.
        -- by apply Hagain.
    + by apply Hagain.
Qed.

Lemma mtch_sound (r : regex) : consumes (lang ic r) (mtch ic r).
Proof.
  induction r as [| negated p | r1 IH1 r2 IH2 | r1 IH1 r2 IH2
                  | greedy min max r1 IH1 | | | r1 IH1];
    intros i s k e Hm; simpl in Hm.
  - exists "", s. simpl. by rewrite Nat.add_0_r.
  - destruct s as [| c s']; [discriminate |].
    destruct (xorb negated (class_mem ic p c)) eqn:Hc; [| discriminate].
    exists (String c ""), s'. simpl. rewrite Nat.add_1_r. eauto.
  - apply IH1 in Hm as (m1 & s1 & -> & Hm1 & Hm).
    apply IH2 in Hm as (m2 & s2 & -> & Hm2 & Hk).
    exists (m1 ++ m2), s2. rewrite append_assoc, length_append, Nat.add_assoc.
    simpl. eauto 10.
  - destruct (mtch ic r1 i s k) eqn:H1.
    + inversion Hm; subst. apply IH1 in H1 as (m & s' & -> & Hl & Hk).
      exists m, s'. simpl. eauto.
    + apply IH2 in Hm as (m & s' & -> & Hl & Hk).
      exists m, s'. simpl. eauto.
  - apply (rep_loop_sound (lang ic r1)) in Hm as (ms & s' & -> & Hms & Hb & Hk);
      [| exact IH1].
    exists (joined ms), s'. simpl. eauto 10.
  - destruct (Nat.eqb i 0); [| discriminate].
    exists "", s. simpl. by rewrite Nat.add_0_r.
  - destruct s; [| discriminate].
    exists "", "". simpl. by rewrite Nat.add_0_r.
  - destruct (mtch ic r1 i s _); [| discriminate].
    exists "", s. simpl. by rewrite Nat.add_0_r.
Qed.

End MatcherSound.

Lemma exec_at_sound (re : RegExp) (i : nat) (s : string) (e : nat) :
  exec_at re i s = Some e ->
  exists m s', s = m ++ s' /\ lang (ignoreCase re) (source re) m /\
               e = i + String.length m.
Proof.
  unfold exec_at. intros H.
  apply mtch_sound in H as (m & s' & -> & Hl & He).
  exists m, s'. by inversion He.
Qed.

(** Every string that [s.match(re)] returns is matched by the pattern. *)
Lemma match_all_from_lang (re : RegExp) (s : string) :
  forall i skip x, In x (match_all_from re i s skip) ->
    lang (ignoreCase re) (source re) x.
Proof.
  induction s as [| c s IH]; intros i skip x Hin; destruct skip as [| n];
    simpl in Hin; try done.
  - destruct (exec_at re i "") as [e |] eqn:He; [| done].
    destruct Hin as [<- | []].
    apply exec_at_sound in He as (m & s' & Hs & Hl & ->).
    destruct m; [| discriminate]. by destruct (i + _ - i).
  - destruct (exec_at re i (String c s)) as [e |] eqn:He.
    + destruct Hin as [<- | Hin]; [| by eapply IH].
      apply exec_at_sound in He as (m & s' & Hs & Hl & ->).
      rewrite Hs. replace (i + String.length m - i) with (String.length m) by lia.
      by rewrite string_take_append.
    + by eapply IH.
  - by eapply IH.
Qed.

Lemma match_all_lang (re : RegExp) (s x : string) :
  In x (match_all re s) -> lang (ignoreCase re) (source re) x.
Proof. apply match_all_from_lang. Qed.

(** ** mergeProfileData *)

(** The merged record, property by property. *)
Lemma mergeProfileData_fields (current extracted : ProfileData) :
  mergeProfileData current extracted =
  {| name := name current;
     contact := merged_contact current extracted;
     facts := facts current;
     projects := projects current;
     languages := merged_languages current extracted;
     certifications :=
       merged_map (certifications current) (certifications extracted);
     superior_education :=
       merged_map (superior_education current) (superior_education extracted);
     professional_experience := professional_experience current;
     academical_research := academical_research current;
     memberships := memberships current;
     technical_skills := merged_skills current extracted;
     github_stats := github_stats current |}.
Proof.
  unfold mergeProfileData, merge_technical_skills, merge_certifications,
    merge_superior_education, merge_languages, merge_contact,
    merged_contact, merged_languages, merged_map, merged_skills, lower_names.
  destruct current, extracted; simpl.
  repeat match goal with
         | |- context [match ?o with Some _ => _ | None => _ end] =>
             is_var o; destruct o; simpl
         end; reflexivity.
Qed.

Lemma spread_lookup (existing : option (gmap string json))
    (incoming : gmap string json) (key : string) :
  spread existing incoming !! key =
  match incoming !! key with
  | Some v => Some v
  | None => default ∅ existing !! key
  end.
Proof.
  unfold spread. destruct (incoming !! key) as [v |] eqn:Hk.
  - by apply lookup_union_Some_l.
  - by rewrite lookup_union_r.
Qed.

Lemma spread_twice (existing : option (gmap string json))
    (incoming : gmap string json) :
  spread (Some (spread existing incoming)) incoming = spread existing incoming.
Proof.
  unfold spread. simpl. rewrite (assoc_L (∪)). by rewrite (idemp_L (∪)).
Qed.

Lemma spread_skills_twice (a b : TechnicalSkills) :
  spread_skills (spread_skills a b) b = spread_skills a b.
Proof. destruct a, b. unfold spread_skills. simpl. by repeat case_match. Qed.

Lemma merged_contact_twice (current extracted : ProfileData) :
  merged_contact (mergeProfileData current extracted) extracted =
  merged_contact current extracted.
Proof.
  rewrite mergeProfileData_fields. unfold merged_contact at 1. simpl.
  unfold merged_contact. destruct (contact extracted) as [incoming |]; [| done].
  simpl. f_equal.
  pose proof (filter_new_absorbed (fun c : string => c)
                (default [] (contact current)) incoming) as Habs.
  simpl in Habs. rewrite map_id in Habs. rewrite Habs. by rewrite app_nil_r.
Qed.

Lemma merged_languages_twice (current extracted : ProfileData) :
  merged_languages (mergeProfileData current extracted) extracted =
  merged_languages current extracted.
Proof.
  rewrite mergeProfileData_fields. unfold merged_languages at 1. simpl.
  unfold merged_languages. destruct (languages extracted) as [incoming |]; [| done].
  simpl. f_equal. unfold lower_names. rewrite map_app.
  pose proof (filter_new_absorbed
                (fun lang => toLowerCase (Language.name lang))
                (lower_names (default [] (languages current))) incoming) as Habs.
  simpl in Habs. unfold lower_names in Habs. rewrite Habs. by rewrite app_nil_r.
Qed.

Lemma merged_map_twice (existing incoming : option (gmap string json)) :
  merged_map (merged_map existing incoming) incoming = merged_map existing incoming.
Proof.
  destruct incoming as [m |]; simpl; [| done]. by rewrite spread_twice.
Qed.

Lemma merged_skills_twice (current extracted : ProfileData) :
  merged_skills (mergeProfileData current extracted) extracted =
  merged_skills current extracted.
Proof.
  rewrite mergeProfileData_fields. unfold merged_skills at 1. simpl.
  unfold merged_skills. destruct (technical_skills extracted) as [incoming |]; [| done].
  simpl. by rewrite spread_skills_twice.
Qed.

(** C2: merging a fragment a second time changes nothing: for every
    record R and fragment F, merge (merge R F) F = merge R F, the whole
    record (contact, languages, superior_education, certifications and
    technical_skills included). *)
Theorem mergeProfileData_idempotent (current extracted : ProfileData) :
  mergeProfileData (mergeProfileData current extracted) extracted =
  mergeProfileData current extracted.
Proof.
  rewrite (mergeProfileData_fields (mergeProfileData current extracted)).
  rewrite merged_contact_twice, merged_languages_twice, merged_skills_twice.
  rewrite (mergeProfileData_fields current extracted) at 1 2 3 4 5 6 7 8 9. simpl.
  rewrite !merged_map_twice.
  by rewrite <- mergeProfileData_fields.
Qed.

(** C9: the merge leaves name, facts, projects, professional_experience,
    academical_research, memberships and github_stats as they are in the
    current record, whatever the fragment carries. *)
Theorem mergeProfileData_frame (current extracted : ProfileData) :
  let merged := mergeProfileData current extracted in
  name merged = name current /\
  facts merged = facts current /\
  projects merged = projects current /\
  professional_experience merged = professional_experience current /\
  academical_research merged = academical_research current /\
  memberships merged = memberships current /\
  github_stats merged = github_stats current.
Proof. simpl. rewrite mergeProfileData_fields. simpl. by repeat split. Qed.

(** The end-to-end example of the merge of contact lists. *)
Example mergeProfileData_contact_example :
  contact
    (mergeProfileData
       (set_contact ["https://github.com/alice"] empty_profile)
       (set_contact ["https://github.com/alice"; "alice@example.com"]
          empty_profile))
  = Some ["https://github.com/alice"; "alice@example.com"].
Proof. reflexivity. Qed.

(** The entry a map property holds under a key, [None] when the property
    or the key is missing. *)
Lemma merged_map_lookup (existing incoming : option (gmap string json))
    (m : gmap string json) (key : string) :
  incoming = Some m ->
  merged_map existing incoming ≫= (.!! key) =
  match m !! key with
  | Some v => Some v
  | None => existing ≫= (.!! key)
  end.
Proof.
  intros ->. simpl. rewrite spread_lookup.
  destruct (m !! key); [done |]. by destruct existing.
Qed.

(** C1 as stated fails: the stored record has a curated entry under
    [aws_certified], the fragment another entry under the same key, and
    the merged record holds the fragment's entry, not the curated one. *)
Lemma mergeProfileData_overwrites_existing_key :
  certifications curated_profile ≫= (.!! "aws_certified") = Some curated_entry /\
  certifications conflicting_fragment ≫= (.!! "aws_certified")
    = Some (certEntry "AWS Certified") /\
  certifications (mergeProfileData curated_profile conflicting_fragment)
    ≫= (.!! "aws_certified") = Some (certEntry "AWS Certified") /\
  certEntry "AWS Certified" <> curated_entry.
Proof.
  split; [by vm_compute |]. split; [by vm_compute |].
  split; [by vm_compute | discriminate].
Qed.

(** C1, amended: when the fragment has a certifications (or
    superior_education) map, the merged map holds, under every key of the
    fragment's map, the fragment's entry, whole (the existing entry under
    that key is replaced, not merged property by property), and under
    every other key the entry of the current record. *)
Theorem mergeProfileData_incoming_key_wins (current extracted : ProfileData)
    (incoming : gmap string json) (key : string) :
  (certifications extracted = Some incoming ->
   certifications (mergeProfileData current extracted) ≫= (.!! key) =
   match incoming !! key with
   | Some entry => Some entry
   | None => certifications current ≫= (.!! key)
   end) /\
  (superior_education extracted = Some incoming ->
   superior_education (mergeProfileData current extracted) ≫= (.!! key) =
   match incoming !! key with
   | Some entry => Some entry
   | None => superior_education current ≫= (.!! key)
   end).
Proof.
  rewrite mergeProfileData_fields. simpl.
  split; intros Hinc; by apply merged_map_lookup.
Qed.

Lemma mergeProfileData_incoming_key_wins_witness :
  (certifications conflicting_fragment
     = Some {[ "aws_certified" := certEntry "AWS Certified" ]} /\
   certifications (mergeProfileData curated_profile conflicting_fragment)
     ≫= (.!! "aws_certified") = Some (certEntry "AWS Certified")) /\
  (superior_education education_fragment
     = Some {[ "computer_engineering_upe" := computer_engineering_upe ]} /\
   superior_education (mergeProfileData curated_education_profile education_fragment)
     ≫= (.!! "computer_engineering_upe") = Some computer_engineering_upe).
Proof.
  split; (split; [reflexivity |]).
  - exact (proj1 (mergeProfileData_incoming_key_wins curated_profile
                    conflicting_fragment
                    {[ "aws_certified" := certEntry "AWS Certified" ]}
                    "aws_certified") eq_refl).
  - exact (proj2 (mergeProfileData_incoming_key_wins curated_education_profile
                    education_fragment
                    {[ "computer_engineering_upe" := computer_engineering_upe ]}
                    "computer_engineering_upe") eq_refl).
Defined.

(** ** saveProfile *)

Lemma copyFileSync_throws_keeps_files (src dest : string) (w w' : world)
    (e : fs_error) :
  copyFileSync src dest w = Throws e w' ->
  w' = record_call (copyFileSync_call src dest) w.
Proof.
  unfold copyFileSync. simpl. intros H.
  destruct (files w !! src); [case_bool_decide |]; congruence.
Qed.

Lemma copyFileSync_calls (src dest : string) (w : world) :
  calls (world_of (copyFileSync src dest w)) =
  (calls w ++ [copyFileSync_call src dest])%list.
Proof.
  unfold copyFileSync. simpl.
  destruct (files w !! src); [case_bool_decide |]; reflexivity.
Qed.

Lemma copyFileSync_returns_calls (src dest : string) (w w1 : world) :
  copyFileSync src dest w = Returns tt w1 ->
  calls w1 = (calls w ++ [copyFileSync_call src dest])%list /\
  denied w1 = denied w.
Proof.
  unfold copyFileSync. simpl. intros H.
  destruct (files w !! src); [case_bool_decide |]; inversion H; by subst.
Qed.

(** C8: [saveProfile] calls [copyFileSync] before anything else; when
    that call returns, the [writeFileSync] of the record is the next file
    operation; when it throws, the method throws the same error, the only
    calls it has made are the copy and the [console.error] of the handler
    (no [writeFileSync]), and the files are as they were. *)
Theorem saveProfile_no_write_after_failed_backup (profilePath : string)
    (stringify : ProfileData -> string) (profile : ProfileData) (w : world) :
  let backupPath := backupPathAt profilePath (now w) in
  let result := saveProfile profilePath stringify profile w in
  (exists later,
     calls (world_of result) =
     (calls w ++ copyFileSync_call profilePath backupPath :: later)%list) /\
  (forall w1,
     copyFileSync profilePath backupPath w = Returns tt w1 ->
     exists later,
       calls (world_of result) =
       (calls w ++ [ copyFileSync_call profilePath backupPath;
                     console_log ("Backup created: " ++ backupPath);
                     writeFileSync_call profilePath (stringify profile) ]
        ++ later)%list) /\
  (forall e w',
     copyFileSync profilePath backupPath w = Throws e w' ->
     result = Throws e (record_call (console_error "Error saving profile:" e) w') /\
     calls (world_of result) =
       (calls w ++ [ copyFileSync_call profilePath backupPath;
                     console_error "Error saving profile:" e ])%list /\
     List.filter is_write (calls (world_of result)) = List.filter is_write (calls w) /\
     files (world_of result) = files w).
Proof.
  intros backupPath result. subst result.
  unfold saveProfile, try_catch, mbind, M_bind, Date_now. fold backupPath.
  split; [| split].
  - pose proof (copyFileSync_calls profilePath backupPath w) as Hc.
    destruct (copyFileSync profilePath backupPath w) as [[] w1 | e w1];
      simpl in Hc.
    + unfold record, writeFileSync, throw. simpl.
      case_bool_decide; [destruct (torn w1 !! profilePath) |]; simpl;
        rewrite Hc, <- ?app_assoc; eauto.
    + unfold record, throw. simpl. rewrite Hc, <- app_assoc. eauto.
  - intros w1 Hret. rewrite Hret.
    apply copyFileSync_returns_calls in Hret as [Hc Hd].
    unfold record, writeFileSync, throw. simpl.
    case_bool_decide; [destruct (torn w1 !! profilePath) |]; simpl;
      rewrite Hc, <- ?app_assoc; simpl; eauto.
  - intros e w' Hthrow. rewrite Hthrow.
    apply copyFileSync_throws_keeps_files in Hthrow. subst w'.
    unfold record, throw. simpl. rewrite <- app_assoc. simpl.
    repeat split; try reflexivity.
    rewrite List.filter_app. simpl. by rewrite app_nil_r.
Qed.

Lemma saveProfile_no_write_after_failed_backup_witness :
  (copyFileSync "data/profile.json"
     (backupPathAt "data/profile.json" (now fresh_world)) fresh_world
   = Throws (ENOENT "data/profile.json")
       (record_call (copyFileSync_call "data/profile.json"
                       "data/profile.json.backup.1700000000000") fresh_world) /\
   List.filter is_write
     (calls (world_of (saveProfile "data/profile.json" sample_stringify
                         empty_profile fresh_world))) = [] /\
   files (world_of (saveProfile "data/profile.json" sample_stringify
                      empty_profile fresh_world)) = ∅) /\
  (copyFileSync "data/profile.json"
     (backupPathAt "data/profile.json" (now stored_world)) stored_world
   = Returns tt
       (store "data/profile.json.backup.1700000000000" "{}"
          (record_call (copyFileSync_call "data/profile.json"
                          "data/profile.json.backup.1700000000000")
             stored_world)) /\
   exists later,
     calls (world_of (saveProfile "data/profile.json" sample_stringify
                        empty_profile stored_world)) =
     ([] ++ [ copyFileSync_call "data/profile.json"
                "data/profile.json.backup.1700000000000";
              console_log "Backup created: data/profile.json.backup.1700000000000";
              writeFileSync_call "data/profile.json" "{}" ] ++ later)%list).
Proof.
  split.
  - split; [reflexivity |].
    pose proof (proj2 (proj2 (saveProfile_no_write_after_failed_backup
                         "data/profile.json" sample_stringify empty_profile
                         fresh_world))
                  _ _ eq_refl) as (_ & _ & Hw & Hf).
    split; [exact Hw | exact Hf].
  - split; [reflexivity |].
    exact (proj1 (proj2 (saveProfile_no_write_after_failed_backup
                     "data/profile.json" sample_stringify empty_profile
                     stored_world))
             _ eq_refl).
Defined.

(** When the copy succeeds the write follows it: the run of the stored
    world makes the copy, then the write. *)
Example saveProfile_stored_world_calls :
  calls (world_of (saveProfile "data/profile.json" sample_stringify
                     empty_profile stored_world)) =
  [ copyFileSync_call "data/profile.json" "data/profile.json.backup.1700000000000";
    console_log "Backup created: data/profile.json.backup.1700000000000";
    writeFileSync_call "data/profile.json" "{}";
    console_log "Profile updated successfully" ].
Proof. vm_compute. reflexivity. Qed.

(** ** Replacing the code units of a class *)

Lemma exec_at_class (negated : bool) (p : ascii -> bool) (i : nat) (c : ascii)
    (s : string) :
  exec_at (re (Cls negated p)) i (String c s) =
  if xorb negated (p c) then Some (S i) else None.
Proof. reflexivity. Qed.

Lemma replace_all_from_class (negated : bool) (p : ascii -> bool) (rep : string)
    (s : string) :
  forall i,
    replace_all_from (re (Cls negated p)) rep i s 0 =
    string_flat_map (fun c => if xorb negated (p c) then rep else String c "") s.
Proof.
  induction s as [| c s IH]; intros i; [reflexivity |].
  cbn [replace_all_from string_flat_map]. rewrite exec_at_class.
  destruct (xorb negated (p c)).
  - replace (S i - i) with 1 by lia. simpl. by rewrite IH.
  - by rewrite IH.
Qed.

Lemma string_flat_map_unit (f : ascii -> ascii) (s : string) :
  string_flat_map (fun c => String (f c) "") s = string_map f s.
Proof. induction s as [| c s IH]; simpl; simpl_append; congruence. Qed.

Lemma string_flat_map_ext (f g : ascii -> string) (s : string) :
  (forall c, f c = g c) -> string_flat_map f s = string_flat_map g s.
Proof. intros Hfg. induction s as [| c s IH]; simpl; congruence. Qed.

Lemma string_flat_map_filter (p : ascii -> bool) (s : string) :
  string_flat_map (fun c => if p c then String c "" else "") s = string_filter p s.
Proof.
  induction s as [| c s IH]; simpl; [done |].
  rewrite IH. by destruct (p c).
Qed.

(** [num.replace(/\D/g, '')] keeps the digits. *)
Lemma digits_of_filter (num : string) : digits_of num = string_filter is_digit num.
Proof.
  unfold digits_of, replace_all, nonDigit. rewrite replace_all_from_class.
  rewrite <- string_flat_map_filter. apply string_flat_map_ext.
  intros c. by destruct (is_digit c).
Qed.

Lemma certKey_map (certName : string) :
  certKey certName = string_map key_unit (toLowerCase certName).
Proof.
  unfold certKey, replace_all, nonKeyUnit. rewrite replace_all_from_class.
  rewrite <- string_flat_map_unit. apply string_flat_map_ext.
  intros c. unfold key_unit. by destruct (is_lower_az c || is_digit c).
Qed.

Lemma key_unit_stable (c : ascii) :
  key_unit (lower_unit (key_unit (lower_unit c))) = key_unit (lower_unit c).
Proof. by destruct c as [[] [] [] [] [] [] [] []]. Qed.

(** C3 as stated fails: the two names of the claim derive different
    keys, because every code unit outside a-z0-9 becomes an underscore of
    its own; so does a run of two spaces. *)
Lemma certKey_keeps_one_separator_per_unit :
  certKey "AWS Certified!" = "aws_certified_" /\
  certKey "aws certified" = "aws_certified" /\
  certKey "AWS Certified!" <> certKey "aws certified" /\
  certKey "AWS  Certified" = "aws__certified".
Proof.
  split; [by vm_compute |]. split; [by vm_compute |].
  split; [| by vm_compute].
  intros Heq. vm_compute in Heq. discriminate Heq.
Qed.

(** C3, amended: the key is a function of the name: the name in lower
    case with every code unit outside a-z0-9 replaced by one underscore
    (one for each unit of a run), so it is as long as the lower-cased name
    and deriving a key from a key gives the key back; "AWS Certified!" derives
    "aws_certified_" and "aws certified" derives "aws_certified"; names
    that differ by case only, such as "AWS Certified" and "aws certified",
    derive the same key. *)
Theorem certKey_per_code_unit :
  (forall certName,
     certKey certName = string_map key_unit (toLowerCase certName)) /\
  (forall certName,
     String.length (certKey certName) = String.length (toLowerCase certName)) /\
  (forall certName, certKey (certKey certName) = certKey certName) /\
  certKey "AWS Certified!" = "aws_certified_" /\
  certKey "aws certified" = "aws_certified" /\
  certKey "AWS Certified" = certKey "aws certified".
Proof.
  split; [exact certKey_map |].
  split; [intros certName; rewrite certKey_map; by rewrite string_map_length |].
  split; [| by vm_compute].
  intros certName. rewrite !certKey_map. unfold toLowerCase.
  induction certName as [| c s IH]; simpl; [done |].
  by rewrite key_unit_stable, IH.
Qed.

(** ** The contact list has no duplicates *)

Lemma indexOf_None (x : string) (arr : list string) :
  indexOf x arr = None <-> ~ In x arr.
Proof.
  induction arr as [| y arr IH]; simpl; [tauto |].
  destruct (String.eqb_spec x y) as [-> | Hne].
  - split; [discriminate | intros H; exfalso; auto].
  - destruct (indexOf x arr); simpl.
    + split; [discriminate |]. intros H. exfalso.
      destruct (in_dec String.string_dec x arr) as [Hin | Hn]; [tauto |].
      apply IH in Hn. discriminate.
    + split; [| done]. intros _ [-> | Hin]; [done |]. by apply IH.
Qed.

Lemma indexOf_app (x : string) (l1 l2 : list string) :
  indexOf x (l1 ++ l2) =
  match indexOf x l1 with
  | Some i => Some i
  | None => (fun j => List.length l1 + j) <$> indexOf x l2
  end.
Proof.
  induction l1 as [| y l1 IH]; simpl.
  - by destruct (indexOf x l2).
  - destruct (String.eqb x y); [done |]. rewrite IH.
    destruct (indexOf x l1); [done |]. by destruct (indexOf x l2).
Qed.

Lemma indexOf_is_first (x : string) (before after : list string) :
  bool_decide (indexOf x (before ++ x :: after) = Some (List.length before)) =
  negb (arr_includes x before).
Proof.
  rewrite indexOf_app. simpl. rewrite String.eqb_refl.
  destruct (arr_includes x before) eqn:Hin; simpl.
  - apply arr_includes_In in Hin. destruct (indexOf x before) as [i |] eqn:Hi.
    + apply bool_decide_eq_false. intros [= ->].
      clear Hin. revert Hi. generalize before at 1 2 as l.
      assert (Hlt : forall l i, indexOf x l = Some i -> i < List.length l).
      { induction l as [| y l IHl]; simpl; [done |]. intros j.
        destruct (String.eqb x y); [intros [= <-]; lia |].
        destruct (indexOf x l); simpl; [| done]. intros [= <-].
        specialize (IHl _ eq_refl). lia. }
      intros l Hl. apply Hlt in Hl. lia.
    + by apply indexOf_None in Hi.
  - assert (indexOf x before = None) as ->.
    { apply indexOf_None. intros H. apply arr_includes_In in H. congruence. }
    apply bool_decide_eq_true. simpl. f_equal. lia.
Qed.

(** The filter of the source keeps the first occurrences. *)
Lemma filter_index_keep_first (arr before : list string) :
  filter_index
    (fun item index => bool_decide (indexOf item (before ++ arr) = Some index))
    (List.length before) arr
  = keep_first_occurrences before arr.
Proof.
  revert before. induction arr as [| x arr IH]; intros before; [done |].
  simpl. rewrite indexOf_is_first.
  specialize (IH (before ++ [x])%list).
  rewrite <- app_assoc, length_app in IH. simpl in IH.
  rewrite Nat.add_1_r in IH. rewrite IH.
  by destruct (arr_includes x before).
Qed.

Lemma dedup_keep_first (arr : list string) :
  dedup arr = keep_first_occurrences [] arr.
Proof. exact (filter_index_keep_first arr []). Qed.

Lemma keep_first_In (arr before : list string) (y : string) :
  In y (keep_first_occurrences before arr) <-> In y arr /\ ~ In y before.
Proof.
  revert before. induction arr as [| x arr IH]; intros before; simpl; [tauto |].
  destruct (arr_includes x before) eqn:Hx.
  - apply arr_includes_In in Hx. rewrite IH, in_app_iff. simpl.
    split.
    + intros (Hy & Hn). split; [by right | tauto].
    + intros ([-> | Hy] & Hn); [done |]. split; [done |].
      intros [H | [-> | []]]; done.
  - assert (~ In x before) as Hnx.
    { intros H. apply arr_includes_In in H. congruence. }
    simpl. rewrite IH, in_app_iff. simpl. split.
    + intros [<- | (Hy & Hn)]; [tauto |]. split; [by right | tauto].
    + intros ([-> | Hy] & Hn); [by left |].
      destruct (decide (x = y)) as [-> | Hne]; [by left | right].
      split; [done |]. intros [H | [H | []]]; done.
Qed.

Lemma keep_first_NoDup (arr before : list string) :
  List.NoDup (keep_first_occurrences before arr).
Proof.
  revert before. induction arr as [| x arr IH]; intros before; simpl;
    [constructor |].
  destruct (arr_includes x before); [apply IH |].
  constructor; [| apply IH].
  rewrite keep_first_In, in_app_iff. simpl. tauto.
Qed.

(** The output up to the first occurrence of [x] is the output for the
    elements before it. *)
Lemma keep_first_split (arr before : list string) (x : string) (i : nat) :
  indexOf x arr = Some i -> ~ In x before ->
  exists rest,
    keep_first_occurrences before arr =
    (keep_first_occurrences before (take i arr) ++ x :: rest)%list.
Proof.
  revert before i. induction arr as [| y arr IH]; intros before i; simpl; [done |].
  destruct (String.eqb_spec x y) as [<- | Hne].
  - intros [= <-] Hn. simpl.
    assert (arr_includes x before = false) as ->; [| eauto].
    apply not_true_is_false. intros H. by apply arr_includes_In in H.
  - destruct (indexOf x arr) as [j |] eqn:Hj; simpl; [| done].
    intros [= <-] Hn. simpl.
    destruct (IH (before ++ [y])%list j eq_refl) as (rest & ->).
    { rewrite in_app_iff. simpl. intros [H | [H | []]]; [done | congruence]. }
    destruct (arr_includes y before); eauto.
Qed.

Lemma dedup_In (arr : list string) (x : string) :
  In x (dedup arr) <-> In x arr.
Proof. rewrite dedup_keep_first, keep_first_In. simpl. tauto. Qed.

(** C7: the contact list is the concatenation of the matches of the five
    categories with every repeated string removed: it has no duplicates,
    it has the same elements, and each element stands where its first
    occurrence stood, after the distinct elements met before it. *)
Theorem contactInfo_keeps_first_occurrences (text : string) :
  contact (parseExtractedText text) = nonempty_list (contactInfo text) /\
  contactInfo text = keep_first_occurrences [] (contactMatches text) /\
  List.NoDup (contactInfo text) /\
  (forall x, In x (contactInfo text) <-> In x (contactMatches text)) /\
  (forall x i, indexOf x (contactMatches text) = Some i ->
     exists rest,
       contactInfo text
         = (dedup (take i (contactMatches text)) ++ x :: rest)%list /\
       ~ In x (dedup (take i (contactMatches text))) /\ ~ In x rest).
Proof.
  split; [reflexivity |]. unfold contactInfo.
  split; [apply dedup_keep_first |].
  split; [rewrite dedup_keep_first; apply keep_first_NoDup |].
  split.
  - intros x. apply dedup_In.
  - intros x i Hi.
    pose proof (keep_first_NoDup (contactMatches text) []) as Hnd.
    destruct (keep_first_split _ [] _ _ Hi) as (rest & Heq); [by intros [] |].
    rewrite !dedup_keep_first. exists rest. split; [done |].
    rewrite Heq in Hnd. apply List.NoDup_remove_2 in Hnd.
    rewrite in_app_iff in Hnd. tauto.
Qed.

Lemma contactInfo_keeps_first_occurrences_witness :
  contactMatches twice_text
    = ["a@b.co"; "a@b.co"; "https://x.org"; "https://x.org"] /\
  indexOf "https://x.org" (contactMatches twice_text) = Some 2 /\
  contactInfo twice_text = ["a@b.co"; "https://x.org"] /\
  exists rest,
    contactInfo twice_text
      = (dedup (take 2 (contactMatches twice_text)) ++ "https://x.org" :: rest)%list /\
    ~ In "https://x.org" (dedup (take 2 (contactMatches twice_text))) /\
    ~ In "https://x.org" rest.
Proof.
  split; [by vm_compute |]. split; [by vm_compute |]. split; [by vm_compute |].
  apply (proj2 (proj2 (proj2 (proj2
           (contactInfo_keeps_first_occurrences twice_text))))
           "https://x.org" 2).
  by vm_compute.
Defined.

(** ** The contact list has no bare year *)

Lemma string_filter_all (p : ascii -> bool) (s : string) :
  string_forallb p s = true -> string_filter p s = s.
Proof.
  induction s as [| c s IH]; simpl; [done |].
  intros [Hc Hs]%andb_true_iff. rewrite Hc. by rewrite IH.
Qed.

Lemma chr_lang (a : ascii) (m : string) :
  lang false (chr a) m -> m = String a "".
Proof.
  simpl. intros (c & -> & Hc). unfold class_mem in Hc.
  by apply Ascii.eqb_eq in Hc as ->.
Qed.

(** An e-mail match has an [@] in it. *)
Lemma email_not_digits (m : string) :
  lang false (source emailRegex) m -> string_forallb is_digit m = false.
Proof.
  unfold emailRegex, re. cbn [source lang].
  intros (m1 & m5 & -> & (m2 & m4 & -> & (m3 & m6 & -> &
            (m7 & m8 & -> & _ & Hat) & _) & _) & _).
  apply chr_lang in Hat as ->.
  rewrite !string_forallb_append. simpl.
  by rewrite !andb_false_r.
Qed.

(** A URL match starts with [h]. *)
Lemma url_head (m : string) :
  lang false (source urlRegex) m -> exists rest, m = String "h" rest.
Proof.
  unfold urlRegex, re. cbn [source lang lit].
  intros (m1 & m2 & -> & (m3 & m4 & -> & (m5 & m6 & -> &
            (m7 & m8 & -> & Hh & _) & _) & _) & _).
  apply chr_lang in Hh as ->. simpl_append. eauto.
Qed.

Lemma phone_ok_digits (num : string) :
  phone_ok num = true ->
  10 <= String.length (digits_of num) <= 15.
Proof.
  unfold phone_ok. cbv zeta.
  intros [[[H10 H15]%andb_true_iff _]%andb_true_iff _]%andb_true_iff.
  apply Nat.leb_le in H10, H15. lia.
Qed.

(** A match of any of the five categories that consists of digits only
    has 10 to 15 of them. *)
Lemma contactMatches_digits (text c : string) :
  In c (contactMatches text) -> string_forallb is_digit c = true ->
  10 <= String.length c <= 15.
Proof.
  unfold contactMatches. rewrite !in_app_iff, !in_map_iff.
  intros [Hc | [Hc | [Hc | [(p & <- & _) | (p & <- & _)]]]] Hd.
  - apply match_all_lang, email_not_digits in Hc. congruence.
  - unfold phones in Hc. apply filter_In in Hc as [_ Hok].
    apply phone_ok_digits in Hok.
    rewrite digits_of_filter, string_filter_all in Hok; done.
  - apply match_all_lang, url_head in Hc as (rest & ->). discriminate.
  - discriminate.
  - discriminate.
Qed.

Lemma year_token_digits (c : string) :
  year_token c -> string_forallb is_digit c = true /\ String.length c = 4.
Proof.
  intros (d3 & d4 & H3 & H4 & [-> | ->]); simpl; rewrite H3, H4; done.
Qed.

(** C6: no element of the contact list is a four-digit year from 1900 to
    2099 (an element made of digits only has 10 to 15 of them), and a
    phone match is kept only when the digits left after stripping the
    other code units number 10 to 15, hence neither 2 nor 4. *)
Theorem contactInfo_rejects_years (text : string) :
  (forall c, In c (contactInfo text) ->
     ~ year_token c /\
     (string_forallb is_digit c = true -> 10 <= String.length c <= 15)) /\
  (forall c l, contact (parseExtractedText text) = Some l -> In c l ->
     ~ year_token c) /\
  (forall num, In num (phones text) ->
     In num (potentialPhones text) /\
     digits_of num = string_filter is_digit num /\
     10 <= String.length (digits_of num) <= 15 /\
     String.length (digits_of num) <> 2 /\
     String.length (digits_of num) <> 4).
Proof.
  assert (Hall : forall c, In c (contactInfo text) ->
            ~ year_token c /\
            (string_forallb is_digit c = true -> 10 <= String.length c <= 15)).
  { intros c Hc. unfold contactInfo in Hc. apply (proj1 (dedup_In _ _)) in Hc.
    split; [| exact (contactMatches_digits text c Hc)].
    intros [Hd Hlen]%year_token_digits.
    apply (contactMatches_digits text c Hc) in Hd. lia. }
  split; [exact Hall |]. split.
  - intros c l Hl Hc. apply Hall.
    change (nonempty_list (contactInfo text) = Some l) in Hl.
    destruct (contactInfo text); [discriminate |]. by inversion Hl; subst.
  - intros num Hnum. unfold phones in Hnum.
    apply filter_In in Hnum as [Hpot Hok]. apply phone_ok_digits in Hok.
    repeat split; [done | apply digits_of_filter | lia ..].
Qed.

Lemma contactInfo_rejects_years_witness :
  potentialPhones year_text = ["1999"; "2024"; "+5581999998888"] /\
  contact (parseExtractedText year_text) = Some ["+5581999998888"] /\
  (In "+5581999998888" (contactInfo year_text) /\
   ~ year_token "+5581999998888") /\
  ~ year_token "+5581999998888" /\
  (In "+5581999998888" (phones year_text) /\
   10 <= String.length (digits_of "+5581999998888") <= 15).
Proof.
  pose proof (contactInfo_rejects_years year_text) as (Hinfo & Hcontact & Hphones).
  assert (Hin : In "+5581999998888" (contactInfo year_text))
    by (vm_compute; left; reflexivity).
  assert (Hph : In "+5581999998888" (phones year_text))
    by (vm_compute; left; reflexivity).
  assert (Hc : contact (parseExtractedText year_text) = Some ["+5581999998888"])
    by (vm_compute; reflexivity).
  split; [vm_compute; reflexivity |]. split; [exact Hc |].
  split; [split; [exact Hin | exact (proj1 (Hinfo _ Hin))] |].
  split; [exact (Hcontact _ _ Hc (or_introl eq_refl)) |].
  split; [exact Hph | exact (proj1 (proj2 (proj2 (Hphones _ Hph))))].
Defined.

(** ** Languages *)

Lemma fold_push_found_keeps (textLower : string) (keywords acc : list string)
    (x : string) :
  In x acc -> In x (fold_left (push_found textLower) keywords acc).
Proof.
  revert acc. induction keywords as [| k keywords IH]; intros acc Hx; [done |].
  simpl. apply IH. unfold push_found.
  destruct (includes k textLower); [| done].
  apply in_app_iff. by left.
Qed.

(** A keyword that the text includes is pushed, capitalized. *)
Lemma fold_push_found_In (textLower : string) (keywords acc : list string)
    (k : string) :
  In k keywords -> includes k textLower = true ->
  In (capitalize k) (fold_left (push_found textLower) keywords acc).
Proof.
  revert acc. induction keywords as [| k' keywords IH]; intros acc Hk Hinc;
    [done |].
  simpl. destruct Hk as [-> | Hk]; [| by apply IH].
  apply fold_push_found_keeps. unfold push_found. rewrite Hinc.
  apply in_app_iff. right. by left.
Qed.

(** C10: when the lower-cased text contains the letter r, the fragment
    has a languages list, and the entry named "R" with proficiency
    "intermediate" and context "Extracted from PDF" is in it. *)
Theorem parseExtractedText_finds_R (text : string) :
  includes "r" (toLowerCase text) = true ->
  exists entries,
    languages (parseExtractedText text) = Some entries /\
    In (Language.mk "R" "intermediate" (Some "Extracted from PDF")) entries.
Proof.
  intros Hr.
  assert (HR : In (language_entry "R")
                 (map language_entry (foundLanguages (toLowerCase text)))).
  { apply in_map. change "R" with (capitalize "r").
    apply fold_push_found_In; [| done].
    unfold programmingLanguages. simpl. tauto. }
  change (languages (parseExtractedText text))
    with (nonempty_list (map language_entry (foundLanguages (toLowerCase text)))).
  destruct (map language_entry (foundLanguages (toLowerCase text))) as [| e l] eqn:Hl;
    [done |].
  simpl. eauto.
Qed.

Lemma parseExtractedText_finds_R_witness :
  includes "r" (toLowerCase "Curriculum Vitae: Maria, Recife") = true /\
  exists entries,
    languages (parseExtractedText "Curriculum Vitae: Maria, Recife") = Some entries /\
    In (Language.mk "R" "intermediate" (Some "Extracted from PDF")) entries.
Proof.
  split; [reflexivity |].
  apply (parseExtractedText_finds_R "Curriculum Vitae: Maria, Recife").
  reflexivity.
Defined.

(** ** The line scan *)

Lemma search_Bol_later (r : regex) (ic : bool) (s : string) :
  forall i, search {| source := Seq Bol r; ignoreCase := ic |} (S i) s = None.
Proof. induction s as [| c s IH]; intros i; simpl; [done | apply IH]. Qed.

Lemma test_startsLowerCase (s : string) :
  test startsLowerCase s =
  match s with
  | EmptyString => false
  | String c _ => is_lower_az c
  end.
Proof.
  unfold test, startsLowerCase, re, lower_az. destruct s as [| c s]; [done |].
  cbn [search]. unfold exec_at. simpl.
  destruct (is_lower_az c); [done |]. by rewrite search_Bol_later.
Qed.

(** When the next line continues a name. *)
Lemma continues_spec (nextLine : string) :
  continues nextLine = true <->
  0 < String.length nextLine < 15 /\
  (starts_lower nextLine \/ nextLine = "Science").
Proof.
  unfold continues, starts_lower. rewrite test_startsLowerCase.
  rewrite !andb_true_iff, orb_true_iff, !Nat.ltb_lt, String.eqb_eq.
  split.
  - intros [[H0 H15] [Hl | Hs]]; (split; [lia |]); [left | by right].
    destruct nextLine as [| c rest]; [done | eauto].
  - intros [[H0 H15] [(c & rest & -> & Hc) | Hs]]; (split; [done |]);
      [by left | by right].
Qed.

(** A blanked line is skipped. *)
Lemma scan_line_blank (st : scan_state) (index : nat) :
  lines st !! index = Some "" -> scan_line st index = st.
Proof. intros H. unfold scan_line. by rewrite H. Qed.

Lemma scan_line_candidate (st : scan_state) (index : nat) (line : string) :
  lines st !! index = Some line ->
  takes_candidate_branch st line = true ->
  scan_line st index =
  let originalLine := trim line in
  let '(merged, lines') := lookahead (lines st) index originalLine in
  let certName := replace_first labelPrefix "" merged in
  {| inCertSection := section_after st (trim (toLowerCase line)) originalLine;
     lines := lines';
     found := if Nat.ltb 3 (String.length certName) && negb (isGeneric certName)
              then add_certificate certName (found st)
              else found st |}.
Proof.
  intros Hline. unfold takes_candidate_branch. cbv zeta.
  intros [[[Hlen Hhead]%andb_true_iff Hunw]%andb_true_iff Hcand]%andb_true_iff.
  apply negb_true_iff in Hlen, Hhead, Hunw.
  unfold scan_line. rewrite Hline. cbn [default]. unfold id. cbv zeta.
  rewrite Hlen, Hhead, Hunw.
  unfold section_after in *. by rewrite Hcand.
Qed.

Lemma lookahead_spec (lines0 : list string) (index : nat)
    (originalLine next : string) :
  lines0 !! (index + 1) = Some next ->
  lookahead lines0 index originalLine =
  if continues (trim next)
  then (originalLine ++ " " ++ trim next, <[index + 1 := ""]> lines0)
  else (originalLine, lines0).
Proof. intros H. unfold lookahead. by rewrite H. Qed.

(** C4 as stated fails: a short next line alone is not enough, nor is a
    lower-case start alone.  After the candidate "AWS Certified Cloud
    Practitioner" the ten code units of "Experience" are not appended, and
    neither is the long line "issued by amazon web services", which starts
    in lower case; the array stays as it was. *)
Lemma lookahead_needs_short_and_lower :
  scan_line {| inCertSection := false; lines := boundary_lines; found := ∅ |} 0
    = in_section boundary_lines /\
  takes_candidate_branch (in_section boundary_lines)
    "AWS Certified Cloud Practitioner" = true /\
  String.length (trim "Experience") < 15 /\
  lookahead boundary_lines 1 "AWS Certified Cloud Practitioner"
    = ("AWS Certified Cloud Practitioner", boundary_lines) /\
  lines (scan_line (in_section boundary_lines) 1) = boundary_lines /\
  takes_candidate_branch (in_section long_continuation_lines)
    "AWS Certified Cloud Practitioner" = true /\
  starts_lower (trim "issued by amazon web services") /\
  lookahead long_continuation_lines 1 "AWS Certified Cloud Practitioner"
    = ("AWS Certified Cloud Practitioner", long_continuation_lines) /\
  lines (scan_line (in_section long_continuation_lines) 1)
    = long_continuation_lines /\
  found (scan_line (in_section long_continuation_lines) 1)
    = {[ "aws_certified_cloud_practitioner" :=
           certEntry "AWS Certified Cloud Practitioner" ]}.
Proof.
  split; [by vm_compute |]. split; [by vm_compute |].
  split; [vm_compute; lia |]. split; [by vm_compute |].
  split; [by vm_compute |]. split; [by vm_compute |].
  split; [exists "i"%char, "ssued by amazon web services"; by vm_compute |].
  split; [by vm_compute |]. split; by vm_compute.
Qed.

(** C4, amended: when a line reaches the candidate branch and the next
    line, trimmed, is not empty, has fewer than 15 code units and either
    starts with a lower-case letter a-z or is exactly "Science", the next
    line is appended to the name after one space and blanked in the array,
    so that its own turn of the loop skips it; when one of these
    conditions fails the name is the line alone and the array is left as
    it is.  In both cases the name, once its label prefix is stripped, is
    recorded when it is longer than 3 and not generic.  The lines
    "Certifications", "Microsoft Azure", "fundamentals" yield the single
    certificate "Microsoft Azure fundamentals". *)
Theorem lookahead_appends_short_lower_continuation :
  (forall (st : scan_state) (index : nat) (line next : string),
     lines st !! index = Some line ->
     lines st !! (index + 1) = Some next ->
     takes_candidate_branch st line = true ->
     let nextLine := trim next in
     let st' := scan_line st index in
     let record certName :=
       if Nat.ltb 3 (String.length certName) && negb (isGeneric certName)
       then add_certificate certName (found st) else found st in
     (0 < String.length nextLine < 15 /\
      (starts_lower nextLine \/ nextLine = "Science") ->
      lookahead (lines st) index (trim line)
        = (trim line ++ " " ++ nextLine, <[index + 1 := ""]> (lines st)) /\
      lines st' = <[index + 1 := ""]> (lines st) /\
      lines st' !! (index + 1) = Some "" /\
      scan_line st' (index + 1) = st' /\
      found st'
        = record (replace_first labelPrefix "" (trim line ++ " " ++ nextLine))) /\
     (~ (0 < String.length nextLine < 15 /\
         (starts_lower nextLine \/ nextLine = "Science")) ->
      lookahead (lines st) index (trim line) = (trim line, lines st) /\
      lines st' = lines st /\
      found st' = record (replace_first labelPrefix "" (trim line)))) /\
  split LF continuation_text = continuation_lines /\
  lines (scan_lines continuation_lines)
    = [ "Certifications"; "Microsoft Azure"; "" ] /\
  extract_certifications continuation_text
    = {[ "microsoft_azure_fundamentals" :=
           certEntry "Microsoft Azure fundamentals" ]}.
Proof.
  split; [| split; [by vm_compute |]; split; by vm_compute].
  intros st index line next Hline Hnext Hbranch nextLine st' record.
  pose proof (scan_line_candidate st index line Hline Hbranch) as Hstep.
  cbv zeta in Hstep. rewrite (lookahead_spec _ _ _ _ Hnext) in Hstep.
  fold nextLine in Hstep. fold st' in Hstep.
  rewrite (lookahead_spec _ _ _ _ Hnext). fold nextLine.
  split; intros Hcond.
  - apply continues_spec in Hcond. rewrite Hcond in *.
    assert (Hl : lines st' = <[index + 1 := ""]> (lines st)) by by rewrite Hstep.
    assert (Hb : lines st' !! (index + 1) = Some "").
    { rewrite Hl. apply list_lookup_insert_eq. by eapply lookup_lt_Some. }
    split; [done |]. split; [done |]. split; [done |].
    split; [by apply scan_line_blank | by rewrite Hstep].
  - destruct (continues nextLine) eqn:Hc.
    + exfalso. apply Hcond. by apply continues_spec.
    + split; [done |]. by rewrite Hstep.
Qed.

Lemma lookahead_appends_short_lower_continuation_witness :
  (lines (in_section continuation_lines) !! 1 = Some "Microsoft Azure" /\
   lines (in_section continuation_lines) !! (1 + 1) = Some "fundamentals" /\
   takes_candidate_branch (in_section continuation_lines) "Microsoft Azure" = true /\
   0 < String.length (trim "fundamentals") < 15 /\
   starts_lower (trim "fundamentals")) /\
  lookahead continuation_lines 1 (trim "Microsoft Azure")
    = ("Microsoft Azure fundamentals",
       [ "Certifications"; "Microsoft Azure"; "" ]) /\
  (~ (0 < String.length (trim "Experience") < 15 /\
      (starts_lower (trim "Experience") \/ trim "Experience" = "Science")) /\
   lookahead boundary_lines 1 (trim "AWS Certified Cloud Practitioner")
     = ("AWS Certified Cloud Practitioner", boundary_lines)).
Proof.
  assert (Hlow : starts_lower (trim "fundamentals"))
    by (exists "f"%char, "undamentals"; by vm_compute).
  assert (Hlen : 0 < String.length (trim "fundamentals") < 15)
    by (vm_compute; lia).
  assert (Hno : ~ (0 < String.length (trim "Experience") < 15 /\
                   (starts_lower (trim "Experience") \/
                    trim "Experience" = "Science"))).
  { intros [_ [(c & rest & Heq & Hc) | Heq]]; vm_compute in Heq;
      [| discriminate].
    injection Heq as <- <-. vm_compute in Hc. discriminate. }
  split; [repeat split; [by vm_compute .. | lia | lia | exact Hlow] |].
  split.
  - exact (proj1 (proj1 (proj1 lookahead_appends_short_lower_continuation
                           (in_section continuation_lines) 1 "Microsoft Azure"
                           "fundamentals" eq_refl eq_refl eq_refl)
                    (conj Hlen (or_introl Hlow)))).
  - split; [exact Hno |].
    exact (proj1 (proj2 (proj1 lookahead_appends_short_lower_continuation
                           (in_section boundary_lines) 1
                           "AWS Certified Cloud Practitioner" "Experience"
                           eq_refl eq_refl eq_refl)
                    Hno)).
Defined.

(** C5: on the lines "Certifications", "AWS Certified Cloud
    Practitioner", "Experience", "Random Company" the header sets the
    section flag, the experience header clears it, and the certifications
    of the fragment are the single entry named "AWS Certified Cloud
    Practitioner": nothing is recorded for "Random Company". *)
Theorem certification_section_boundary :
  split LF boundary_text = boundary_lines /\
  (let start := {| inCertSection := false; lines := boundary_lines; found := ∅ |} in
   inCertSection (fold_left scan_line [0] start) = true /\
   inCertSection (fold_left scan_line [0; 1] start) = true /\
   inCertSection (fold_left scan_line [0; 1; 2] start) = false /\
   found (fold_left scan_line [0; 1; 2] start) = found (scan_lines boundary_lines)) /\
  match_all certSectionRegex boundary_text = [] /\
  extract_certifications boundary_text
    = {[ "aws_certified_cloud_practitioner" :=
           certEntry "AWS Certified Cloud Practitioner" ]} /\
  certifications (parseExtractedText boundary_text)
    = Some {[ "aws_certified_cloud_practitioner" :=
                certEntry "AWS Certified Cloud Practitioner" ]} /\
  extract_certifications boundary_text !! certKey "Random Company" = None /\
  map_to_list (extract_certifications boundary_text)
    = [ ("aws_certified_cloud_practitioner",
         certEntry "AWS Certified Cloud Practitioner") ].
Proof.
  split; [by vm_compute |].
  split; [repeat split; by vm_compute |].
  split; [by vm_compute |]. split; [by vm_compute |].
  split; [by vm_compute |]. split; by vm_compute.
Qed.

(** * Further properties of the extractor *)

(** ** Anchored patterns and the phone filter *)

Lemma mtch_anchored (ic : bool) (r : regex) :
  anchored r = true ->
  forall i s k, mtch ic r (S i) s k = None.
Proof.
  induction r as [| | r1 IH1 r2 _ | | | | |]; simpl; try discriminate.
  - intros Ha i s k. by apply IH1.
  - done.
Qed.

Lemma search_anchored (re0 : RegExp) :
  anchored (source re0) = true ->
  forall s i, search re0 (S i) s = None.
Proof.
  intros Ha. induction s as [| c s IH]; intros i; simpl; unfold exec_at;
    rewrite mtch_anchored by done; [done | apply IH].
Qed.

(** An anchored pattern is tested at index 0 only. *)
Lemma test_anchored (re0 : RegExp) (s : string) :
  anchored (source re0) = true ->
  test re0 s = match exec_at re0 0 s with Some _ => true | None => false end.
Proof.
  intros Ha. unfold test. destruct s as [| c s]; simpl.
  - by destruct (exec_at re0 0 "").
  - destruct (exec_at re0 0 (String c s)); [done |].
    by rewrite search_anchored.
Qed.

Lemma joined_units_length (ic negated : bool) (p : ascii -> bool)
    (ms : list string) :
  Forall (lang ic (Cls negated p)) ms ->
  String.length (joined ms) = List.length ms.
Proof.
  induction 1 as [| m ms (c & -> & _) _ IH]; simpl; [done |].
  simpl_append. simpl. by rewrite IH.
Qed.

Lemma lit_lang_length (s m : string) :
  lang false (lit s) m -> String.length m = String.length s.
Proof.
  revert m. induction s as [| c s IH]; intros m; simpl.
  - by intros ->.
  - destruct s as [| c' s'].
    + by intros (c0 & -> & _).
    + intros (m1 & m2 & -> & (c0 & -> & _) & Hm2).
      simpl_append. simpl. f_equal. by apply IH.
Qed.

(** What [yearRegex] accepts has four code units. *)
Lemma yearRegex_length (digits : string) :
  test yearRegex digits = true -> String.length digits = 4.
Proof.
  rewrite test_anchored by done.
  destruct (exec_at yearRegex 0 digits) as [e |] eqn:He; [intros _ | done].
  unfold exec_at, yearRegex, re in He. cbn [source ignoreCase mtch] in He.
  change (mtch false (Bol ⋅ (lit "19" ∣ lit "20") ⋅ Times 2 digit)%re 0 digits
            (fun i' s' => mtch false Eol i' s' (fun e _ => Some e)) = Some e)
    in He.
  apply mtch_sound in He as (m & s' & -> & Hm & Hend).
  destruct s' as [| c s']; [| discriminate]. rewrite append_nil_r.
  cbn [lang] in Hm.
  destruct Hm as (m1 & m2 & -> & (m3 & m4 & -> & -> & Halt) & (ms & -> & Hms & Hw)).
  rewrite !length_append. rewrite (joined_units_length _ _ _ _ Hms).
  unfold within in Hw. simpl.
  destruct Halt as [H | H]; apply lit_lang_length in H; rewrite H; simpl; lia.
Qed.

Lemma phone_ok_iff (num : string) :
  phone_ok num = true <->
  10 <= String.length (string_filter is_digit num) <= 15.
Proof.
  unfold phone_ok. cbv zeta. rewrite digits_of_filter.
  set (n := String.length (string_filter is_digit num)).
  rewrite !andb_true_iff, !Nat.leb_le, !negb_true_iff, orb_false_iff, !Nat.eqb_neq.
  split; [tauto |]. intros Hn.
  repeat split; try lia.
  destruct (test yearRegex (string_filter is_digit num)) eqn:Hy; [| done].
  apply yearRegex_length in Hy. fold n in Hy. lia.
Qed.

(** X1: the filter of the phone matches keeps a match exactly when 10 to
    15 digits are left after the other code units are stripped; the year
    test and the test on lengths 2 and 4 never reject a match that has
    passed the two bounds. *)
Theorem phone_ok_digit_count (text num : string) :
  In num (phones text) <->
  In num (potentialPhones text) /\
  10 <= String.length (string_filter is_digit num) <= 15.
Proof. unfold phones. rewrite filter_In. by rewrite phone_ok_iff. Qed.

(** ** What the contact list is made of *)

Lemma startsWith_append (p s : string) : startsWith p (p ++ s) = true.
Proof.
  induction p as [| c p IH]; simpl_append; simpl; [by destruct s |].
  by rewrite Ascii.eqb_refl.
Qed.

Lemma includes_append (sub before after : string) :
  includes sub (before ++ sub ++ after) = true.
Proof.
  induction before as [| c before IH]; simpl_append.
  - destruct (sub ++ after) eqn:Heq; simpl;
      rewrite <- ?Heq, startsWith_append; done.
  - simpl. rewrite IH. apply orb_true_r.
Qed.

Lemma startsWith_split (p s : string) :
  startsWith p s = true -> exists rest, s = p ++ rest.
Proof.
  revert s. induction p as [| c p IH]; intros s; simpl.
  - intros _. by exists s.
  - destruct s as [| c' s]; [done |].
    intros [->%Ascii.eqb_eq Hp]%andb_true_iff.
    apply IH in Hp as (rest & ->). by exists rest.
Qed.

Lemma includes_split (sub s : string) :
  includes sub s = true -> exists before after, s = before ++ sub ++ after.
Proof.
  induction s as [| c s IH]; simpl.
  - rewrite orb_false_r. intros (rest & ->)%startsWith_split. by exists "", rest.
  - intros [Hp | Hs]%orb_true_iff.
    + apply startsWith_split in Hp as (rest & ->). by exists "", rest.
    + apply IH in Hs as (before & after & ->). by exists (String c before), after.
Qed.

(** [a] occurs in [b] and [b] in [c]: [a] occurs in [c]. *)
Lemma includes_trans (a b c : string) :
  includes a b = true -> includes b c = true -> includes a c = true.
Proof.
  intros (p & q & ->)%includes_split (p' & q' & ->)%includes_split.
  rewrite !append_assoc, <- (append_assoc p' p). apply includes_append.
Qed.

Lemma email_has_at (m : string) :
  lang false (source emailRegex) m -> includes "@" m = true.
Proof.
  unfold emailRegex, re. cbn [source lang].
  intros (m1 & m5 & -> & (m2 & m4 & -> & (m3 & m6 & -> &
            (m7 & m8 & -> & _ & Hat) & _) & _) & _).
  apply chr_lang in Hat as ->.
  rewrite !append_assoc. apply includes_append.
Qed.

Lemma lit_lang (s m : string) : lang false (lit s) m -> m = s.
Proof.
  revert m. induction s as [| c s IH]; intros m; simpl.
  - done.
  - destruct s as [| c' s'].
    + apply chr_lang.
    + intros (m1 & m2 & -> & ->%chr_lang & Hm2).
      simpl_append. f_equal. by apply IH.
Qed.

Lemma url_scheme (m : string) :
  lang false (source urlRegex) m ->
  startsWith "http://" m = true \/ startsWith "https://" m = true.
Proof.
  unfold urlRegex, re. cbn [source lang].
  intros (m1 & m2 & -> & (m3 & m4 & -> & (m5 & m6 & -> & Hhttp & Hs) & Hsl) & _).
  apply lit_lang in Hhttp as ->. apply lit_lang in Hsl as ->.
  destruct Hs as (ms & -> & Hms & Hw). unfold within in Hw. simpl in Hw.
  destruct ms as [| s1 [| s2 ms]]; simpl in Hw; [| | lia].
  - left. exact (startsWith_append "http://" m2).
  - right. apply Forall_cons in Hms as [->%chr_lang _].
    exact (startsWith_append "https://" m2).
Qed.

Lemma linkedin_host (m : string) :
  lang false (source linkedinRegex) m ->
  startsWith "linkedin.com/in/" m = true.
Proof.
  unfold linkedinRegex, re. cbn [source lang].
  intros (m1 & m2 & -> & (m3 & m4 & -> & (m5 & m6 & -> & H1 & H2) & H3) & _).
  apply lit_lang in H1 as ->. apply chr_lang in H2 as ->.
  apply lit_lang in H3 as ->.
  rewrite append_assoc. exact (startsWith_append "linkedin.com/in/" _).
Qed.

Lemma github_host (m : string) :
  lang false (source githubRegex) m -> startsWith "github.com/" m = true.
Proof.
  unfold githubRegex, re. cbn [source lang].
  intros (m1 & m2 & -> & (m3 & m4 & -> & (m5 & m6 & -> & H1 & H2) & H3) & _).
  apply lit_lang in H1 as ->. apply chr_lang in H2 as ->.
  apply lit_lang in H3 as ->.
  rewrite append_assoc. exact (startsWith_append "github.com/" _).
Qed.

(** X2: every string of the contact list is of one of four kinds: it
    contains an [@] (an e-mail match), it has 10 to 15 digits (a phone
    match), it starts with [http://] or [https://] (a URL match), or it is
    [https://linkedin.com/in/...] or [https://github.com/...] (a profile
    match made absolute). *)
Theorem contactInfo_kinds (text c : string) :
  In c (contactInfo text) ->
  includes "@" c = true \/
  10 <= String.length (string_filter is_digit c) <= 15 \/
  (startsWith "http://" c = true \/ startsWith "https://" c = true) \/
  startsWith "https://linkedin.com/in/" c = true \/
  startsWith "https://github.com/" c = true.
Proof.
  unfold contactInfo. rewrite dedup_In. unfold contactMatches.
  rewrite !in_app_iff, !in_map_iff.
  intros [Hc | [Hc | [Hc | [(p & <- & Hp) | (p & <- & Hp)]]]].
  - left. by apply match_all_lang, email_has_at in Hc.
  - right; left. unfold phones in Hc. apply filter_In in Hc as [_ Hok].
    by apply phone_ok_iff.
  - right; right; left. by apply match_all_lang, url_scheme in Hc.
  - right; right; right; left.
    apply match_all_lang, linkedin_host, startsWith_split in Hp as (rest & ->).
    exact (startsWith_append "https://linkedin.com/in/" rest).
  - right; right; right; right.
    apply match_all_lang, github_host, startsWith_split in Hp as (rest & ->).
    exact (startsWith_append "https://github.com/" rest).
Qed.

(** ** What the line scan keeps *)

Lemma scan_line_found (st : scan_state) (index : nat) :
  found (scan_line st index) = found st \/
  exists certName,
    3 < String.length certName /\
    found (scan_line st index) = add_certificate certName (found st).
Proof.
  unfold scan_line. cbv zeta.
  destruct (Nat.ltb _ 3); [by left |].
  destruct (includes _ _ || includes _ _); [by left |].
  destruct (existsb _ _); [by left |].
  destruct (is_candidate _ _ _); [| by left].
  destruct (lookahead _ _ _) as [merged lines']. simpl.
  destruct (Nat.ltb 3 _ && _) eqn:Hok; [| by left].
  right. eexists. split; [| reflexivity].
  by apply andb_true_iff in Hok as [Hlen%Nat.ltb_lt _].
Qed.

Lemma lookahead_lines (lines0 : list string) (index : nat) (originalLine : string) :
  (lookahead lines0 index originalLine).2 = lines0 \/
  (lookahead lines0 index originalLine).2 = <[index + 1 := ""]> lines0.
Proof.
  unfold lookahead. destruct (lines0 !! (index + 1)); [| by left].
  destruct (continues _); [by right | by left].
Qed.

Lemma scan_line_lines (st : scan_state) (index : nat) :
  lines (scan_line st index) = lines st \/
  lines (scan_line st index) = <[index + 1 := ""]> (lines st).
Proof.
  unfold scan_line. cbv zeta.
  destruct (Nat.ltb _ 3); [by left |].
  destruct (includes _ _ || includes _ _); [by left |].
  destruct (existsb _ _); [by left |].
  destruct (is_candidate _ _ _); [| by left].
  pose proof (lookahead_lines (lines st) index
                (trim (default "" (lines st !! index)))) as Hl.
  destruct (lookahead _ _ _) as [merged lines']. exact Hl.
Qed.

(** A line that is not a header cannot set the flag. *)
Lemma scan_line_flag (st : scan_state) (index : nat) :
  let lowerLine := trim (toLowerCase (default "" (lines st !! index))) in
  includes "certification" lowerLine || includes certificacao lowerLine = false ->
  inCertSection st = false ->
  inCertSection (scan_line st index) = false.
Proof.
  intros lowerLine Hhead Hflag. unfold scan_line. cbv zeta.
  fold lowerLine. rewrite Hhead, Hflag.
  destruct (Nat.ltb _ 3); [done |]. rewrite andb_false_l.
  destruct (existsb _ _); [done |].
  destruct (is_candidate _ _ _); [| done].
  by destruct (lookahead _ _ _).
Qed.

Lemma add_certificate_keeps (certName : string) (certs : gmap string json)
    (key : string) (entry : json) :
  certs !! key = Some entry -> add_certificate certName certs !! key = Some entry.
Proof.
  intros Hk. unfold add_certificate, has_entry. cbv zeta.
  destruct (bool_decide (is_Some (certs !! certKey certName))) eqn:Hsome;
    [done |].
  simpl. destruct (inherited _); [done |].
  rewrite lookup_insert_ne; [done |].
  intros Heq. apply bool_decide_eq_false in Hsome. apply Hsome.
  rewrite Heq. eauto.
Qed.

Lemma add_certificate_well_keyed (certName : string) (certs : gmap string json) :
  3 < String.length certName -> well_keyed certs ->
  well_keyed (add_certificate certName certs).
Proof.
  intros Hlen Hwk. unfold add_certificate, has_entry. cbv zeta.
  destruct (bool_decide _ || inherited _) eqn:Hhas; [done |].
  apply orb_false_iff in Hhas as [_ Hinh].
  intros key entry. destruct (decide (certKey certName = key)) as [<- | Hne].
  - rewrite lookup_insert_eq. intros [= <-]. eauto.
  - rewrite lookup_insert_ne by done. apply Hwk.
Qed.

(** Folding a step that keeps a property keeps it. *)
Lemma fold_left_keeps {S I} (P : S -> Prop) (step : S -> I -> S)
    (l : list I) (start : S) :
  P start -> (forall st i, P st -> P (step st i)) -> P (fold_left step l start).
Proof.
  intros Hstart Hstep. revert start Hstart.
  induction l as [| i l IH]; intros start Hstart; simpl; [done |].
  apply IH. by apply Hstep.
Qed.

Lemma scan_line_well_keyed (st : scan_state) (index : nat) :
  well_keyed (found st) -> well_keyed (found (scan_line st index)).
Proof.
  intros Hwk. destruct (scan_line_found st index) as [-> | (n & Hn & ->)];
    [done | by apply add_certificate_well_keyed].
Qed.

Lemma add_section_well_keyed (certs : gmap string json) (section : string) :
  well_keyed certs -> well_keyed (add_section certs section).
Proof.
  intros Hwk. unfold add_section.
  apply (fold_left_keeps well_keyed); [done |].
  intros m line Hm. unfold add_section_line. cbv zeta.
  destruct (Nat.ltb 3 _) eqn:Hlen; [| done].
  apply add_certificate_well_keyed; [by apply Nat.ltb_lt | done].
Qed.

Lemma extract_certifications_well_keyed (text : string) :
  well_keyed (extract_certifications text).
Proof.
  unfold extract_certifications. cbv zeta.
  apply (fold_left_keeps well_keyed); [| intros; by apply add_section_well_keyed].
  unfold scan_lines.
  apply (fold_left_keeps (fun st => well_keyed (found st)));
    [| intros; by apply scan_line_well_keyed].
  intros key entry. simpl. by rewrite lookup_empty.
Qed.

Lemma string_map_key_units (s : string) :
  string_forallb is_key_unit (string_map key_unit s) = true.
Proof.
  induction s as [| c s IH]; simpl; [done |]. rewrite IH, andb_true_r.
  unfold key_unit, is_key_unit.
  destruct (is_lower_az c || is_digit c) eqn:Hc; [by rewrite Hc | done].
Qed.

(** X3: every certificate of the extraction is an entry built by the
    extractor from a name, stored under the key of that name; the key has
    more than three code units, all of them in a-z, 0-9 or the underscore,
    and is neither [constructor] nor [__proto__] (a candidate with such a
    key finds the inherited property of the object and is dropped). *)
Theorem extract_certifications_keys (text key : string) (entry : json) :
  extract_certifications text !! key = Some entry ->
  exists certName,
    entry = certEntry certName /\ key = certKey certName /\
    3 < String.length key /\
    string_forallb is_key_unit key = true /\
    key <> "constructor" /\ key <> "__proto__".
Proof.
  intros Hk. apply extract_certifications_well_keyed in Hk
    as (certName & -> & -> & Hlen & Hinh).
  exists certName. split; [done |]. split; [done |].
  split.
  { rewrite certKey_map. unfold toLowerCase. by rewrite !string_map_length. }
  split; [rewrite certKey_map; apply string_map_key_units |].
  unfold inherited in Hinh. apply orb_false_iff in Hinh as [H1 H2].
  by apply String.eqb_neq in H1, H2.
Qed.

Lemma scan_line_keeps (st : scan_state) (index : nat) (key : string)
    (entry : json) :
  found st !! key = Some entry -> found (scan_line st index) !! key = Some entry.
Proof.
  intros Hk. destruct (scan_line_found st index) as [-> | (n & _ & ->)];
    [done | by apply add_certificate_keeps].
Qed.

Lemma add_section_keeps (certs : gmap string json) (section key : string)
    (entry : json) :
  certs !! key = Some entry -> add_section certs section !! key = Some entry.
Proof.
  intros Hk. unfold add_section.
  apply (fold_left_keeps (fun m => m !! key = Some entry)); [done |].
  intros m line Hm. unfold add_section_line. cbv zeta.
  destruct (Nat.ltb 3 _); [by apply add_certificate_keeps | done].
Qed.

(** X4: the first certificate stored under a key stays: a later step of
    the line scan does not replace it, and neither does the block pass
    that runs after the scan. *)
Theorem certificates_first_writer_wins (key : string) (entry : json) :
  (forall st index,
     found st !! key = Some entry ->
     found (scan_line st index) !! key = Some entry) /\
  (forall text,
     found (scan_lines (split LF text)) !! key = Some entry ->
     extract_certifications text !! key = Some entry).
Proof.
  split; [intros; by apply scan_line_keeps |].
  intros text Hk. unfold extract_certifications. cbv zeta.
  apply (fold_left_keeps (fun m => m !! key = Some entry)); [done |].
  intros; by apply add_section_keeps.
Qed.

Lemma scan_line_only_blanked (lines0 : list string) (st : scan_state)
    (index : nat) :
  only_blanked lines0 st -> only_blanked lines0 (scan_line st index).
Proof.
  intros (Hlen & Hfirst & Hall). unfold only_blanked.
  destruct (scan_line_lines st index) as [-> | ->]; [done |].
  split; [by rewrite length_insert |].
  split; [by rewrite list_lookup_insert_ne by lia |].
  intros j line [(_ & <- & _) | (_ & Hj)]%list_lookup_insert_Some;
    [by left | by apply Hall].
Qed.

(** X5: the scan never rewrites a line other than by blanking it: after
    the scan the array has its length, its first line is untouched, and
    every line is either the original one or the empty string. *)
Theorem scan_lines_only_blanks (lines0 : list string) :
  List.length (lines (scan_lines lines0)) = List.length lines0 /\
  lines (scan_lines lines0) !! 0 = lines0 !! 0 /\
  forall j line,
    lines (scan_lines lines0) !! j = Some line ->
    line = "" \/ lines0 !! j = Some line.
Proof.
  unfold scan_lines.
  apply (fold_left_keeps (only_blanked lines0)).
  - split; [done |]. split; [done |]. intros j line H. by right.
  - intros st i. apply scan_line_only_blanked.
Qed.

Lemma blank_is_no_header :
  includes "certification" (trim (toLowerCase ""))
  || includes certificacao (trim (toLowerCase "")) = false.
Proof. reflexivity. Qed.

(** X6: when no line contains the header word, in either language, the
    section flag is false after every step of the scan, so the contextual
    fallback is never used. *)
Theorem scan_never_enters_section_without_header (lines0 : list string) :
  no_header lines0 ->
  forall n,
    inCertSection (fold_left scan_line (seq 0 n) (scan_start lines0)) = false /\
    forall originalLine,
      contextualMatch
        (inCertSection (fold_left scan_line (seq 0 n) (scan_start lines0)))
        originalLine = false.
Proof.
  intros Hno n.
  assert (Hflag : inCertSection (fold_left scan_line (seq 0 n) (scan_start lines0))
                  = false).
  { apply (fold_left_keeps
             (fun st => inCertSection st = false /\ only_blanked lines0 st)
             scan_line (seq 0 n) (scan_start lines0)).
    - split; [done |]. split; [done |]. split; [done |]. intros j l H. by right.
    - intros st i [Hf Hb]. split; [| by apply scan_line_only_blanked].
      apply scan_line_flag; [| done].
      destruct (lines st !! i) as [line |] eqn:Hi; simpl;
        [| exact blank_is_no_header].
      destruct Hb as (_ & _ & Hall).
      destruct (Hall _ _ Hi) as [-> | Hin]; [exact blank_is_no_header |].
      apply Hno. apply list_elem_of_In. by eapply list_elem_of_lookup_2. }
  split; [done |]. intros originalLine. by rewrite Hflag.
Qed.

(** ** Languages *)

Lemma fold_push_found_eq (textLower : string) (keywords acc : list string) :
  fold_left (push_found textLower) keywords acc =
  (acc ++ map capitalize (occurring keywords textLower))%list.
Proof.
  revert acc. induction keywords as [| k keywords IH]; intros acc; simpl.
  - by rewrite app_nil_r.
  - rewrite IH. unfold push_found.
    destruct (includes k textLower); simpl; [by rewrite <- app_assoc | done].
Qed.

Lemma programmingLanguages_lower :
  Forall (fun k => toLowerCase (capitalize k) = k) programmingLanguages.
Proof. repeat constructor. Qed.

Lemma programmingLanguages_NoDup : List.NoDup programmingLanguages.
Proof.
  apply NoDup_ListNoDup. refine (bool_decide_unpack _ _). by vm_compute.
Qed.

Lemma foundLanguages_eq (textLower : string) :
  foundLanguages textLower =
  map capitalize (occurring programmingLanguages textLower).
Proof. unfold foundLanguages. by rewrite fold_push_found_eq. Qed.

Lemma lower_names_found (textLower : string) :
  lower_names (map language_entry (foundLanguages textLower)) =
  occurring programmingLanguages textLower.
Proof.
  rewrite foundLanguages_eq. unfold lower_names, occurring.
  rewrite !map_map.
  pose proof programmingLanguages_lower as Hl. revert Hl.
  generalize programmingLanguages as ks.
  induction ks as [| k ks IH]; intros Hl; [done |].
  apply Forall_cons in Hl as [Hk Hks]. simpl.
  destruct (includes k textLower); simpl; [rewrite Hk; f_equal |];
    exact (IH Hks).
Qed.

(** X7: detection is by containment, so a language keyword is reported
    whenever the lower-cased text contains any word that contains the
    keyword: "Java" wherever "javascript" occurs, "Go" wherever "google"
    or "mongodb" occurs. *)
Theorem languages_of_containing_words (text keyword word : string) :
  In keyword programmingLanguages ->
  includes keyword word = true ->
  includes word (toLowerCase text) = true ->
  exists entries,
    languages (parseExtractedText text) = Some entries /\
    In (language_entry (capitalize keyword)) entries.
Proof.
  intros Hk Hkw Hw.
  pose proof (includes_trans _ _ _ Hkw Hw) as Hinc.
  assert (Hin : In (language_entry (capitalize keyword))
                  (map language_entry (foundLanguages (toLowerCase text)))).
  { apply in_map. by apply fold_push_found_In. }
  change (languages (parseExtractedText text))
    with (nonempty_list (map language_entry (foundLanguages (toLowerCase text)))).
  destruct (map language_entry (foundLanguages (toLowerCase text))); [done |].
  simpl. eauto.
Qed.

Lemma languages_of_containing_words_witness :
  (In "java" programmingLanguages /\
   includes "java" "javascript" = true /\
   includes "javascript" (toLowerCase javascript_text) = true) /\
  exists entries,
    languages (parseExtractedText javascript_text) = Some entries /\
    In (language_entry "Java") entries.
Proof.
  assert (Hk : In "java" programmingLanguages) by (vm_compute; tauto).
  split; [split; [exact Hk | split; reflexivity] |].
  exact (languages_of_containing_words javascript_text "java" "javascript"
           Hk eq_refl eq_refl).
Defined.

(** X8: the languages of a fragment are the keywords that occur in the
    lower-cased text, capitalized, in the order of the keyword list (not of
    the text), each once, all with proficiency "intermediate". *)
Theorem languages_in_keyword_order (text : string) (entries : list Language.t) :
  languages (parseExtractedText text) = Some entries ->
  map Language.name entries
    = map capitalize (occurring programmingLanguages (toLowerCase text)) /\
  List.NoDup (lower_names entries) /\
  List.length entries <= 20 /\
  Forall (fun e => Language.proficiency e = "intermediate" /\
                   Language.context e = Some "Extracted from PDF") entries.
Proof.
  change (languages (parseExtractedText text))
    with (nonempty_list (map language_entry (foundLanguages (toLowerCase text)))).
  intros Hl.
  assert (entries = map language_entry (foundLanguages (toLowerCase text))) as ->.
  { destruct (map language_entry _); [done | by inversion Hl]. }
  clear Hl. split.
  { rewrite foundLanguages_eq, map_map.
    generalize (map capitalize (occurring programmingLanguages (toLowerCase text))).
    intros l. induction l as [| x l IH]; [done |]. cbn [map]. by rewrite IH. }
  split.
  { rewrite lower_names_found. apply List.NoDup_filter, programmingLanguages_NoDup. }
  split.
  { rewrite length_map, foundLanguages_eq, length_map. unfold occurring.
    pose proof (List.filter_length_le
                  (fun keyword => includes keyword (toLowerCase text))
                  programmingLanguages) as Hle.
    change (List.length programmingLanguages) with 20 in Hle. exact Hle. }
  apply Forall_map. by apply Forall_true.
Qed.

Lemma languages_in_keyword_order_witness :
  languages (parseExtractedText javascript_text)
    = Some [ language_entry "Javascript"; language_entry "Java";
             language_entry "R" ] /\
  map Language.name
      [ language_entry "Javascript"; language_entry "Java"; language_entry "R" ]
    = map capitalize (occurring programmingLanguages (toLowerCase javascript_text)).
Proof.
  assert (H : languages (parseExtractedText javascript_text)
              = Some [ language_entry "Javascript"; language_entry "Java";
                       language_entry "R" ]) by reflexivity.
  split; [exact H |].
  exact (proj1 (languages_in_keyword_order javascript_text _ H)).
Defined.

(** ** The merge of the two lists *)

Lemma NoDup_map_filter {A} (key : A -> string) (f : A -> bool) (l : list A) :
  List.NoDup (map key l) -> List.NoDup (map key (List.filter f l)).
Proof.
  induction l as [| x l IH]; simpl; [done |].
  intros [Hx Hl]%List.NoDup_cons_iff. destruct (f x); simpl; [| by apply IH].
  constructor; [| by apply IH].
  intros (y & Hy & [Hin _]%filter_In)%in_map_iff.
  apply Hx. rewrite <- Hy. by apply in_map.
Qed.

Lemma merge_keyed_NoDup {A} (key : A -> string) (existing incoming : list A) :
  List.NoDup (map key existing) -> List.NoDup (map key incoming) ->
  List.NoDup
    (map key
       (existing ++
        List.filter (fun x => negb (arr_includes (key x) (map key existing)))
          incoming)).
Proof.
  intros He Hi. rewrite map_app.
  apply List.NoDup_app; [done | by apply NoDup_map_filter |].
  intros a Ha (y & <- & [_ Hy]%filter_In)%in_map_iff.
  apply negb_true_iff in Hy. apply arr_includes_In in Ha. congruence.
Qed.

(** X9: when the fragment has a contact list, the merged list is the
    existing one, in its order, followed by the incoming strings that the
    existing list does not have; if neither list has duplicates, neither
    has the merged one. *)
Theorem merged_contact_extends_existing (current extracted : ProfileData)
    (incoming : list string) :
  contact extracted = Some incoming ->
  let existing := default [] (contact current) in
  exists added,
    contact (mergeProfileData current extracted) = Some (existing ++ added)%list /\
    (forall c, In c added <-> In c incoming /\ ~ In c existing) /\
    (List.NoDup existing -> List.NoDup incoming ->
     List.NoDup (existing ++ added)%list).
Proof.
  intros Hinc existing. rewrite mergeProfileData_fields. simpl.
  unfold merged_contact. rewrite Hinc. fold existing.
  eexists. split; [reflexivity |]. split.
  - intros c. rewrite filter_In, negb_true_iff.
    rewrite <- (arr_includes_In c existing).
    destruct (arr_includes c existing); intuition congruence.
  - intros He Hi.
    pose proof (merge_keyed_NoDup (fun c : string => c) existing incoming) as H.
    rewrite !map_id in H. by apply H.
Qed.

(** X10: when the fragment has a languages list, the merged list is the
    existing entries, unchanged and in their order, followed by the
    incoming entries whose lower-cased name no existing entry has; names
    that are distinct up to case stay so. *)
Theorem merged_languages_extend_existing (current extracted : ProfileData)
    (incoming : list Language.t) :
  languages extracted = Some incoming ->
  let existing := default [] (languages current) in
  exists added,
    languages (mergeProfileData current extracted)
      = Some (existing ++ added)%list /\
    (forall lang,
       In lang added <->
       In lang incoming /\
       ~ In (toLowerCase (Language.name lang)) (lower_names existing)) /\
    (List.NoDup (lower_names existing) -> List.NoDup (lower_names incoming) ->
     List.NoDup (lower_names (existing ++ added)%list)).
Proof.
  intros Hinc existing. rewrite mergeProfileData_fields. simpl.
  unfold merged_languages. rewrite Hinc. fold existing.
  eexists. split; [reflexivity |]. split.
  - intros lang. rewrite filter_In, negb_true_iff.
    rewrite <- (arr_includes_In _ (lower_names existing)).
    destruct (arr_includes _ (lower_names existing)); intuition congruence.
  - intros He Hi.
    exact (merge_keyed_NoDup (fun lang => toLowerCase (Language.name lang))
             existing incoming He Hi).
Qed.

Lemma merged_lists_witness_facts :
  contact (parseExtractedText alice_text)
    = Some ["alice@example.com"; "https://github.com/alice."; "https://github.com/alice"] /\
  languages (parseExtractedText alice_text)
    = Some [ language_entry "Javascript"; language_entry "Java";
             language_entry "R" ].
Proof. split; by vm_compute. Qed.

Lemma merged_contact_extends_existing_witness :
  contact (parseExtractedText alice_text)
    = Some [ "alice@example.com"; "https://github.com/alice.";
             "https://github.com/alice" ] /\
  exists added,
    contact (mergeProfileData alice_profile (parseExtractedText alice_text))
      = Some (["https://github.com/alice"] ++ added)%list /\
    (forall c, In c added <->
       In c [ "alice@example.com"; "https://github.com/alice.";
              "https://github.com/alice" ] /\
       ~ In c ["https://github.com/alice"]) /\
    (List.NoDup ["https://github.com/alice"] ->
     List.NoDup [ "alice@example.com"; "https://github.com/alice.";
                  "https://github.com/alice" ] ->
     List.NoDup (["https://github.com/alice"] ++ added)%list).
Proof.
  split; [exact (proj1 merged_lists_witness_facts) |].
  exact (merged_contact_extends_existing alice_profile
           (parseExtractedText alice_text) _ (proj1 merged_lists_witness_facts)).
Defined.

Lemma merged_languages_extend_existing_witness :
  languages (parseExtractedText alice_text)
    = Some [ language_entry "Javascript"; language_entry "Java";
             language_entry "R" ] /\
  languages (mergeProfileData alice_profile (parseExtractedText alice_text))
    = Some [ Language.mk "java" "advanced" None;
             Language.mk "Portuguese" "native" None;
             language_entry "Javascript"; language_entry "R" ] /\
  exists added,
    languages (mergeProfileData alice_profile (parseExtractedText alice_text))
      = Some ([ Language.mk "java" "advanced" None;
                Language.mk "Portuguese" "native" None ] ++ added)%list.
Proof.
  split; [exact (proj2 merged_lists_witness_facts) |].
  split; [by vm_compute |].
  destruct (merged_languages_extend_existing alice_profile
              (parseExtractedText alice_text) _ (proj2 merged_lists_witness_facts))
    as (added & Heq & _).
  exists added. exact Heq.
Defined.

(** X11: merging what the extractor returns for any text into a record
    whose contact list has no duplicates and whose language names are
    distinct up to case leaves both so. *)
Theorem merge_of_extraction_keeps_lists_distinct (current : ProfileData)
    (text : string) :
  List.NoDup (default [] (contact current)) ->
  List.NoDup (lower_names (default [] (languages current))) ->
  let merged := mergeProfileData current (parseExtractedText text) in
  List.NoDup (default [] (contact merged)) /\
  List.NoDup (lower_names (default [] (languages merged))).
Proof.
  intros Hc Hl merged. subst merged. rewrite mergeProfileData_fields.
  cbn [contact languages]. split.
  - unfold merged_contact.
    change (contact (parseExtractedText text))
      with (nonempty_list (contactInfo text)).
    assert (Hnd : List.NoDup (contactInfo text)).
    { unfold contactInfo. rewrite dedup_keep_first. apply keep_first_NoDup. }
    destruct (contactInfo text) as [| c l]; unfold nonempty_list;
      cbv beta iota zeta; [done |].
    pose proof (merge_keyed_NoDup (fun c : string => c)
                  (default [] (contact current)) (c :: l)) as H.
    rewrite !map_id in H. by apply H.
  - unfold merged_languages.
    change (languages (parseExtractedText text))
      with (nonempty_list (map language_entry (foundLanguages (toLowerCase text)))).
    pose proof (lower_names_found (toLowerCase text)) as Hnames.
    destruct (map language_entry (foundLanguages (toLowerCase text)))
      as [| e l]; unfold nonempty_list; cbv beta iota zeta; [done |].
    apply (merge_keyed_NoDup (fun lang => toLowerCase (Language.name lang)));
      [done |].
    fold (lower_names (e :: l)). rewrite Hnames.
    apply List.NoDup_filter, programmingLanguages_NoDup.
Qed.

Lemma merge_of_extraction_keeps_lists_distinct_witness :
  List.NoDup (default [] (contact alice_profile)) /\
  List.NoDup (lower_names (default [] (languages alice_profile))) /\
  List.NoDup
    (default [] (contact (mergeProfileData alice_profile
                            (parseExtractedText alice_text)))) /\
  List.NoDup
    (lower_names
       (default [] (languages (mergeProfileData alice_profile
                                 (parseExtractedText alice_text))))).
Proof.
  assert (Hc : List.NoDup (default [] (contact alice_profile))).
  { simpl. constructor; [intros [] | constructor]. }
  assert (Hl : List.NoDup (lower_names (default [] (languages alice_profile)))).
  { apply NoDup_ListNoDup. refine (bool_decide_unpack _ _). by vm_compute. }
  split; [exact Hc |]. split; [exact Hl |].
  exact (merge_of_extraction_keeps_lists_distinct alice_profile alice_text Hc Hl).
Defined.

(** ** The merge of an empty extraction, of maps and of skills *)

(** X12: a text in which nothing is found (the empty text, for one)
    gives a fragment without any property, and merging such a fragment
    returns the current record as it is. *)
Theorem merge_of_empty_extraction (current : ProfileData) (text : string) :
  contactInfo text = [] ->
  foundLanguages (toLowerCase text) = [] ->
  foundSkills (toLowerCase text) = [] ->
  extract_certifications text = ∅ ->
  educationData (toLowerCase text) = ∅ ->
  parseExtractedText text = empty_profile /\
  mergeProfileData current (parseExtractedText text) = current.
Proof.
  intros Hc Hl Hs Hcert Hedu.
  assert (Hp : parseExtractedText text = empty_profile).
  { unfold parseExtractedText. cbv zeta. rewrite Hc, Hl, Hs, Hcert, Hedu.
    reflexivity. }
  split; [exact Hp |]. rewrite Hp, mergeProfileData_fields.
  by destruct current.
Qed.

Lemma merge_of_empty_extraction_witness :
  parseExtractedText "" = empty_profile /\
  mergeProfileData alice_profile (parseExtractedText "") = alice_profile.
Proof.
  exact (merge_of_empty_extraction alice_profile ""
           eq_refl eq_refl eq_refl eq_refl eq_refl).
Defined.

(** X13: the merge of the two maps loses no key: the keys of the merged
    certifications (and education) are those of the current record
    together with those of the fragment. *)
Theorem merged_maps_keep_every_key (current extracted : ProfileData)
    (incoming : gmap string json) :
  (certifications extracted = Some incoming ->
   exists merged,
     certifications (mergeProfileData current extracted) = Some merged /\
     dom merged = dom incoming ∪ dom (default ∅ (certifications current))) /\
  (superior_education extracted = Some incoming ->
   exists merged,
     superior_education (mergeProfileData current extracted) = Some merged /\
     dom merged = dom incoming ∪ dom (default ∅ (superior_education current))).
Proof.
  rewrite mergeProfileData_fields. simpl.
  split; intros ->; simpl; eexists; (split; [reflexivity |]);
    unfold spread; apply dom_union_L.
Qed.

Lemma merged_maps_keep_every_key_witness :
  (exists merged,
     certifications (mergeProfileData curated_profile conflicting_fragment)
       = Some merged /\
     dom merged
       = dom ({[ "aws_certified" := certEntry "AWS Certified" ]} : gmap string json)
         ∪ dom (default ∅ (certifications curated_profile))) /\
  (exists merged,
     superior_education
       (mergeProfileData curated_education_profile education_fragment)
       = Some merged /\
     dom merged
       = dom ({[ "computer_engineering_upe" := computer_engineering_upe ]}
                : gmap string json)
         ∪ dom (default ∅ (superior_education curated_education_profile))).
Proof.
  split.
  - exact (proj1 (merged_maps_keep_every_key curated_profile conflicting_fragment
                    {[ "aws_certified" := certEntry "AWS Certified" ]}) eq_refl).
  - exact (proj2 (merged_maps_keep_every_key curated_education_profile
                    education_fragment
                    {[ "computer_engineering_upe" := computer_engineering_upe ]})
             eq_refl).
Defined.

(** X14: when the text names a tool, the merged technical_skills have
    the tools found in the text as their tools_and_technologies, whatever
    list the current record had there, and the three other lists of the
    current record. *)
Theorem merge_of_extraction_replaces_tools (current : ProfileData)
    (text : string) :
  foundSkills (toLowerCase text) <> [] ->
  exists skills,
    technical_skills (mergeProfileData current (parseExtractedText text))
      = Some skills /\
    tools_and_technologies skills = Some (foundSkills (toLowerCase text)) /\
    let existing := default no_skills (technical_skills current) in
    operating_systems skills = operating_systems existing /\
    programming_languages skills = programming_languages existing /\
    areas_of_expertise skills = areas_of_expertise existing.
Proof.
  intros Hfound. rewrite mergeProfileData_fields. simpl.
  unfold merged_skills.
  change (technical_skills (parseExtractedText text))
    with (match foundSkills (toLowerCase text) with
          | [] => None
          | skills =>
              Some {| operating_systems := None; programming_languages := None;
                      areas_of_expertise := None;
                      tools_and_technologies := Some skills |}
          end).
  destruct (foundSkills (toLowerCase text)) as [| s l]; [done |].
  eexists. split; [reflexivity |]. by repeat split.
Qed.

Lemma merge_of_extraction_replaces_tools_witness :
  foundSkills (toLowerCase alice_text) = ["Docker"; "Git"] /\
  tools_and_technologies (default no_skills (technical_skills alice_profile))
    = Some ["Vim"] /\
  exists skills,
    technical_skills (mergeProfileData alice_profile (parseExtractedText alice_text))
      = Some skills /\
    tools_and_technologies skills = Some ["Docker"; "Git"].
Proof.
  split; [reflexivity |]. split; [reflexivity |].
  assert (Hne : foundSkills (toLowerCase alice_text) <> [])
    by (intros H; vm_compute in H; discriminate H).
  destruct (merge_of_extraction_replaces_tools alice_profile alice_text Hne)
    as (skills & Heq & Htools & _).
  exists skills. split; [exact Heq | exact Htools].
Defined.

(** ** The unwanted patterns

    [/^certificações?$/i] is "certificaçõe" with an optional "s": it
    removes the lines "Certificaçõe" and "Certificações" from the scan and
    leaves "Certificaçõess" in it. *)

Example unwantedPatterns_certificacoes :
  existsb (fun pattern => test pattern ("C" ++ substring 1 11 certificacoe))
    unwantedPatterns = true /\
  existsb (fun pattern => test pattern ("C" ++ substring 1 12 certificacoes))
    unwantedPatterns = true /\
  existsb (fun pattern => test pattern (certificacoes ++ "s"))
    unwantedPatterns = false.
Proof. by vm_compute. Qed.

(** ** saveProfile: the three ways it ends *)

Lemma backupPathAt_other (profilePath : string) (timestamp : N) :
  backupPathAt profilePath timestamp <> profilePath.
Proof.
  unfold backupPathAt. intros Heq.
  apply (f_equal String.length) in Heq.
  rewrite length_append, (length_append ".backup.") in Heq. simpl in Heq. lia.
Qed.

Section SaveProfileRuns.

Variable profilePath : string.
Variable stringify : ProfileData -> string.
Variable profile : ProfileData.
Variable w : world.

Let backupPath : string := backupPathAt profilePath (now w).

Lemma saveProfile_ok (old : string) :
  files w !! profilePath = Some old ->
  profilePath ∉ denied w -> backupPath ∉ denied w ->
  exists w',
    saveProfile profilePath stringify profile w = Returns tt w' /\
    files w' !! profilePath = Some (stringify profile) /\
    files w' !! backupPath = Some old /\
    (forall path, path <> profilePath -> path <> backupPath ->
       files w' !! path = files w !! path) /\
    calls w' =
      (calls w ++ [ copyFileSync_call profilePath backupPath;
                    console_log ("Backup created: " ++ backupPath);
                    writeFileSync_call profilePath (stringify profile);
                    console_log "Profile updated successfully" ])%list.
Proof.
  intros Hold Hp Hb.
  unfold saveProfile, try_catch, mbind, M_bind, Date_now, copyFileSync,
    writeFileSync, record. fold backupPath. simpl.
  rewrite Hold. rewrite (bool_decide_eq_false_2 _ Hb). simpl.
  rewrite (bool_decide_eq_false_2 _ Hp). simpl.
  eexists. split; [reflexivity |]. simpl.
  pose proof (backupPathAt_other profilePath (now w)) as Hne. fold backupPath in Hne.
  split; [by rewrite lookup_insert_eq |].
  split; [by rewrite lookup_insert_ne, lookup_insert_eq |].
  split; [intros path H1 H2; by rewrite !lookup_insert_ne |].
  by rewrite <- !app_assoc.
Qed.

Lemma saveProfile_missing :
  files w !! profilePath = None ->
  exists w',
    saveProfile profilePath stringify profile w
      = Throws (ENOENT profilePath) w' /\
    files w' = files w /\
    List.filter is_write (calls w') = List.filter is_write (calls w).
Proof.
  intros Hnone.
  unfold saveProfile, try_catch, mbind, M_bind, Date_now, copyFileSync,
    record, throw. fold backupPath. simpl. rewrite Hnone. simpl.
  eexists. split; [reflexivity |]. simpl. split; [done |].
  rewrite <- app_assoc, List.filter_app. simpl. by rewrite app_nil_r.
Qed.

Lemma saveProfile_missing_calls :
  files w !! profilePath = None ->
  exists w',
    saveProfile profilePath stringify profile w
      = Throws (ENOENT profilePath) w' /\
    files w' = files w /\
    calls w' =
      (calls w ++ [ copyFileSync_call profilePath backupPath;
                    console_error "Error saving profile:" (ENOENT profilePath) ])%list.
Proof.
  intros Hnone.
  unfold saveProfile, try_catch, mbind, M_bind, Date_now, copyFileSync,
    record, throw. fold backupPath. simpl. rewrite Hnone. simpl.
  eexists. split; [reflexivity |]. simpl. split; [done |].
  by rewrite <- app_assoc.
Qed.

(** X15: when the stored record exists and both paths can be written,
    [saveProfile] returns; afterwards the backup path holds the content
    the record had, the record's path holds the new serialization, and
    every other file is as it was. *)
Theorem saveProfile_success (old : string) :
  files w !! profilePath = Some old ->
  profilePath ∉ denied w -> backupPath ∉ denied w ->
  exists w',
    saveProfile profilePath stringify profile w = Returns tt w' /\
    files w' !! profilePath = Some (stringify profile) /\
    files w' !! backupPath = Some old /\
    (forall path, path <> profilePath -> path <> backupPath ->
       files w' !! path = files w !! path) /\
    calls w' =
      (calls w ++ [ copyFileSync_call profilePath backupPath;
                    console_log ("Backup created: " ++ backupPath);
                    writeFileSync_call profilePath (stringify profile);
                    console_log "Profile updated successfully" ])%list.
Proof. exact (saveProfile_ok old). Qed.

(** X16: when the copy succeeds and the write of the record throws, the
    method prints the error and throws it; the backup holds the content
    the record had, and every file other than the record and the backup is
    as it was.  The record itself is as it was only when the write failed
    at opening the file (EACCES); when it failed after opening it (ENOSPC)
    the record holds what the failed write left, and its previous content
    is in the backup only. *)
Theorem saveProfile_failed_write_keeps_backup (old : string) :
  files w !! profilePath = Some old ->
  backupPath ∉ denied w -> profilePath ∈ denied w ->
  exists e w',
    saveProfile profilePath stringify profile w = Throws e w' /\
    files w' !! backupPath = Some old /\
    (forall path, path <> profilePath -> path <> backupPath ->
       files w' !! path = files w !! path) /\
    calls w' =
      (calls w ++ [ copyFileSync_call profilePath backupPath;
                    console_log ("Backup created: " ++ backupPath);
                    writeFileSync_call profilePath (stringify profile);
                    console_error "Error saving profile:" e ])%list /\
    match torn w !! profilePath with
    | None => e = EACCES profilePath /\ files w' !! profilePath = Some old
    | Some remains =>
        e = ENOSPC profilePath /\ files w' !! profilePath = Some remains
    end.
Proof.
  intros Hold Hb Hp.
  pose proof (backupPathAt_other profilePath (now w)) as Hne. fold backupPath in Hne.
  unfold saveProfile, try_catch, mbind, M_bind, Date_now, copyFileSync,
    writeFileSync, record, throw. fold backupPath. simpl.
  rewrite Hold. rewrite (bool_decide_eq_false_2 _ Hb). simpl.
  rewrite (bool_decide_eq_true_2 _ Hp).
  destruct (torn w !! profilePath) as [remains |]; simpl;
    eexists; eexists; (split; [reflexivity |]); simpl.
  - split; [by rewrite lookup_insert_ne, lookup_insert_eq |].
    split; [intros path H1 H2; by rewrite !lookup_insert_ne |].
    split; [by rewrite <- !app_assoc |].
    split; [done | by rewrite lookup_insert_eq].
  - split; [by rewrite lookup_insert_eq |].
    split; [intros path H1 H2; by rewrite !lookup_insert_ne |].
    split; [by rewrite <- !app_assoc |].
    split; [done | by rewrite lookup_insert_ne].
Qed.

(** X17: [saveProfile] does not create the stored record: when the
    record's file does not exist the copy throws ENOENT, the method throws
    it too, and no file is written. *)
Theorem saveProfile_needs_existing_record :
  files w !! profilePath = None ->
  exists w',
    saveProfile profilePath stringify profile w
      = Throws (ENOENT profilePath) w' /\
    files w' = files w /\
    List.filter is_write (calls w') = List.filter is_write (calls w).
Proof. exact saveProfile_missing. Qed.

End SaveProfileRuns.

(** ** Instances *)

Lemma phone_ok_digit_count_witness :
  In "+5581999998888" (potentialPhones year_text) /\
  10 <= String.length (string_filter is_digit "+5581999998888") <= 15 /\
  In "+5581999998888" (phones year_text).
Proof.
  assert (Hin : In "+5581999998888" (potentialPhones year_text))
    by (vm_compute; tauto).
  assert (Hlen : 10 <= String.length (string_filter is_digit "+5581999998888") <= 15)
    by (vm_compute; lia).
  split; [exact Hin |]. split; [exact Hlen |].
  exact (proj2 (phone_ok_digit_count year_text "+5581999998888") (conj Hin Hlen)).
Defined.

Lemma contactInfo_kinds_witness :
  In "a@b.co" (contactInfo twice_text) /\
  (includes "@" "a@b.co" = true \/
   10 <= String.length (string_filter is_digit "a@b.co") <= 15 \/
   (startsWith "http://" "a@b.co" = true \/ startsWith "https://" "a@b.co" = true) \/
   startsWith "https://linkedin.com/in/" "a@b.co" = true \/
   startsWith "https://github.com/" "a@b.co" = true).
Proof.
  assert (Hin : In "a@b.co" (contactInfo twice_text)) by (vm_compute; tauto).
  split; [exact Hin |].
  exact (contactInfo_kinds twice_text "a@b.co" Hin).
Defined.

Lemma extract_certifications_keys_witness :
  extract_certifications boundary_text !! "aws_certified_cloud_practitioner"
    = Some (certEntry "AWS Certified Cloud Practitioner") /\
  exists certName,
    certEntry "AWS Certified Cloud Practitioner" = certEntry certName /\
    "aws_certified_cloud_practitioner" = certKey certName /\
    3 < String.length "aws_certified_cloud_practitioner" /\
    string_forallb is_key_unit "aws_certified_cloud_practitioner" = true /\
    "aws_certified_cloud_practitioner" <> "constructor" /\
    "aws_certified_cloud_practitioner" <> "__proto__".
Proof.
  assert (H : extract_certifications boundary_text
              !! "aws_certified_cloud_practitioner"
              = Some (certEntry "AWS Certified Cloud Practitioner"))
    by (by vm_compute).
  split; [exact H |].
  exact (extract_certifications_keys boundary_text _ _ H).
Defined.

Lemma certificates_first_writer_wins_witness :
  found (scan_lines (split LF boundary_text)) !! "aws_certified_cloud_practitioner"
    = Some (certEntry "AWS Certified Cloud Practitioner") /\
  extract_certifications boundary_text !! "aws_certified_cloud_practitioner"
    = Some (certEntry "AWS Certified Cloud Practitioner") /\
  found (scan_line (scan_lines (split LF boundary_text)) 1)
    !! "aws_certified_cloud_practitioner"
    = Some (certEntry "AWS Certified Cloud Practitioner").
Proof.
  assert (H : found (scan_lines (split LF boundary_text))
              !! "aws_certified_cloud_practitioner"
              = Some (certEntry "AWS Certified Cloud Practitioner"))
    by (by vm_compute).
  split; [exact H |]. split.
  - exact (proj2 (certificates_first_writer_wins _ _) boundary_text H).
  - exact (proj1 (certificates_first_writer_wins _ _) _ 1 H).
Defined.

Lemma scan_lines_only_blanks_witness :
  lines (scan_lines continuation_lines) !! 2 = Some "" /\
  ("" = "" \/ continuation_lines !! 2 = Some "").
Proof.
  assert (H : lines (scan_lines continuation_lines) !! 2 = Some "")
    by (by vm_compute).
  split; [exact H |].
  exact (proj2 (proj2 (scan_lines_only_blanks continuation_lines)) 2 "" H).
Defined.

Lemma provider_lines_no_header : no_header provider_lines.
Proof.
  intros line [<- | [<- | [<- | []]]]; reflexivity.
Defined.

Lemma scan_never_enters_section_without_header_witness :
  no_header provider_lines /\
  inCertSection (fold_left scan_line (seq 0 3) (scan_start provider_lines)) = false /\
  map_to_list (found (scan_lines provider_lines))
    = [ ("aws_cloud_practitioner_basics",
         certEntry "AWS Cloud Practitioner basics") ].
Proof.
  split; [exact provider_lines_no_header |].
  split; [| vm_compute; reflexivity].
  exact (proj1 (scan_never_enters_section_without_header provider_lines
                  provider_lines_no_header 3)).
Defined.

Lemma saveProfile_success_witness :
  files stored_world !! "data/profile.json" = Some "{}" /\
  exists w',
    saveProfile "data/profile.json" sample_stringify
      (set_contact ["a@b.co"] empty_profile) stored_world = Returns tt w' /\
    files w' !! "data/profile.json"
      = Some (sample_stringify (set_contact ["a@b.co"] empty_profile)) /\
    files w' !! "data/profile.json.backup.1700000000000" = Some "{}".
Proof.
  split; [reflexivity |].
  destruct (saveProfile_success "data/profile.json" sample_stringify
              (set_contact ["a@b.co"] empty_profile) stored_world "{}" eq_refl)
    as (w' & Hrun & Hp & Hb & _); [apply not_elem_of_empty .. |].
  exists w'. split; [exact Hrun |]. split; [exact Hp | exact Hb].
Defined.

Lemma saveProfile_failed_write_keeps_backup_witness :
  (files full_disk_world !! "data/profile.json" = Some "{ }" /\
   torn full_disk_world !! "data/profile.json" = Some "{") /\
  exists w',
    saveProfile "data/profile.json" sample_stringify empty_profile
      full_disk_world
      = Throws (ENOSPC "data/profile.json") w' /\
    files w' !! "data/profile.json" = Some "{" /\
    files w' !! "data/profile.json.backup.1700000000000" = Some "{ }".
Proof.
  assert (Htorn : torn full_disk_world !! "data/profile.json" = Some "{")
    by reflexivity.
  split; [split; [reflexivity | exact Htorn] |].
  destruct (saveProfile_failed_write_keeps_backup "data/profile.json"
              sample_stringify empty_profile full_disk_world "{ }" eq_refl)
    as (e & w' & Hrun & Hb & _ & _ & Hrecord).
  - simpl. intros H%elem_of_singleton. discriminate H.
  - simpl. by apply elem_of_singleton.
  - rewrite Htorn in Hrecord. destruct Hrecord as [-> Hp].
    exists w'. split; [exact Hrun |]. split; [exact Hp | exact Hb].
Defined.

Lemma saveProfile_needs_existing_record_witness :
  files fresh_world !! "data/profile.json" = None /\
  exists w',
    saveProfile "data/profile.json" sample_stringify
      (set_contact ["a@b.co"] empty_profile) fresh_world
      = Throws (ENOENT "data/profile.json") w' /\
    files w' = files fresh_world.
Proof.
  split; [reflexivity |].
  destruct (saveProfile_needs_existing_record "data/profile.json"
              sample_stringify (set_contact ["a@b.co"] empty_profile)
              fresh_world eq_refl)
    as (w' & Hrun & Hf & _).
  exists w'. split; [exact Hrun | exact Hf].
Defined.

(** ** extractAndMerge *)

Section ExtractorRuns.

Variable profilePath pdfPath : string.
Variable pdf : string -> string + string.
Variable JSON_parse : string -> ProfileData + string.
Variable stringify : ProfileData -> string.
Variable inspect : ProfileData -> string.

Abbreviation run :=
  (extractAndMerge profilePath pdfPath pdf JSON_parse stringify inspect).
Abbreviation preview := (previewExtraction pdfPath pdf stringify).

Lemma require_pdf_missing (s : session) :
  files (disk s) !! pdfPath = None ->
  require_pdf pdfPath s = Failed (Error ("PDF file not found: " ++ pdfPath)) s.
Proof.
  intros Hnone. unfold require_pdf, mbind, P_bind, existsSync.
  rewrite Hnone. rewrite bool_decide_eq_false_2; [done |]. by intros [? ?].
Qed.

Lemma require_pdf_present (s : session) (data : string) :
  files (disk s) !! pdfPath = Some data -> require_pdf pdfPath s = Done tt s.
Proof.
  intros Hsome. unfold require_pdf, mbind, P_bind, existsSync.
  rewrite Hsome. rewrite bool_decide_eq_true_2; [done | eauto].
Qed.

Lemma extractTextFromPDF_text (s : session) (data text : string) :
  files (disk s) !! pdfPath = Some data -> pdf data = inl text ->
  extractTextFromPDF pdfPath pdf s = Done text s.
Proof.
  intros Hsome Hpdf.
  unfold extractTextFromPDF, attempt, mbind, P_bind, readFileSync.
  by rewrite Hsome, Hpdf.
Qed.

(** What [loadCurrentProfile] returns: it never throws. *)
Lemma loadCurrentProfile_returns (s : session) :
  exists s',
    loadCurrentProfile profilePath JSON_parse s
      = Done (loaded JSON_parse (files (disk s) !! profilePath)) s' /\
    disk s' = disk s.
Proof.
  unfold loadCurrentProfile, attempt, mbind, P_bind, readFileSync, loaded,
    console_error_line, raise, mret, P_ret.
  destruct (files (disk s) !! profilePath) as [content |]; [| eauto].
  destruct (JSON_parse content); eauto.
Qed.

(** X18: without the PDF, [extractAndMerge] fails with the error
    "PDF file not found: <path>" before it reads or writes anything: the
    files are as they were, the only line printed is the first one, and the
    error is printed once and thrown again. *)
Theorem extractAndMerge_without_pdf (s : session) :
  files (disk s) !! pdfPath = None ->
  let e := Error ("PDF file not found: " ++ pdfPath) in
  exists s',
    run s = Failed e s' /\
    files (disk s') = files (disk s) /\
    calls (disk s') =
      (calls (disk s) ++ [console_log "Starting PDF data extraction..."])%list /\
    error_lines s' =
      (error_lines s ++ [("Error during extraction and merge:", e)])%list.
Proof.
  intros Hnone e.
  unfold extractAndMerge, attempt.
  unfold mbind at 1. unfold P_bind at 1.
  unfold console_log_line at 1. unfold lift, record. cbn [disk error_lines].
  unfold mbind at 1. unfold P_bind at 1.
  rewrite require_pdf_missing by done.
  unfold mbind, P_bind, console_error_line, raise. cbn [disk error_lines].
  eexists. split; [reflexivity |]. by cbn.
Qed.

Lemma log_then {A} (message : string) (k : P A) (s : session) :
  (console_log_line message ;; k) s = k (logged message s).
Proof. reflexivity. Qed.

Lemma bind_done {A B} (m : P A) (f : A -> P B) (s s' : session) (a : A) :
  m s = Done a s' -> (m ≫= f) s = f a s'.
Proof. intros H. unfold mbind, P_bind. by rewrite H. Qed.

(** X19: with a readable PDF, a stored record and writable paths,
    [extractAndMerge] returns; the stored file then holds the
    serialization of the merge of what the file parsed to (the empty
    record when it did not parse) with the fragment of the PDF text, and
    the backup holds the file's previous content. *)
Theorem extractAndMerge_success (s : session) (data text old : string) :
  files (disk s) !! pdfPath = Some data -> pdf data = inl text ->
  files (disk s) !! profilePath = Some old ->
  profilePath ∉ denied (disk s) ->
  backupPathAt profilePath (now (disk s)) ∉ denied (disk s) ->
  exists s',
    run s = Done tt s' /\
    files (disk s') !! profilePath
      = Some (stringify
                (mergeProfileData (loaded JSON_parse (Some old))
                   (parseExtractedText text))) /\
    files (disk s') !! backupPathAt profilePath (now (disk s)) = Some old /\
    (forall path, path <> profilePath ->
       path <> backupPathAt profilePath (now (disk s)) ->
       files (disk s') !! path = files (disk s) !! path).
Proof.
  intros Hpdf Htext Hold Hp Hb.
  unfold extractAndMerge, attempt.
  rewrite log_then.
  match goal with
  | |- context [(require_pdf pdfPath ≫= ?f) ?st] =>
      rewrite (bind_done _ f st st tt (require_pdf_present st data Hpdf))
  end.
  rewrite log_then.
  match goal with
  | |- context [(extractTextFromPDF pdfPath pdf ≫= ?f) ?st] =>
      rewrite (bind_done _ f st st text
                 (extractTextFromPDF_text st data text Hpdf Htext))
  end.
  rewrite ?log_then. cbv zeta. rewrite ?log_then.
  match goal with
  | |- context [(loadCurrentProfile profilePath JSON_parse ≫= ?f) ?st] =>
      destruct (loadCurrentProfile_returns st) as (s7 & Hload & Hdisk);
      rewrite (bind_done _ f st s7 _ Hload)
  end.
  rewrite ?log_then. cbn [disk logged files record_call]. rewrite Hold.
  set (merged := mergeProfileData _ _).
  assert (Hfiles : files (disk s7) = files (disk s)) by by rewrite Hdisk.
  assert (Hdenied : denied (disk s7) = denied (disk s)) by by rewrite Hdisk.
  assert (Hnow : now (disk s7) = now (disk s)) by by rewrite Hdisk.
  destruct (saveProfile_ok profilePath stringify merged
              (record_call (console_log "Saving updated profile...")
                 (record_call (console_log "Merging profile data...") (disk s7)))
              old) as (w' & Hsave & Hfp & Hfb & Hother & _).
  { cbn. by rewrite Hfiles. }
  { cbn. by rewrite Hdenied. }
  { cbn. by rewrite Hdenied, Hnow. }
  cbn [now record_call] in Hfb, Hother. rewrite Hnow in Hfb, Hother.
  cbn [files record_call] in Hother. rewrite Hfiles in Hother.
  unfold mbind, P_bind, lift. cbn [disk error_lines logged]. rewrite Hsave.
  unfold console_log_line, lift, record. cbn [disk error_lines].
  eexists. split; [reflexivity |]. cbn [disk files record_call].
  split; [exact Hfp |]. split; [exact Hfb | exact Hother].
Qed.

Lemma loadCurrentProfile_missing (s : session) :
  files (disk s) !! profilePath = None ->
  loadCurrentProfile profilePath JSON_parse s =
  Done empty_profile
    {| disk := disk s;
       error_lines :=
         error_lines s ++
         [("Error loading current profile:", FsError (ENOENT profilePath))] |}.
Proof.
  intros Hnone.
  unfold loadCurrentProfile, attempt, mbind, P_bind, readFileSync.
  by rewrite Hnone.
Qed.

(** X20: on a first run, when the stored record does not exist, the
    PDF is read and parsed, [loadCurrentProfile] prints the error and goes
    on with the empty record, and [saveProfile] then throws ENOENT from
    the copy, prints it and throws it again: [extractAndMerge] prints it
    once more and fails, and no file is created or changed.  Three error
    lines are printed: the one of [loadCurrentProfile], the one of
    [saveProfile] (the last of the calls, right after the copy; there is no
    write), and the one of [extractAndMerge]. *)
Theorem extractAndMerge_cannot_create_record (s : session) (data text : string) :
  files (disk s) !! pdfPath = Some data -> pdf data = inl text ->
  files (disk s) !! profilePath = None ->
  exists s',
    run s = Failed (FsError (ENOENT profilePath)) s' /\
    files (disk s') = files (disk s) /\
    List.filter is_write (calls (disk s')) = List.filter is_write (calls (disk s)) /\
    calls (disk s') =
      (calls (disk s) ++
       [ console_log "Starting PDF data extraction...";
         console_log "Extracting text from PDF...";
         console_log "PDF text extracted successfully";
         console_log "Parsing extracted data...";
         console_log ("Extracted data: " ++ inspect (parseExtractedText text));
         console_log "Loading current profile...";
         console_log "Merging profile data...";
         console_log "Saving updated profile...";
         copyFileSync_call profilePath (backupPathAt profilePath (now (disk s)));
         console_error "Error saving profile:" (ENOENT profilePath) ])%list /\
    error_lines s' =
      (error_lines s ++
       [ ("Error loading current profile:", FsError (ENOENT profilePath));
         ("Error during extraction and merge:", FsError (ENOENT profilePath)) ])%list.
Proof.
  intros Hpdf Htext Hnone.
  unfold extractAndMerge, attempt.
  rewrite log_then.
  match goal with
  | |- context [(require_pdf pdfPath ≫= ?f) ?st] =>
      rewrite (bind_done _ f st st tt (require_pdf_present st data Hpdf))
  end.
  rewrite log_then.
  match goal with
  | |- context [(extractTextFromPDF pdfPath pdf ≫= ?f) ?st] =>
      rewrite (bind_done _ f st st text
                 (extractTextFromPDF_text st data text Hpdf Htext))
  end.
  rewrite ?log_then. cbv zeta. rewrite ?log_then.
  match goal with
  | |- context [(loadCurrentProfile profilePath JSON_parse ≫= ?f) ?st] =>
      rewrite (bind_done _ f st _ _ (loadCurrentProfile_missing st Hnone))
  end.
  rewrite ?log_then.
  set (merged := mergeProfileData _ _).
  match goal with
  | |- context [lift (saveProfile _ _ _) ≫= _] =>
      unfold mbind, P_bind, lift
  end.
  cbn [disk error_lines logged].
  match goal with
  | |- context [saveProfile profilePath stringify merged ?w] =>
      destruct (saveProfile_missing_calls profilePath stringify merged w)
        as (w' & Hsave & Hfiles & Hcalls); [exact Hnone |];
      rewrite Hsave
  end.
  unfold console_error_line, raise. cbn [disk error_lines].
  eexists. split; [reflexivity |]. cbn [disk error_lines].
  cbn [calls now record_call] in Hcalls. rewrite <- !app_assoc in Hcalls.
  cbn [app] in Hcalls.
  split; [exact Hfiles |]. split; [| split].
  - rewrite Hcalls. rewrite List.filter_app. simpl. by rewrite app_nil_r.
  - exact Hcalls.
  - by rewrite <- app_assoc.
Qed.

Lemma bind_failed {A B} (m : P A) (f : A -> P B) (s s' : session) (e : error) :
  m s = Failed e s' -> (m ≫= f) s = Failed e s'.
Proof. intros H. unfold mbind, P_bind. by rewrite H. Qed.

Lemma extractTextFromPDF_rejected (s : session) (data reason : string) :
  files (disk s) !! pdfPath = Some data -> pdf data = inr reason ->
  extractTextFromPDF pdfPath pdf s =
  Failed (PdfError reason)
    {| disk := disk s;
       error_lines := error_lines s ++ [("Error reading PDF:", PdfError reason)] |}.
Proof.
  intros Hsome Hpdf.
  unfold extractTextFromPDF, attempt, mbind, P_bind, readFileSync.
  by rewrite Hsome, Hpdf.
Qed.

Lemma filter_logged (f : call -> bool) (l : list call) (message : string) :
  f (console_log message) = false ->
  List.filter f (l ++ [console_log message]) = List.filter f l.
Proof. intros H. rewrite List.filter_app. simpl. by rewrite H, app_nil_r. Qed.

(** X21: [previewExtraction] changes no file and calls neither
    [copyFileSync] nor [writeFileSync], whether it returns or throws. *)
Theorem previewExtraction_writes_nothing (s : session) :
  let s' := result_session (preview s) in
  files (disk s') = files (disk s) /\
  List.filter (fun c => is_write c || is_copy c) (calls (disk s'))
    = List.filter (fun c => is_write c || is_copy c) (calls (disk s)).
Proof.
  intros s'. subst s'. unfold previewExtraction, attempt. rewrite log_then.
  destruct (files (disk s) !! pdfPath) as [data |] eqn:Hpdf.
  - match goal with
    | |- context [(require_pdf pdfPath ≫= ?f) ?st] =>
        rewrite (bind_done _ f st st tt (require_pdf_present st data Hpdf))
    end.
    destruct (pdf data) as [text | reason] eqn:Htext.
    + match goal with
      | |- context [(extractTextFromPDF pdfPath pdf ≫= ?f) ?st] =>
          rewrite (bind_done _ f st st text
                     (extractTextFromPDF_text st data text Hpdf Htext))
      end.
      rewrite ?log_then. cbv zeta. rewrite ?log_then.
      unfold console_log_line, lift, record.
      cbn [result_session disk error_lines logged files calls record_call].
      split; [done |]. by rewrite !filter_logged.
    + match goal with
      | |- context [(extractTextFromPDF pdfPath pdf ≫= ?f) ?st] =>
          rewrite (bind_failed _ f st _ _
                     (extractTextFromPDF_rejected st data reason Hpdf Htext))
      end.
      unfold mbind, P_bind, console_error_line, raise.
      cbn [result_session disk error_lines logged files calls record_call].
      split; [done |]. by rewrite !filter_logged.
  - match goal with
    | |- context [(require_pdf pdfPath ≫= ?f) ?st] =>
        rewrite (bind_failed _ f st _ _ (require_pdf_missing st Hpdf))
    end.
    unfold mbind, P_bind, console_error_line, raise.
    cbn [result_session disk error_lines logged files calls record_call].
    split; [done |]. by rewrite !filter_logged.
Qed.

End ExtractorRuns.

Lemma extractAndMerge_without_pdf_witness :
  files (disk no_pdf_run) !! "data/profile.pdf" = None /\
  exists s',
    extractAndMerge "data/profile.json" "data/profile.pdf" sample_pdf
      sample_parse sample_stringify sample_stringify no_pdf_run
      = Failed (Error "PDF file not found: data/profile.pdf") s' /\
    files (disk s') = files (disk no_pdf_run).
Proof.
  split; [reflexivity |].
  destruct (extractAndMerge_without_pdf "data/profile.json" "data/profile.pdf"
              sample_pdf sample_parse sample_stringify sample_stringify
              no_pdf_run eq_refl)
    as (s' & Hrun & Hfiles & _).
  exists s'. split; [exact Hrun | exact Hfiles].
Defined.

Lemma extractAndMerge_success_witness :
  (files (disk later_run) !! "data/profile.pdf" = Some "%PDF" /\
   files (disk later_run) !! "data/profile.json" = Some "{}") /\
  exists s',
    extractAndMerge "data/profile.json" "data/profile.pdf" sample_pdf
      sample_parse sample_stringify sample_stringify later_run = Done tt s' /\
    files (disk s') !! "data/profile.json"
      = Some (sample_stringify
                (mergeProfileData (loaded sample_parse (Some "{}"))
                   (parseExtractedText "Maria, maria@example.com, Python"))) /\
    files (disk s') !! "data/profile.json.backup.1700000000000" = Some "{}".
Proof.
  split; [split; reflexivity |].
  destruct (extractAndMerge_success "data/profile.json" "data/profile.pdf"
              sample_pdf sample_parse sample_stringify sample_stringify
              later_run "%PDF" "Maria, maria@example.com, Python" "{}"
              eq_refl eq_refl eq_refl)
    as (s' & Hrun & Hp & Hb & _); [apply not_elem_of_empty .. |].
  exists s'. split; [exact Hrun |]. split; [exact Hp | exact Hb].
Defined.

Lemma extractAndMerge_cannot_create_record_witness :
  (files (disk first_run) !! "data/profile.pdf" = Some "%PDF" /\
   files (disk first_run) !! "data/profile.json" = None) /\
  exists s',
    extractAndMerge "data/profile.json" "data/profile.pdf" sample_pdf
      sample_parse sample_stringify sample_stringify first_run
      = Failed (FsError (ENOENT "data/profile.json")) s' /\
    files (disk s') = files (disk first_run) /\
    last (calls (disk s'))
      = Some (console_error "Error saving profile:" (ENOENT "data/profile.json")) /\
    error_lines s' =
      [ ("Error loading current profile:", FsError (ENOENT "data/profile.json"));
        ("Error during extraction and merge:",
         FsError (ENOENT "data/profile.json")) ].
Proof.
  split; [split; reflexivity |].
  destruct (extractAndMerge_cannot_create_record "data/profile.json"
              "data/profile.pdf" sample_pdf sample_parse sample_stringify
              sample_stringify first_run "%PDF" "Maria, maria@example.com, Python"
              eq_refl eq_refl eq_refl)
    as (s' & Hrun & Hfiles & _ & Hcalls & Herrors).
  exists s'. split; [exact Hrun |]. split; [exact Hfiles |].
  split; [by rewrite Hcalls | exact Herrors].
Defined.

(** * GitHubDataCollector *)

(** ** getMostUsedLanguages *)

Lemma insert_by_bytes_perm (x : string * N) (l : list (string * N)) :
  Permutation (insert_by_bytes x l) (x :: l).
Proof.
  induction l as [| y l IH]; simpl; [done |].
  destruct (N.leb (snd y) (snd x)); [done |].
  rewrite IH. apply perm_swap.
Qed.

Lemma sort_by_bytes_perm (l : list (string * N)) :
  Permutation (sort_by_bytes l) l.
Proof.
  induction l as [| x l IH]; simpl; [done |].
  rewrite insert_by_bytes_perm. by rewrite IH.
Qed.

Lemma insert_by_bytes_sorted (x : string * N) (l : list (string * N)) :
  StronglySorted more_bytes l -> StronglySorted more_bytes (insert_by_bytes x l).
Proof.
  induction l as [| y l IH]; intros Hs; simpl.
  - repeat constructor.
  - apply StronglySorted_inv in Hs as [Hl Hy].
    destruct (N.leb_spec (snd y) (snd x)) as [Hle | Hlt].
    + constructor; [by constructor |].
      constructor; [done |].
      eapply Forall_impl; [exact Hy |]. unfold more_bytes. intros z Hz. lia.
    + constructor; [by apply IH |].
      rewrite (insert_by_bytes_perm x l). constructor; [| done].
      unfold more_bytes. lia.
Qed.

Lemma sort_by_bytes_sorted (l : list (string * N)) :
  StronglySorted more_bytes (sort_by_bytes l).
Proof.
  induction l as [| x l IH]; simpl; [constructor |].
  by apply insert_by_bytes_sorted.
Qed.

(** Entries already in order stay as they are: ties keep their order. *)
Lemma sort_by_bytes_sorted_id (l : list (string * N)) :
  StronglySorted more_bytes l -> sort_by_bytes l = l.
Proof.
  induction l as [| x l IH]; intros Hs; simpl; [done |].
  apply StronglySorted_inv in Hs as [Hl Hx]. rewrite IH by done.
  destruct l as [| y l]; simpl; [done |].
  apply Forall_cons in Hx as [Hy _]. unfold more_bytes in Hy.
  by rewrite (proj2 (N.leb_le _ _) Hy).
Qed.

(** The sort is stable: the entries with a given count are in the order
    they had. *)
Lemma insert_by_bytes_stable (n : N) (x : string * N) (l : list (string * N)) :
  List.filter (fun e => N.eqb (snd e) n) (insert_by_bytes x l)
  = List.filter (fun e => N.eqb (snd e) n) (x :: l).
Proof.
  induction l as [| y l IH]; [done |].
  cbn [insert_by_bytes].
  destruct (N.leb_spec (snd y) (snd x)) as [Hle | Hlt]; [done |].
  cbn [List.filter] in *. rewrite IH.
  destruct (N.eqb_spec (snd y) n) as [Hy | Hy]; [| done].
  destruct (N.eqb_spec (snd x) n) as [Hx | Hx]; [lia | done].
Qed.

Lemma sort_by_bytes_stable (n : N) (l : list (string * N)) :
  List.filter (fun e => N.eqb (snd e) n) (sort_by_bytes l)
  = List.filter (fun e => N.eqb (snd e) n) l.
Proof.
  induction l as [| x l IH]; [done |].
  cbn [sort_by_bytes fold_right]. rewrite insert_by_bytes_stable.
  cbn [List.filter]. fold (sort_by_bytes l). by rewrite IH.
Qed.

Lemma sort_by_bytes_length (l : list (string * N)) :
  List.length (sort_by_bytes l) = List.length l.
Proof. apply Permutation_length, sort_by_bytes_perm. Qed.

Lemma sorted_lookup (l : list (string * N)) :
  StronglySorted more_bytes l ->
  forall i j a b, i < j -> l !! i = Some a -> l !! j = Some b -> more_bytes a b.
Proof.
  induction 1 as [| x l Hl IH Hx]; intros i j a b Hij Hi Hj; [done |].
  destruct j as [| j]; [lia |]. simpl in Hj.
  destruct i as [| i]; simpl in Hi.
  - inversion Hi; subst. rewrite List.Forall_forall in Hx. apply Hx.
    apply list_elem_of_In. by eapply list_elem_of_lookup_2.
  - eapply IH; [| done | done]. lia.
Qed.

Lemma In_firstn {A} (n : nat) (l : list A) (x : A) :
  In x (firstn n l) -> In x l.
Proof.
  intros Hin. rewrite <- (firstn_skipn n l). apply in_or_app. by left.
Qed.

(** X22: [getMostUsedLanguages] lists [limit] languages, or all of them
    when there are fewer; each is a language of the statistics; they are
    the first entries of the statistics put in order of decreasing byte
    count, so a listed language has at least as many bytes as every entry
    after it, listed or left out; statistics already in that order stay
    as they are, and entries with equal counts keep the order they had. *)
Theorem getMostUsedLanguages_top (stats : LanguageStats) (limit : nat) :
  let sorted := sort_by_bytes stats in
  List.length (getMostUsedLanguages stats limit)
    = Nat.min limit (List.length stats) /\
  (forall language, In language (getMostUsedLanguages stats limit) ->
     exists bytes, In (language, bytes) stats) /\
  (forall i, i < limit ->
     getMostUsedLanguages stats limit !! i = fst <$> sorted !! i) /\
  Permutation sorted stats /\
  (forall i j a b, i < j -> sorted !! i = Some a -> sorted !! j = Some b ->
     (snd b <= snd a)%N) /\
  (StronglySorted more_bytes stats -> sorted = stats) /\
  (forall bytes,
     List.filter (fun e => N.eqb (snd e) bytes) sorted
     = List.filter (fun e => N.eqb (snd e) bytes) stats).
Proof.
  intros sorted. unfold getMostUsedLanguages. fold sorted.
  split.
  { rewrite length_map, length_firstn. unfold sorted.
    by rewrite sort_by_bytes_length. }
  split.
  { intros language ([l b] & <- & Hin)%in_map_iff. exists b.
    apply In_firstn in Hin. simpl.
    eapply Permutation_in; [apply sort_by_bytes_perm | exact Hin]. }
  split.
  { intros i Hi. rewrite list_lookup_fmap. f_equal.
    change (take limit sorted !! i = sorted !! i). by apply lookup_take_lt. }
  split; [apply sort_by_bytes_perm |].
  split; [| split; [apply sort_by_bytes_sorted_id |]].
  2: { intros bytes. apply sort_by_bytes_stable. }
  intros i j a b Hij Hi Hj.
  exact (sorted_lookup _ (sort_by_bytes_sorted stats) i j a b Hij Hi Hj).
Qed.

Lemma getMostUsedLanguages_top_witness :
  getMostUsedLanguages sample_stats 3 = ["TypeScript"; "Python"; "Rust"] /\
  (In "Rust" (getMostUsedLanguages sample_stats 3) /\
   exists bytes, In ("Rust", bytes) sample_stats) /\
  (sort_by_bytes sample_stats !! 2 = Some ("Rust", 900%N) /\
   sort_by_bytes sample_stats !! 3 = Some ("Shell", 120%N) /\
   (120 <= 900)%N).
Proof.
  assert (Hin : In "Rust" (getMostUsedLanguages sample_stats 3))
    by (vm_compute; tauto).
  split; [reflexivity |].
  split; [split; [exact Hin |] |].
  - exact (proj1 (proj2 (getMostUsedLanguages_top sample_stats 3)) "Rust" Hin).
  - split; [reflexivity |]. split; [reflexivity |].
    exact (proj1 (proj2 (proj2 (proj2 (proj2
             (getMostUsedLanguages_top sample_stats 3)))))
             2 3 ("Rust", 900%N) ("Shell", 120%N) (le_n 3) eq_refl eq_refl).
Defined.

(** X23: a shorter list of most used languages is the beginning of a
    longer one: the three printed are the first of the five added to the
    skills, which are the first of the ten stored in the statistics. *)
Theorem getMostUsedLanguages_prefix (stats : LanguageStats) (k n : nat) :
  k <= n ->
  getMostUsedLanguages stats k = firstn k (getMostUsedLanguages stats n).
Proof.
  intros Hkn. unfold getMostUsedLanguages.
  rewrite <- firstn_map, <- (firstn_map fst n).
  rewrite firstn_firstn. by rewrite Nat.min_l.
Qed.

Lemma getMostUsedLanguages_prefix_witness :
  5 <= 10 /\
  getMostUsedLanguages sample_stats 5
    = firstn 5 (getMostUsedLanguages sample_stats 10).
Proof.
  assert (H : 5 <= 10) by lia.
  split; [exact H | exact (getMostUsedLanguages_prefix sample_stats 5 10 H)].
Defined.

(** ** enhanceProfileWithGitHubData *)

Lemma push_new_In (arr : list string) (x : string) : In x (push_new arr x).
Proof.
  unfold push_new. destruct (arr_includes x arr) eqn:Hx.
  - by apply arr_includes_In.
  - apply in_or_app. right. by left.
Qed.

Lemma push_new_keeps (arr : list string) (x y : string) :
  In y arr -> In y (push_new arr x).
Proof.
  unfold push_new. destruct (arr_includes x arr); [done |].
  intros Hy. apply in_or_app. by left.
Qed.

Lemma push_new_absorb (arr : list string) (x : string) :
  In x arr -> push_new arr x = arr.
Proof. intros Hx%arr_includes_In. unfold push_new. by rewrite Hx. Qed.

Lemma push_new_extends (arr : list string) (x : string) :
  exists added, push_new arr x = (arr ++ added)%list.
Proof.
  unfold push_new. destruct (arr_includes x arr); [| eauto].
  exists []. by rewrite app_nil_r.
Qed.

Lemma fold_push_new_keeps (items arr : list string) (y : string) :
  In y arr -> In y (fold_left push_new items arr).
Proof.
  revert arr. induction items as [| x items IH]; intros arr Hy; [done |].
  simpl. apply IH. by apply push_new_keeps.
Qed.

Lemma fold_push_new_In (items arr : list string) (x : string) :
  In x items -> In x (fold_left push_new items arr).
Proof.
  revert arr. induction items as [| y items IH]; intros arr Hx; [done |].
  simpl. destruct Hx as [-> | Hx]; [| by apply IH].
  apply fold_push_new_keeps, push_new_In.
Qed.

Lemma fold_push_new_absorb (items arr : list string) :
  (forall x, In x items -> In x arr) -> fold_left push_new items arr = arr.
Proof.
  revert arr. induction items as [| y items IH]; intros arr Hall; [done |].
  simpl. rewrite push_new_absorb by (apply Hall; by left).
  apply IH. intros x Hx. apply Hall. by right.
Qed.

Lemma fold_push_new_twice (items arr : list string) :
  fold_left push_new items (fold_left push_new items arr)
  = fold_left push_new items arr.
Proof. apply fold_push_new_absorb. intros x Hx. by apply fold_push_new_In. Qed.

Lemma fold_push_new_extends (items arr : list string) :
  exists added, fold_left push_new items arr = (arr ++ added)%list.
Proof.
  revert arr. induction items as [| y items IH]; intros arr; simpl.
  - exists []. by rewrite app_nil_r.
  - destruct (push_new_extends arr y) as (a1 & ->).
    destruct (IH (arr ++ a1)%list) as (a2 & ->).
    exists (a1 ++ a2)%list. by rewrite app_assoc.
Qed.

Lemma add_project_keeps_truthy (projects : gmap string json) (repo : NotableRepo)
    (key : string) :
  has_project projects key = true ->
  has_project (add_project projects repo) key = true.
Proof.
  intros Hk. unfold add_project. cbv zeta.
  destruct (has_project projects (certKey (repo_name repo))) eqn:Hr; [done |].
  unfold has_project.
  destruct (decide (certKey (repo_name repo) = key)) as [<- | Hne].
  - by rewrite lookup_insert_eq.
  - by rewrite lookup_insert_ne.
Qed.

Lemma add_project_has (projects : gmap string json) (repo : NotableRepo) :
  has_project (add_project projects repo) (certKey (repo_name repo)) = true.
Proof.
  unfold add_project. cbv zeta.
  destruct (has_project projects (certKey (repo_name repo))) eqn:Hr; [done |].
  unfold has_project. by rewrite lookup_insert_eq.
Qed.

Lemma add_project_absorb (projects : gmap string json) (repo : NotableRepo) :
  has_project projects (certKey (repo_name repo)) = true ->
  add_project projects repo = projects.
Proof. intros H. unfold add_project. cbv zeta. by rewrite H. Qed.

Lemma fold_add_project_keeps_truthy (repos : list NotableRepo)
    (projects : gmap string json) (key : string) :
  has_project projects key = true ->
  has_project (fold_left add_project repos projects) key = true.
Proof.
  revert projects. induction repos as [| r repos IH]; intros projects Hk; [done |].
  simpl. apply IH. by apply add_project_keeps_truthy.
Qed.

Lemma fold_add_project_twice (repos : list NotableRepo)
    (projects : gmap string json) :
  fold_left add_project repos (fold_left add_project repos projects)
  = fold_left add_project repos projects.
Proof.
  assert (Habsorb : forall rs m,
            (forall r, In r rs -> has_project m (certKey (repo_name r)) = true) ->
            fold_left add_project rs m = m).
  { induction rs as [| r rs IH]; intros m Hall; [done |].
    simpl. rewrite add_project_absorb by (apply Hall; by left).
    apply IH. intros r' Hr'. apply Hall. by right. }
  apply Habsorb. intros r Hr.
  revert projects. induction repos as [| r' repos IH]; intros projects; [done |].
  simpl. destruct Hr as [-> | Hr]; [| by apply IH].
  apply fold_add_project_keeps_truthy, add_project_has.
Qed.

(** An existing project with a true value is left as it is. *)
Lemma fold_add_project_keeps (repos : list NotableRepo)
    (projects : gmap string json) (key : string) (v : json) :
  projects !! key = Some v -> truthy v = true ->
  fold_left add_project repos projects !! key = Some v.
Proof.
  revert projects. induction repos as [| r repos IH]; intros projects Hk Hv;
    [done |].
  simpl. apply IH; [| done]. unfold add_project. cbv zeta.
  destruct (has_project projects (certKey (repo_name r))) eqn:Hr; [done |].
  rewrite lookup_insert_ne; [done |]. intros Heq.
  unfold has_project in Hr. rewrite Heq, Hk in Hr. congruence.
Qed.

Lemma each_into_twice {A B} (expression : string) (target target' : option A)
    (items : list B) (body : A -> B -> A) :
  (forall a, fold_left body items (fold_left body items a) = fold_left body items a) ->
  each_into expression target items body = inr target' ->
  each_into expression target' items body = inr target'.
Proof.
  intros Htwice. unfold each_into. destruct items as [| b items].
  - by intros [= <-].
  - destruct target as [a |]; [| done]. intros [= <-].
    f_equal. f_equal. exact (Htwice a).
Qed.

Section CollectorFacts.

Variable username : string.
Variable userData : GitHubUser.
Variable repoAnalysis : RepoAnalysis.

Abbreviation enhance profile :=
  (enhanceProfileWithGitHubData username profile userData repoAnalysis).

(** The contact list after the two pushes. *)
Lemma enhanced_contact_twice (contact0 : list string) :
  let step c :=
    let c1 := push_new c (githubUrl username) in
    match blog userData with
    | Some b => if nonempty_string (Some b) then push_new c1 b else c1
    | None => c1
    end in
  step (step contact0) = step contact0.
Proof.
  intros step. unfold step. cbv zeta.
  destruct (blog userData) as [b |].
  - destruct (nonempty_string (Some b)).
    + rewrite (push_new_absorb (push_new _ b) (githubUrl username))
        by apply push_new_keeps, push_new_In.
      apply push_new_absorb, push_new_In.
    + rewrite (push_new_absorb (push_new _ _)); [done | apply push_new_In].
  - rewrite (push_new_absorb (push_new _ _)); [done | apply push_new_In].
Qed.

Lemma enhanced_contact_extends (contact0 : list string) :
  exists added,
    match blog userData with
    | Some b =>
        if nonempty_string (Some b)
        then push_new (push_new contact0 (githubUrl username)) b
        else push_new contact0 (githubUrl username)
    | None => push_new contact0 (githubUrl username)
    end = (contact0 ++ added)%list.
Proof.
  destruct (push_new_extends contact0 (githubUrl username)) as (a1 & H1).
  destruct (blog userData) as [b |]; [| eauto].
  destruct (nonempty_string (Some b)); [| eauto].
  destruct (push_new_extends (push_new contact0 (githubUrl username)) b)
    as (a2 & H2).
  exists (a1 ++ a2)%list. rewrite H2, H1. symmetry. apply app_assoc.
Qed.

Lemma enhanced_contact_has_url (contact0 : list string) :
  In (githubUrl username)
    match blog userData with
    | Some b =>
        if nonempty_string (Some b)
        then push_new (push_new contact0 (githubUrl username)) b
        else push_new contact0 (githubUrl username)
    | None => push_new contact0 (githubUrl username)
    end.
Proof.
  destruct (blog userData) as [b |]; [| apply push_new_In].
  destruct (nonempty_string (Some b)); [| apply push_new_In].
  apply push_new_keeps, push_new_In.
Qed.

Lemma enhanced_name_twice (name0 : option string) :
  let step n :=
    if negb (nonempty_string n) && nonempty_string (user_name userData)
    then user_name userData else n in
  step (step name0) = step name0.
Proof.
  intros step. unfold step.
  destruct (nonempty_string name0) eqn:Hn; cbn [negb andb]; [by rewrite Hn |].
  destruct (nonempty_string (user_name userData)) eqn:Hu; cbn [negb andb].
  - by rewrite Hu.
  - by rewrite Hn.
Qed.

(** X24: running the method again on its own result, with the same data
    from GitHub, changes nothing: no contact, language, fact or project is
    added twice. *)
Theorem enhanceProfileWithGitHubData_idempotent (profile enhanced : ProfileData) :
  enhance profile = inr enhanced -> enhance enhanced = inr enhanced.
Proof.
  unfold enhanceProfileWithGitHubData. cbv zeta.
  destruct (contact profile) as [contact0 |]; [| done].
  destruct (each_into _ (programming_languages _) _ _) as [| languages']
    eqn:Hl; [done |].
  destruct (each_into _ (projects profile) _ _) as [| projects'] eqn:Hp; [done |].
  destruct (each_into _ (facts profile) _ _) as [| facts'] eqn:Hf; [done |].
  intros [= <-].
  cbn [name contact facts projects languages certifications superior_education
       professional_experience academical_research memberships technical_skills
       github_stats default from_option id operating_systems
       programming_languages areas_of_expertise tools_and_technologies].
  rewrite (each_into_twice _ _ _ _ _ (fold_push_new_twice _) Hl).
  rewrite (each_into_twice _ _ _ _ _ (fold_add_project_twice _) Hp).
  rewrite (each_into_twice _ _ _ _ _ (fold_push_new_twice _) Hf).
  pose proof (enhanced_contact_twice contact0) as Hc. cbv zeta in Hc.
  pose proof (enhanced_name_twice (name profile)) as Hn. cbv zeta in Hn.
  f_equal. f_equal; [exact Hn | f_equal; exact Hc].
Qed.

Lemma each_into_extends {B} (expression : string) (target target' : option (list string))
    (items : list B) (body : list string -> B -> list string) :
  (forall a, exists added, fold_left body items a = (a ++ added)%list) ->
  each_into expression target items body = inr target' ->
  forall existing, target = Some existing ->
    exists added, target' = Some (existing ++ added)%list.
Proof.
  intros Hext Heach existing ->. unfold each_into in Heach.
  destruct items as [| b items].
  - inversion Heach; subst. exists []. by rewrite app_nil_r.
  - destruct (Hext existing) as (added & Hadded).
    exists added. rewrite <- Hadded. symmetry. by injection Heach.
Qed.

(** X25: what the method keeps of the record it is given: the languages,
    certifications, education, experience, research and memberships are
    untouched; the contact list and the facts keep their entries, in
    order, before anything added; a project whose value is true is not
    replaced; and the lists of technical_skills other than
    programming_languages are as they were. *)
Theorem enhanceProfileWithGitHubData_keeps (profile enhanced : ProfileData) :
  enhance profile = inr enhanced ->
  (languages enhanced = languages profile /\
   certifications enhanced = certifications profile /\
   superior_education enhanced = superior_education profile /\
   professional_experience enhanced = professional_experience profile /\
   academical_research enhanced = academical_research profile /\
   memberships enhanced = memberships profile) /\
  (exists contact0 added,
     contact profile = Some contact0 /\
     contact enhanced = Some (contact0 ++ added)%list) /\
  (forall facts0, facts profile = Some facts0 ->
     exists added, facts enhanced = Some (facts0 ++ added)%list) /\
  (forall projects0 key v,
     projects profile = Some projects0 -> projects0 !! key = Some v ->
     truthy v = true ->
     exists projects', projects enhanced = Some projects' /\
                       projects' !! key = Some v) /\
  (forall skills0, technical_skills profile = Some skills0 ->
     exists skills',
       technical_skills enhanced = Some skills' /\
       operating_systems skills' = operating_systems skills0 /\
       areas_of_expertise skills' = areas_of_expertise skills0 /\
       tools_and_technologies skills' = tools_and_technologies skills0).
Proof.
  unfold enhanceProfileWithGitHubData. cbv zeta.
  destruct (contact profile) as [contact0 |]; [| done].
  destruct (each_into _ (programming_languages _) _ _) as [| languages']
    eqn:Hl; [done |].
  destruct (each_into _ (projects profile) _ _) as [| projects'] eqn:Hp; [done |].
  destruct (each_into _ (facts profile) _ _) as [| facts'] eqn:Hf; [done |].
  intros [= <-].
  cbn [name contact facts projects languages certifications superior_education
       professional_experience academical_research memberships technical_skills
       github_stats].
  split; [done |]. split.
  { destruct (enhanced_contact_extends contact0) as (added & Hadded).
    exists contact0, added. split; [done |]. f_equal. exact Hadded. }
  split.
  { intros facts0 Hfacts.
    exact (each_into_extends _ _ _ _ _ (fold_push_new_extends _) Hf _ Hfacts). }
  split.
  { intros projects0 key v Hprojects Hk Hv. rewrite Hprojects in Hp.
    unfold each_into in Hp.
    destruct (List.filter _ _) as [| r rs]; inversion Hp; subst; [eauto |].
    eexists. split; [reflexivity |]. by apply (fold_add_project_keeps (r :: rs)). }
  intros skills0 ->. eexists. split; [reflexivity |]. by cbn.
Qed.

(** X26: after a PDF extraction that found a tool has been merged into a
    record without technical_skills, the record has technical_skills with
    tools_and_technologies only; the collector then does not initialise
    them, and as soon as GitHub reports one language it reads
    [programming_languages.includes] of undefined: the method throws a
    TypeError instead of returning a record. *)
Theorem enhanceProfileWithGitHubData_after_pdf_merge (current : ProfileData)
    (text : string) :
  technical_skills current = None ->
  foundSkills (toLowerCase text) <> [] ->
  languageStats repoAnalysis <> [] ->
  let merged := mergeProfileData current (parseExtractedText text) in
  (exists skills,
     technical_skills merged = Some skills /\
     programming_languages skills = None) /\
  (exists e, enhance merged = inl e) /\
  (forall contact0, contact merged = Some contact0 ->
     enhance merged
       = inl (ReadOfUndefined "profile.technical_skills.programming_languages")).
Proof.
  intros Hnone Hskills Hstats merged.
  assert (Hmerged : technical_skills merged
                    = Some {| operating_systems := None;
                              programming_languages := None;
                              areas_of_expertise := None;
                              tools_and_technologies :=
                                Some (foundSkills (toLowerCase text)) |}).
  { subst merged. rewrite mergeProfileData_fields. cbn [technical_skills].
    unfold merged_skills. rewrite Hnone.
    change (technical_skills (parseExtractedText text))
      with (match foundSkills (toLowerCase text) with
            | [] => None
            | skills =>
                Some {| operating_systems := None; programming_languages := None;
                        areas_of_expertise := None;
                        tools_and_technologies := Some skills |}
            end).
    by destruct (foundSkills (toLowerCase text)). }
  assert (Htop : exists l ls,
             getMostUsedLanguages (languageStats repoAnalysis) 5 = l :: ls).
  { unfold getMostUsedLanguages.
    pose proof (sort_by_bytes_length (languageStats repoAnalysis)) as Hlen.
    destruct (languageStats repoAnalysis) as [| x xs]; [done |].
    destruct (sort_by_bytes (x :: xs)) as [| y ys]; [done |]. simpl. eauto. }
  destruct Htop as (l & ls & Htop).
  assert (Hread : forall contact0, contact merged = Some contact0 ->
            enhance merged
            = inl (ReadOfUndefined "profile.technical_skills.programming_languages")).
  { intros contact0 Hc. unfold enhanceProfileWithGitHubData. cbv zeta.
    rewrite Hc, Hmerged, Htop. reflexivity. }
  split; [eauto |]. split; [| exact Hread].
  destruct (contact merged) as [contact0 |] eqn:Hc.
  - eexists. by apply (Hread contact0).
  - unfold enhanceProfileWithGitHubData. cbv zeta. rewrite Hc. eauto.
Qed.

(** X27: the method returns a record whenever the record it is given has
    a contact list, facts and projects, and technical_skills either absent
    or with a programming_languages list; the result has the GitHub
    statistics and the profile URL among its contacts. *)
Theorem enhanceProfileWithGitHubData_returns (profile : ProfileData)
    (contact0 facts0 : list string) (projects0 : gmap string json) :
  contact profile = Some contact0 ->
  facts profile = Some facts0 ->
  projects profile = Some projects0 ->
  (forall skills, technical_skills profile = Some skills ->
     is_Some (programming_languages skills)) ->
  exists enhanced contact',
    enhance profile = inr enhanced /\
    github_stats enhanced = Some (github_stats_of userData repoAnalysis) /\
    contact enhanced = Some contact' /\
    In (githubUrl username) contact'.
Proof.
  intros Hc Hf Hp Hskills.
  unfold enhanceProfileWithGitHubData. cbv zeta. rewrite Hc, Hf, Hp.
  assert (Hpl : is_Some (programming_languages
                           (default fresh_skills (technical_skills profile)))).
  { destruct (technical_skills profile) as [skills |]; simpl; [| eauto].
    by apply Hskills. }
  destruct Hpl as (pl & ->).
  assert (Heach : forall {B} e (a : list string) (items : list B) body,
            exists t, each_into e (Some a) items body = inr (Some t)).
  { intros B e a items body. unfold each_into. destruct items; eauto. }
  destruct (Heach _ "profile.technical_skills.programming_languages" pl
              (getMostUsedLanguages (languageStats repoAnalysis) 5) push_new)
    as (pl' & ->).
  assert (Hproj : exists t,
             each_into "profile.projects" (Some projects0)
               (List.filter worth_a_project (firstn 5 (notableRepos repoAnalysis)))
               add_project = inr (Some t)).
  { unfold each_into. destruct (List.filter _ _); eauto. }
  destruct Hproj as (pr' & ->).
  destruct (Heach _ "profile.facts" facts0 (newFacts userData repoAnalysis) push_new)
    as (f' & ->).
  eexists. eexists. split; [reflexivity |].
  cbn [github_stats contact]. split; [done |]. split; [reflexivity |].
  apply enhanced_contact_has_url.
Qed.

End CollectorFacts.

Lemma enhanceProfileWithGitHubData_idempotent_witness :
  exists enhanced,
    enhanceProfileWithGitHubData "alice" default_profile sample_user sample_analysis
      = inr enhanced /\
    contact enhanced = Some ["https://github.com/alice"; "https://alice.dev"] /\
    enhanceProfileWithGitHubData "alice" enhanced sample_user sample_analysis
      = inr enhanced.
Proof.
  eexists. split; [reflexivity |]. split; [cbn [contact]; vm_compute; reflexivity |].
  apply (enhanceProfileWithGitHubData_idempotent
           "alice" sample_user sample_analysis default_profile).
  reflexivity.
Defined.

Lemma enhanceProfileWithGitHubData_keeps_witness :
  exists enhanced,
    enhanceProfileWithGitHubData "alice" stored_profile sample_user sample_analysis
      = inr enhanced /\
    languages enhanced = languages stored_profile /\
    (exists added,
       contact enhanced = Some (["alice@example.com"] ++ added)%list) /\
    (exists added,
       facts enhanced = Some (["Speaks at meetups"] ++ added)%list) /\
    (exists projects',
       projects enhanced = Some projects' /\
       projects' !! "dot_files" = Some (JStr "my dotfiles")).
Proof.
  eexists. split; [reflexivity |].
  destruct (enhanceProfileWithGitHubData_keeps
              "alice" sample_user sample_analysis stored_profile _ eq_refl)
    as ((Hlanguages & _) & (contact0 & added & Hcontact0 & Hcontact)
        & Hfacts & Hprojects & _).
  split; [exact Hlanguages |]. split.
  - exists added. injection Hcontact0 as <-. exact Hcontact.
  - split.
    + exact (Hfacts ["Speaks at meetups"] eq_refl).
    + apply (Hprojects {[ "dot_files" := JStr "my dotfiles" ]} "dot_files");
        reflexivity.
Defined.

Lemma enhanceProfileWithGitHubData_after_pdf_merge_witness :
  technical_skills default_profile = None /\
  foundSkills (toLowerCase alice_text) = ["Docker"; "Git"] /\
  languageStats sample_analysis = sample_stats /\
  exists e,
    enhanceProfileWithGitHubData "alice"
      (mergeProfileData default_profile (parseExtractedText alice_text))
      sample_user sample_analysis = inl e.
Proof.
  split; [reflexivity |]. split; [vm_compute; reflexivity |].
  split; [reflexivity |].
  apply (enhanceProfileWithGitHubData_after_pdf_merge
           "alice" sample_user sample_analysis default_profile alice_text).
  - reflexivity.
  - intros H. vm_compute in H. discriminate H.
  - discriminate.
Defined.

Lemma enhanceProfileWithGitHubData_returns_witness :
  exists enhanced contact',
    enhanceProfileWithGitHubData "alice" stored_profile sample_user sample_analysis
      = inr enhanced /\
    github_stats enhanced = Some (github_stats_of sample_user sample_analysis) /\
    contact enhanced = Some contact' /\
    In (githubUrl "alice") contact'.
Proof.
  apply (enhanceProfileWithGitHubData_returns
           "alice" sample_user sample_analysis stored_profile
           ["alice@example.com"] ["Speaks at meetups"]
           {[ "dot_files" := JStr "my dotfiles" ]}); try reflexivity.
  intros skills [= <-]. cbn. eauto.
Defined.
